(** * rbtools/clients/git.py : the git client of post-review

    A shallow embedding of [GitClient] (src/rbtools/clients/git.py) and the
    properties of its diff pipeline, SVN diff translator, commit annotator,
    GitHub URL expansion and version check.

    Layout:
    - [Py]       : the Python string operations the client relies on;
    - [Proc]     : the process interface ([execute], [die]) as a state and
                   error monad over an arbitrary world of external commands;
    - [Git]      : the methods of [GitClient], one definition per method;
    - [Script]   : a world that answers commands from a table;
    - [Transcript] : a world that replays a recorded session, command by
                   command;
    - [Spec]     : the vocabulary of the statements;
    - [Examples] : sample diffs, clients and repositories;
    - the facts, module by module: strings, the SVN translator, the diff
      pipeline, the annotator, versions and repository paths. *)

From Stdlib Require Import String Ascii List Bool Arith ZArith Lia.
Import ListNotations.
Open Scope list_scope.
Open Scope string_scope.

(* ===================================================================== *)
(** * Python strings *)
(* ===================================================================== *)

Module Py.

(** Characters that have no printable literal. *)
Definition LF : ascii := ascii_of_nat 10.
Definition CR : ascii := ascii_of_nat 13.
Definition TAB : ascii := ascii_of_nat 9.
Definition DQUOTE : ascii := ascii_of_nat 34.

Definition nl : string := String LF EmptyString.
Definition tab : string := String TAB EmptyString.
Definition dq : string := String DQUOTE EmptyString.

(** [bool(s)] for a [str]. *)
Definition truthy (s : string) : bool :=
  match s with
  | EmptyString => false
  | String _ _ => true
  end.

(** [bool(x)] for a value that is [None] or a [str]. *)
Definition truthy_opt (o : option string) : bool :=
  match o with
  | None => false
  | Some s => truthy s
  end.

(** [x or y] where [x] is [None] or a [str]. *)
Definition or_else (o : option string) (d : string) : string :=
  match o with
  | Some s => if truthy s then s else d
  | None => d
  end.

(** [string.whitespace] of Python 2: space, \t, \n, \v, \f, \r. *)
Definition is_space (c : ascii) : bool :=
  (c =? " ")%char || (c =? TAB)%char || (c =? LF)%char ||
  (c =? ascii_of_nat 11)%char || (c =? ascii_of_nat 12)%char || (c =? CR)%char.

(** [s.startswith(p)] *)
Fixpoint startswith (s p : string) {struct p} : bool :=
  match p with
  | EmptyString => true
  | String a p' =>
      match s with
      | EmptyString => false
      | String b s' => (a =? b)%char && startswith s' p'
      end
  end.

(** [s.lstrip()] *)
Fixpoint lstrip (s : string) : string :=
  match s with
  | EmptyString => EmptyString
  | String c s' => if is_space c then lstrip s' else s
  end.

(** [s.rstrip()] *)
Fixpoint rstrip (s : string) : string :=
  match s with
  | EmptyString => EmptyString
  | String c s' =>
      match rstrip s' with
      | EmptyString => if is_space c then EmptyString else String c EmptyString
      | r => String c r
      end
  end.

(** [s.strip()] *)
Definition strip (s : string) : string := lstrip (rstrip s).

(** [s[n:]] *)
Fixpoint slice_from (n : nat) (s : string) : string :=
  match n, s with
  | O, _ => s
  | S _, EmptyString => EmptyString
  | S n', String _ s' => slice_from n' s'
  end.

(** [sub in s] *)
Fixpoint contains (s sub : string) : bool :=
  startswith s sub ||
  match s with
  | EmptyString => false
  | String _ s' => contains s' sub
  end.

(** [c in s] for a single character. *)
Fixpoint contains_char (s : string) (c : ascii) : bool :=
  match s with
  | EmptyString => false
  | String b s' => (b =? c)%char || contains_char s' c
  end.

(** [s.split(sep)] for a one-character separator: every occurrence splits,
    empty fields are kept, the result is never empty. *)
Fixpoint split (sep : ascii) (s : string) : list string :=
  match s with
  | EmptyString => [EmptyString]
  | String c s' =>
      if (c =? sep)%char then EmptyString :: split sep s'
      else match split sep s' with
           | [] => [String c EmptyString]
           | f :: fs => String c f :: fs
           end
  end.

(** [s.split(sep, maxsplit)] *)
Fixpoint split_max (sep : ascii) (maxsplit : nat) (s : string) : list string :=
  match maxsplit with
  | O => [s]
  | S m =>
      match s with
      | EmptyString => [EmptyString]
      | String c s' =>
          if (c =? sep)%char then EmptyString :: split_max sep m s'
          else match split_max sep maxsplit s' with
               | [] => [String c EmptyString]
               | f :: fs => String c f :: fs
               end
      end
  end.

(** [s.splitlines()] of a Python 2 [str]: lines end at \n, \r or \r\n, the
    terminators are dropped and a final terminator opens no empty line. *)
Fixpoint splitlines (s : string) : list string :=
  match s with
  | EmptyString => []
  | String c s' =>
      if (c =? LF)%char then EmptyString :: splitlines s'
      else if (c =? CR)%char then
        match s' with
        | String c2 s'' =>
            if (c2 =? LF)%char then EmptyString :: splitlines s''
            else EmptyString :: splitlines s'
        | EmptyString => [EmptyString]
        end
      else match splitlines s' with
           | [] => [String c EmptyString]
           | l :: ls => String c l :: ls
           end
  end.

(** [f.readlines()] on text whose newlines are already translated: lines end
    at \n and keep it. *)
Fixpoint readlines (s : string) : list string :=
  match s with
  | EmptyString => []
  | String c s' =>
      if (c =? LF)%char then nl :: readlines s'
      else match readlines s' with
           | [] => [String c EmptyString]
           | l :: ls => String c l :: ls
           end
  end.

(** [s.replace(a, b)] for single characters. *)
Fixpoint replace_char (a b : ascii) (s : string) : string :=
  match s with
  | EmptyString => EmptyString
  | String c s' => String (if (c =? a)%char then b else c) (replace_char a b s')
  end.

(** [s * n] *)
Fixpoint repeat (s : string) (n : nat) : string :=
  match n with
  | O => EmptyString
  | S n' => s ++ repeat s n'
  end.

(** ASCII lower case, for case-insensitive matching. *)
Definition lower (c : ascii) : ascii :=
  let n := nat_of_ascii c in
  if (65 <=? n)%nat && (n <=? 90)%nat then ascii_of_nat (n + 32) else c.

Fixpoint lower_str (s : string) : string :=
  match s with
  | EmptyString => EmptyString
  | String c s' => String (lower c) (lower_str s')
  end.

(** A string with no line terminator in it. *)
Fixpoint one_line (s : string) : bool :=
  match s with
  | EmptyString => true
  | String c s' => negb (c =? LF)%char && negb (c =? CR)%char && one_line s'
  end.

End Py.

(* ===================================================================== *)
(** * The process interface *)
(* ===================================================================== *)

Module Proc.

(** The Python exceptions the client can raise on its own. *)
Inductive exn : Type :=
| IndexError
| ValueError.

(** How a method ends: it returns, the process exits through [die], or an
    exception escapes. *)
Inductive outcome (A : Type) : Type :=
| Done (a : A)
| Exit
| Raised (e : exn).

Arguments Done {A} a.
Arguments Exit {A}.
Arguments Raised {A} e.

(** One external command: its argument vector and the [GIT_EDITOR] variable
    of its environment, when the caller sets one. *)
Record Call : Type := mkCall {
  command : list string;
  git_editor : option string
}.

(** What a finished command left: whether its exit status was 0, and its
    output (stdout, with stderr where the caller asks for it). *)
Record Completed : Type := mkCompleted {
  ok : bool;
  data : string
}.

Section Monad.

Variables Self World : Type.

(** The client object, the world the commands run in, and the commands run
    so far, oldest first. *)
Record State : Type := mkState {
  self : Self;
  world : World;
  log : list Call
}.

Definition M (A : Type) : Type := State -> outcome (A * State).

Definition ret {A} (a : A) : M A := fun st => Done (a, st).

Definition bind {A B} (m : M A) (k : A -> M B) : M B :=
  fun st =>
    match m st with
    | Done (a, st') => k a st'
    | Exit => Exit
    | Raised e => Raised e
    end.

Definition get_self : M Self := fun st => Done (self st, st).

Definition modify_self (f : Self -> Self) : M unit :=
  fun st => Done (tt, mkState (f (self st)) (world st) (log st)).

(** Modelled from the spec: rbtools.utils.process.die is not part of the
    sources at hand; it reports a fatal failure and ends the process. *)
Definition die {A} : M A := fun _ => Exit.

Definition raise {A} (e : exn) : M A := fun _ => Raised e.

(** The world: what a command prints, whether it succeeds, and what it
    changes. *)
Variable run : Call -> World -> Completed * World.

Definition spawn (c : Call) : M Completed :=
  fun st =>
    let (r, w) := run c (world st) in
    Done (r, mkState (self st) w (log st ++ [c])%list).

End Monad.

Arguments self {Self World} _.
Arguments world {Self World} _.
Arguments log {Self World} _.
Arguments mkState {Self World} _ _ _.
Arguments ret {Self World A} _ _.
Arguments bind {Self World A B} _ _ _.
Arguments get_self {Self World} _.
Arguments modify_self {Self World} _ _.
Arguments die {Self World A} _.
Arguments raise {Self World A} _ _.
Arguments spawn {Self World} _ _ _.

Declare Scope proc_scope.
Delimit Scope proc_scope with proc.
Notation "x <- c ;; k" := (bind c (fun x => k))
  (at level 61, c at next level, right associativity) : proc_scope.
Notation "c ;;; k" := (bind c (fun _ => k))
  (at level 61, right associativity) : proc_scope.

Section Execute.

Context {Self World : Type}.
Variable run : Call -> World -> Completed * World.

Local Open Scope proc_scope.

(** Modelled from the spec: rbtools.utils.process.execute is not part of the
    sources at hand. It runs a command and captures its output, optionally
    split into lines; a failing command ends the process through [die]
    unless errors are ignored, in which case the output is returned as it
    is, or [None] when the caller asks for that.

    [execute(command, ignore_errors=...)] *)
Definition execute (cmd : list string) (ignore_errors : bool)
  : M Self World string :=
  r <- spawn run (mkCall cmd None);;
  if negb (ok r) && negb ignore_errors then die else ret (data r).

(** Modelled from the spec: the same [execute], called as
    [execute(command, split_lines=True)]. *)
Definition execute_lines (cmd : list string) : M Self World (list string) :=
  r <- spawn run (mkCall cmd None);;
  if negb (ok r) then die else ret (Py.readlines (data r)).

(** Modelled from the spec: the same [execute], called as
    [execute(command, env=..., with_errors=True, ignore_errors=True,
    none_on_ignored_error=True)]. *)
Definition execute_or_none (cmd : list string) (env : option string)
  : M Self World (option string) :=
  r <- spawn run (mkCall cmd env);;
  if negb (ok r) then ret None else ret (Some (data r)).

(** Modelled from the spec: the same [execute], called as
    [execute(command, ignore_errors=True, none_on_ignored_error=True,
    split_lines=True)]. *)
Definition execute_lines_or_none (cmd : list string)
  : M Self World (option (list string)) :=
  r <- spawn run (mkCall cmd None);;
  if negb (ok r) then ret None else ret (Some (Py.readlines (data r))).

End Execute.

End Proc.

(* ===================================================================== *)
(** * GitClient *)
(* ===================================================================== *)

Module Git.

Import Py Proc.
Local Open Scope proc_scope.

(** The command-line options the client reads ([None] when not given). *)
Record Options : Type := mkOptions {
  parent_branch : option string;
  guess_summary : bool;
  summary : option string;
  guess_description : bool;
  description : option string;
  target_people : option string;
  target_groups : option string
}.

(** The attributes of a [GitClient] object. *)
Record GitClient : Type := mkGitClient {
  git : string;
  type : string;
  upstream_branch : string;
  head_ref : string;
  merge_base : string;
  rev_range_for_diff : option (string * string);
  options : Options
}.

Definition set_summary (s : string) (o : Options) : Options :=
  mkOptions (parent_branch o) (guess_summary o) (Some s)
            (guess_description o) (description o)
            (target_people o) (target_groups o).

Definition set_description (s : string) (o : Options) : Options :=
  mkOptions (parent_branch o) (guess_summary o) (summary o)
            (guess_description o) (Some s)
            (target_people o) (target_groups o).

Definition set_options (f : Options -> Options) (c : GitClient) : GitClient :=
  mkGitClient (git c) (type c) (upstream_branch c) (head_ref c)
              (merge_base c) (rev_range_for_diff c) (f (options c)).

Definition set_merge_base (mb : string) (c : GitClient) : GitClient :=
  mkGitClient (git c) (type c) (upstream_branch c) (head_ref c)
              mb (rev_range_for_diff c) (options c).

Definition set_rev_range_for_diff (r : string * string) (c : GitClient)
  : GitClient :=
  mkGitClient (git c) (type c) (upstream_branch c) (head_ref c)
              (merge_base c) (Some r) (options c).

(* --------------------------------------------------------------------- *)
(** ** is_valid_version *)

(** [is_valid_version(self, actual, expected)] on two
    (major, minor, micro) tuples of Python integers. *)
Definition is_valid_version (actual expected : Z * Z * Z) : bool :=
  let '(a0, a1, a2) := actual in
  let '(e0, e1, e2) := expected in
  ((a0 >? e0) ||
   ((a0 =? e0) && (a1 >? e1)) ||
   ((a0 =? e0) && (a1 =? e1) && (a2 >=? e2)))%Z.

(** Python's ordering of tuples of integers: the first component that differs
    decides, and a proper prefix comes first. *)
Fixpoint tuple_compare (a b : list Z) : comparison :=
  match a, b with
  | [], [] => Eq
  | [], _ :: _ => Lt
  | _ :: _, [] => Gt
  | x :: a', y :: b' =>
      match (x ?= y)%Z with
      | Eq => tuple_compare a' b'
      | c => c
      end
  end.

Definition version_tuple (v : Z * Z * Z) : list Z :=
  let '(major, minor, micro) := v in [major; minor; micro].

(* --------------------------------------------------------------------- *)
(** ** _github_paths *)

(** The regular expression of [_github_paths], matched the way [re.match]
    does: anchored at the start, alternatives and optional groups tried in
    order with backtracking. *)
Module GithubRe.

(** A pattern atom: a literal character, or [.] (any character but a
    newline). The source leaves the dots of [github.com] and [.git]
    unescaped, so they are [Any]. *)
Inductive atom : Type :=
| Chr (c : ascii)
| Any.

Definition atom_matches (a : atom) (c : ascii) : bool :=
  match a with
  | Chr x => (x =? c)%char
  | Any => negb (c =? LF)%char
  end.

(** Match a sequence of atoms at the start of [s]; the rest of [s]. *)
Fixpoint eat (p : list atom) (s : string) : option string :=
  match p with
  | [] => Some s
  | a :: p' =>
      match s with
      | EmptyString => None
      | String c s' => if atom_matches a c then eat p' s' else None
      end
  end.

Definition lit (s : string) : list atom := map Chr (list_ascii_of_string s).

(** [github.com/] *)
Definition host_slash : list atom :=
  (lit "github" ++ [Any] ++ lit "com/")%list.

(** [git@github.com:] *)
Definition ssh_host : list atom :=
  (lit "git@github" ++ [Any] ++ lit "com:")%list.

(** [[^@]+@] : one or more characters other than [@], then [@]. *)
Fixpoint userinfo_from (seen : bool) (s : string) : option string :=
  match s with
  | EmptyString => None
  | String c s' =>
      if (c =? "@")%char then (if seen then Some s' else None)
      else userinfo_from true s'
  end.

Definition userinfo : string -> option string := userinfo_from false.

(** [$] : the end of the string, or just before a newline that ends it. *)
Definition at_end (s : string) : bool := (s =? EmptyString) || (s =? nl).

(** [(.git)?$] : the group is tried first, then skipped. *)
Definition dotgit_end (s : string) : bool :=
  match eat (Any :: lit "git") s with
  | Some r => at_end r
  | None => false
  end || at_end s.

(** [(?P<repos>.*?)(.git)?$] : the shortest [repos] that lets the rest
    match. *)
Fixpoint repos_tail (s : string) : option string :=
  if dotgit_end s then Some EmptyString
  else match s with
       | EmptyString => None
       | String c s' =>
           if atom_matches Any c
           then option_map (String c) (repos_tail s')
           else None
       end.

Definition and_then {A B} (o : option A) (k : A -> option B) : option B :=
  match o with
  | Some a => k a
  | None => None
  end.

Definition or_try {A} (o : option A) (k : option A) : option A :=
  match o with
  | Some a => Some a
  | None => k
  end.

(** [scheme([^@]+@)?github.com/] followed by the tail. *)
Definition web (scheme : string) (url : string) : option string :=
  and_then (eat (lit scheme) url) (fun r =>
    or_try (and_then (userinfo r) (fun r1 =>
              and_then (eat host_slash r1) repos_tail))
           (and_then (eat host_slash r) repos_tail)).

(** [github_re.match(url)]: the group [repos] of the match, if any. *)
Definition github_re_match (url : string) : option string :=
  or_try (web "http://" url)
  (or_try (web "https://" url)
  (or_try (and_then (eat (lit "git://") url) (fun r =>
             and_then (eat host_slash r) repos_tail))
          (and_then (eat ssh_host url) repos_tail))).

End GithubRe.

(** What [_github_paths] returns: the url itself (a [str]) or a list. *)
Inductive repo_path : Type :=
| PathStr (url : string)
| PathList (urls : list string).

(** The URLs a repository path stands for. *)
Definition paths_of (p : repo_path) : list string :=
  match p with
  | PathStr url => [url]
  | PathList urls => urls
  end.

(** [_github_paths(self, url)] *)
Definition _github_paths (url : string) : repo_path :=
  match GithubRe.github_re_match url with
  | None => PathStr url
  | Some repos =>
      PathList ["http://github.com/" ++ repos;
                "http://github.com/" ++ repos ++ ".git";
                "https://github.com/" ++ repos;
                "https://github.com/" ++ repos ++ ".git";
                "git://github.com/" ++ repos;
                "git://github.com/" ++ repos ++ ".git";
                "git@github.com:" ++ repos;
                "git@github.com:" ++ repos ++ ".git"]
  end.

(** The eight forms of one GitHub repository: four schemes, each with and
    without the [.git] suffix. *)
Definition github_forms (repos : string) : list string :=
  flat_map (fun prefix => [prefix ++ repos; prefix ++ repos ++ ".git"])
           ["http://github.com/"; "https://github.com/";
            "git://github.com/"; "git@github.com:"].

(* --------------------------------------------------------------------- *)
(** ** make_svn_diff: the loop over the lines of the diff *)

(** The local variables of [make_svn_diff] that the loop updates. *)
Record svn_state : Type := mkSvn {
  diff_data : string;
  filename : string;
  newfile : bool
}.

(** One iteration of [for line in diff_lines], for the resolved revision
    [rev]. [info[2]] raises [IndexError] when the line has fewer than three
    fields. *)
Definition svn_line (rev : string) (st : svn_state) (line : string)
  : exn + svn_state :=
  if startswith line "diff " then
    let info := split " " line in
    match nth_error info 2 with
    | None => inl IndexError
    | Some info2 =>
        let d := diff_data st ++ ("Index: " ++ info2 ++ nl) in
        let d := d ++ repeat "=" 67 in
        let d := d ++ nl in
        inr (mkSvn d (filename st) (newfile st))
    end
  else if startswith line "index " then
    inr st
  else if strip line =? "--- /dev/null" then
    inr (mkSvn (diff_data st) (filename st) true)
  else if startswith line "--- " then
    inr (mkSvn (diff_data st ++
                ("--- " ++ strip (slice_from 4 line) ++ tab ++
                 "(revision " ++ rev ++ ")" ++ nl))
               (filename st) false)
  else if startswith line "+++ " then
    let filename := strip (slice_from 4 line) in
    if newfile st then
      let d := diff_data st ++
               ("--- " ++ filename ++ tab ++ "(revision 0)" ++ nl) in
      let d := d ++ ("+++ " ++ filename ++ tab ++ "(revision 0)" ++ nl) in
      inr (mkSvn d filename (newfile st))
    else
      inr (mkSvn (diff_data st ++
                  ("+++ " ++ filename ++ tab ++ "(working copy)" ++ nl))
                 filename (newfile st))
  else if startswith line "new file mode" then
    inr st
  else if startswith line "Binary files " then
    let d := diff_data st ++
             ("Cannot display: file marked as a binary type." ++ nl) in
    let d := d ++ ("svn:mime-type = application/octet-stream" ++ nl) in
    inr (mkSvn d (filename st) (newfile st))
  else
    inr (mkSvn (diff_data st ++ line) (filename st) (newfile st)).

Fixpoint svn_loop (rev : string) (diff_lines : list string) (st : svn_state)
  : exn + svn_state :=
  match diff_lines with
  | [] => inr st
  | line :: rest =>
      match svn_line rev st line with
      | inl e => inl e
      | inr st' => svn_loop rev rest st'
      end
  end.

(** The state before the loop: [diff_data = ""], [filename = ""],
    [newfile = False]. *)
Definition svn_init : svn_state := mkSvn EmptyString EmptyString false.

(* --------------------------------------------------------------------- *)
(** ** The methods that run commands *)

Section Methods.

Context {World : Type}.
Variable run : Call -> World -> Completed * World.

(** A method of the client: it reads and updates the object and runs
    commands. *)
Definition Cmd : Type -> Type := M GitClient World.

(** [make_svn_diff(self, parent_branch, diff_lines)] *)
Definition make_svn_diff (parent_branch : string) (diff_lines : list string)
  : Cmd (option string) :=
  self <- get_self;;
  out <- execute run [git self; "svn"; "find-rev"; parent_branch] false;;
  let rev := strip out in
  if negb (truthy rev) then ret None
  else match svn_loop rev diff_lines svn_init with
       | inl e => raise e
       | inr st => ret (Some (diff_data st))
       end.

(** [make_diff(self, ancestor, commit="")] *)
Definition make_diff (ancestor : string) (commit : string)
  : Cmd (option string) :=
  let rev_range :=
    if truthy commit then ancestor ++ ".." ++ commit else ancestor in
  self <- get_self;;
  if type self =? "svn" then
    diff_lines <- execute_lines run
                    [git self; "diff"; "--no-color"; "--no-prefix";
                     "--no-ext-diff"; "-r"; "-u"; rev_range];;
    make_svn_diff ancestor diff_lines
  else if type self =? "git" then
    d <- execute run
           [git self; "diff"; "--no-color"; "--full-index";
            "--no-ext-diff"; "--ignore-submodules"; rev_range] false;;
    ret (Some d)
  else ret None.

(** [_set_guesses(self, rev_range)] *)
Definition _set_guesses (rev_range : string * string) : Cmd unit :=
  let '(start_rev, end_rev) := rev_range in
  self <- get_self;;
  (if guess_summary (options self) && negb (truthy_opt (summary (options self)))
   then
     out <- execute run [git self; "rev-list"; "--reverse"; "--parents";
                         "^" ++ start_rev; head_ref self] false;;
     let first_commit := hd EmptyString (split_max " " 2 out) in
     s <- execute run [git self; "log"; "--no-merges"; "--pretty=format:%s";
                       first_commit; "^" ++ first_commit ++ "^"] true;;
     modify_self (set_options (set_summary (strip (replace_char LF " " s))))
   else ret tt);;;
  self <- get_self;;
  if guess_description (options self)
     && negb (truthy_opt (description (options self)))
  then
    d <- execute run [git self; "log"; "--reverse";
                      "--pretty=format:%s%n%n%b";
                      start_rev ++ ".." ++ end_rev] true;;
    modify_self (set_options (set_description (strip d)))
  else ret tt.

(** The local [head_ref] of [diff] and [diff_between_revisions]. *)
Definition head_ref_or_HEAD (self : GitClient) : string :=
  if truthy (head_ref self) then head_ref self else "HEAD".

(** [diff(self, args)]; [args] is not used. *)
Definition diff : Cmd (option string * option string) :=
  self <- get_self;;
  let parent_branch := parent_branch (options self) in
  let head_ref := head_ref_or_HEAD self in
  mb <- execute run [git self; "merge-base"; upstream_branch self; head_ref]
          false;;
  modify_self (set_merge_base (strip mb));;;
  self <- get_self;;
  lines <-
    (if truthy_opt parent_branch then
       diff_lines <- make_diff (or_else parent_branch EmptyString) EmptyString;;
       parent_diff_lines <- make_diff (merge_base self)
                              (or_else parent_branch EmptyString);;
       ret (diff_lines, parent_diff_lines)
     else
       diff_lines <- make_diff (merge_base self) head_ref;;
       ret (diff_lines, None));;
  modify_self (set_rev_range_for_diff
                 (or_else parent_branch (merge_base self), "HEAD"));;;
  _set_guesses (or_else parent_branch (merge_base self), "HEAD");;;
  ret lines.

(** [diff_between_revisions(self, revision_range, args, repository_info)];
    the last two arguments are not used. *)
Definition diff_between_revisions (revision_range : string)
  : Cmd (option string * option string) :=
  self <- get_self;;
  let head_ref := head_ref_or_HEAD self in
  mb <- execute run [git self; "merge-base"; upstream_branch self; head_ref]
          false;;
  modify_self (set_merge_base (strip mb));;;
  self <- get_self;;
  if negb (contains_char revision_range ":") then
    pdiff_required <- execute run [git self; "branch"; "-r"; "--contains";
                                   revision_range] false;;
    parent_diff_lines <-
      (if negb (truthy pdiff_required)
       then make_diff (merge_base self) revision_range
       else ret None);;
    modify_self (set_rev_range_for_diff (revision_range, "HEAD"));;;
    _set_guesses (revision_range, "HEAD");;;
    diff_lines <- make_diff revision_range EmptyString;;
    ret (diff_lines, parent_diff_lines)
  else
    match split ":" revision_range with
    | [r1; r2] =>
        pdiff_required <- execute run [git self; "branch"; "-r"; "--contains";
                                       r1] false;;
        parent_diff_lines <-
          (if negb (truthy pdiff_required)
           then make_diff (merge_base self) r1
           else ret None);;
        modify_self (set_rev_range_for_diff (r1, r2));;;
        _set_guesses (r1, r2);;;
        diff_lines <- make_diff r1 r2;;
        ret (diff_lines, parent_diff_lines)
    | _ => raise ValueError
    end.

(** The text of the new note line, from the people, the groups and the
    review url. *)
Definition build_reviewed_by (options : Options) (review_url : string)
  : string :=
  let reviewed_by := "Reviewed-By:" in
  let reviewed_by :=
    if truthy_opt (target_people options)
    then reviewed_by ++ (" " ++ or_else (target_people options) EmptyString)
    else reviewed_by in
  let reviewed_by :=
    if truthy_opt (target_people options) && truthy_opt (target_groups options)
    then reviewed_by ++ " and"
    else reviewed_by in
  let reviewed_by :=
    if truthy_opt (target_groups options)
    then reviewed_by ++
         (" groups:" ++ or_else (target_groups options) EmptyString)
    else reviewed_by in
  reviewed_by ++ (" <" ++ review_url ++ ">").

(** [for line in output.splitlines(): if ...: ...; break]: the first line
    that starts with [Reviewed-By: ] and contains the review url. *)
Fixpoint find_reviewed_by (lines : list string) (review_url : string)
  : option string :=
  match lines with
  | [] => None
  | line :: rest =>
      if startswith line "Reviewed-By: " && contains line review_url
      then Some line
      else find_reviewed_by rest review_url
  end.

Definition perlcmd (reviewed_by : string) : string :=
  "print unless /Reviewed-By: /i; if (eof) { print; print q{"
  ++ reviewed_by ++ "} }".

(** [r'sh -c "perl -nli -e \"%s\" \"$1\""' % perlcmd] *)
Definition git_editor_cmd (reviewed_by : string) : string :=
  "sh -c " ++ dq ++ "perl -nli -e \" ++ dq ++ perlcmd reviewed_by
  ++ "\" ++ dq ++ " \" ++ dq ++ "$1\" ++ dq ++ dq.

(** [for commit in commits: ...], counting the edits that did not fail. *)
Fixpoint edit_notes (git : string) (editor : string) (commits : list string)
  (num_successful_updates : nat) : Cmd nat :=
  match commits with
  | [] => ret num_successful_updates
  | commit :: rest =>
      output <- execute_or_none run [git; "notes"; "edit"; commit]
                  (Some editor);;
      edit_notes git editor rest
        (match output with
         | Some _ => S num_successful_updates
         | None => num_successful_updates
         end)
  end.

(** [update_commits_with_reviewer_info(self, options, review_url)] *)
Definition update_commits_with_reviewer_info (options : Options)
  (review_url : string) : Cmd nat :=
  self <- get_self;;
  match rev_range_for_diff self with
  | None => ret 0
  | Some (start_rev, end_rev) =>
      commits <- execute_lines_or_none run
                   [git self; "rev-list"; "--reverse";
                    start_rev ++ ".." ++ end_rev];;
      match commits with
      | None | Some [] => ret 0
      | Some (first :: others) =>
          let commits := map strip (first :: others) in
          let reviewed_by := build_reviewed_by options review_url in
          output <- execute_or_none run
                      [git self; "notes"; "show"; hd EmptyString commits]
                      None;;
          match (if truthy_opt output
                 then find_reviewed_by
                        (splitlines (or_else output EmptyString)) review_url
                 else None) with
          | Some line =>
              edit_notes (git self) (git_editor_cmd line) (tl commits) 1
          | None =>
              edit_notes (git self) (git_editor_cmd reviewed_by) commits 0
          end
      end
  end.

End Methods.

End Git.

(* ===================================================================== *)
(** * Worlds to run the client in *)
(* ===================================================================== *)

(** A scripted world: a table from command lines to what they print. A
    command that is not in the table fails. Nothing changes. *)
Module Script.

Import Py Proc.

Definition table : Type := list (list string * Completed).

Fixpoint same_command (a b : list string) : bool :=
  match a, b with
  | [], [] => true
  | x :: a', y :: b' => (x =? y) && same_command a' b'
  | _, _ => false
  end.

Fixpoint lookup (t : table) (cmd : list string) : Completed :=
  match t with
  | [] => mkCompleted false EmptyString
  | (c, r) :: t' => if same_command c cmd then r else lookup t' cmd
  end.

Definition run (t : table) (c : Call) (w : unit) : Completed * unit :=
  (lookup t (command c), w).

Definition prints (s : string) : Completed := mkCompleted true s.

End Script.

(** A recorded session: the commands the client is expected to run, in
    order, each with what it answered then. The world is what is left of the
    recording. A command that is not the next one of the recording fails and
    leaves the recording where it is. *)
Module Transcript.

Import Py Proc.

Definition recording : Type := list (list string * Completed).

Definition failed : Completed := mkCompleted false EmptyString.

Definition run (c : Call) (t : recording) : Completed * recording :=
  match t with
  | (cmd, r) :: rest =>
      if Script.same_command cmd (command c) then (r, rest) else (failed, t)
  | [] => (failed, [])
  end.

End Transcript.

(* ===================================================================== *)
(** * Vocabulary of the statements *)
(* ===================================================================== *)

Module Spec.

Import Py Proc Git.

(** [s.split()] with no separator: the whitespace-separated tokens of [s]. *)
Fixpoint words (s : string) : list string :=
  match s with
  | EmptyString => []
  | String c s' =>
      if is_space c then words s'
      else match s' with
           | EmptyString => [String c EmptyString]
           | String c2 _ =>
               if is_space c2 then String c EmptyString :: words s'
               else match words s' with
                    | [] => [String c EmptyString]
                    | w :: ws => String c w :: ws
                    end
           end
  end.

(** A [diff ] line is well formed when [info[2]] exists. *)
Definition header_ok (line : string) : bool :=
  negb (startswith line "diff ") ||
  match nth_error (split " " line) 2 with
  | Some _ => true
  | None => false
  end.

Definition headers_ok (diff_lines : list string) : bool :=
  forallb header_ok diff_lines.

(** The lines the translator recognises, in the order it tests them. *)
Definition classified (line : string) : bool :=
  startswith line "diff " || startswith line "index " ||
  (strip line =? "--- /dev/null") || startswith line "--- " ||
  startswith line "+++ " || startswith line "new file mode" ||
  startswith line "Binary files ".

(** The separator of an [Index:] banner. *)
Definition separator : string :=
  "===================================================================".

(** The command lines of the client. *)
Definition merge_base_cmd (c : GitClient) : Call :=
  mkCall [git c; "merge-base"; upstream_branch c; head_ref_or_HEAD c] None.

Definition contains_cmd (c : GitClient) (revision : string) : Call :=
  mkCall [git c; "branch"; "-r"; "--contains"; revision] None.

Definition find_rev_cmd (c : GitClient) (revision : string) : Call :=
  mkCall [git c; "svn"; "find-rev"; revision] None.

Definition native_diff_cmd (c : GitClient) (rev_range : string) : Call :=
  mkCall [git c; "diff"; "--no-color"; "--full-index"; "--no-ext-diff";
          "--ignore-submodules"; rev_range] None.

Definition rev_list_cmd (c : GitClient) (start_rev end_rev : string) : Call :=
  mkCall [git c; "rev-list"; "--reverse"; start_rev ++ ".." ++ end_rev] None.

Definition notes_show_cmd (c : GitClient) (commit : string) : Call :=
  mkCall [git c; "notes"; "show"; commit] None.

(** The value of [GIT_EDITOR] under which a note is edited, written out:
    a shell that runs perl over the file of the note, with a program that
    prints every line but those that mention [Reviewed-By: ] and, at the
    end of the file, prints [line]. *)
Definition edit_program (line : string) : string :=
  "sh -c " ++ dq ++ "perl -nli -e \" ++ dq
  ++ "print unless /Reviewed-By: /i; if (eof) { print; print q{"
  ++ line
  ++ "} }\" ++ dq ++ " \" ++ dq ++ "$1\" ++ dq ++ dq.

Definition notes_edit_cmd (c : GitClient) (reviewed_by commit : string)
  : Call :=
  mkCall [git c; "notes"; "edit"; commit] (Some (edit_program reviewed_by)).

(** A [git notes edit] command. *)
Definition is_notes_edit (c : Call) : bool :=
  match command c with
  | [_; a; b; _] => (a =? "notes") && (b =? "edit")
  | _ => false
  end.

(** How many of the given commands succeed when they are run one after
    the other from the world [w]. *)
Fixpoint successes {World : Type} (run : Call -> World -> Completed * World)
  (calls : list Call) (w : World) : nat :=
  match calls with
  | [] => 0
  | c :: rest =>
      let (r, w') := run c w in
      (if ok r then 1 else 0) + successes run rest w'
  end.

(** A line of a note that records the review at [review_url]. *)
Definition is_reviewed_by (review_url line : string) : bool :=
  startswith line "Reviewed-By: " && contains line review_url.

(** [line] is the first line of [lines] that records the review. *)
Definition first_reviewed_by (lines : list string) (review_url line : string)
  : Prop :=
  exists before after,
    lines = (before ++ line :: after)%list
    /\ forallb (fun l => negb (is_reviewed_by review_url l)) before = true
    /\ is_reviewed_by review_url line = true.

(** The Reviewed-By line for the people and the groups of a review, by
    cases on which of the two are given. *)
Definition reviewed_by_text (people groups : option string)
  (review_url : string) : string :=
  match truthy_opt people, truthy_opt groups with
  | true, true =>
      "Reviewed-By: " ++ or_else people EmptyString ++ " and groups:"
      ++ or_else groups EmptyString ++ " <" ++ review_url ++ ">"
  | true, false =>
      "Reviewed-By: " ++ or_else people EmptyString
      ++ " <" ++ review_url ++ ">"
  | false, true =>
      "Reviewed-By: groups:" ++ or_else groups EmptyString
      ++ " <" ++ review_url ++ ">"
  | false, false => "Reviewed-By: <" ++ review_url ++ ">"
  end.

Definition svn_diff_cmd (c : GitClient) (rev_range : string) : Call :=
  mkCall [git c; "diff"; "--no-color"; "--no-prefix"; "--no-ext-diff";
          "-r"; "-u"; rev_range] None.

(** The revision argument [make_diff] hands to [git diff]: the range
    [ancestor..commit], or [ancestor] alone when no commit is given, which
    git compares with the working tree. *)
Definition rev_range_arg (ancestor commit : string) : string :=
  if truthy commit then ancestor ++ ".." ++ commit else ancestor.

(** What the SVN bridge makes of a diff: nothing when
    [git svn find-rev] printed no revision for the ancestor, and else the
    translation of the lines of the diff with that revision. *)
Definition bridged (rev_out diff_out : string) (x : option string) : Prop :=
  (strip rev_out = EmptyString -> x = None)
  /\ (strip rev_out <> EmptyString ->
      exists final,
        svn_loop (strip rev_out) (readlines diff_out) svn_init = inr final
        /\ x = Some (diff_data final)).

(** Two client objects that differ in their options at most. *)
Definition same_but_options (a b : GitClient) : Prop :=
  git a = git b /\ type a = type b
  /\ upstream_branch a = upstream_branch b /\ head_ref a = head_ref b
  /\ merge_base a = merge_base b
  /\ rev_range_for_diff a = rev_range_for_diff b.

(** The state a later call of a method starts from: the same object and
    world, and an empty log, so that the log shows what the call runs. *)
Definition relog {World : Type} (st : State GitClient World)
  : State GitClient World :=
  mkState (self st) (world st) [].

(** The state after a command has run in it. *)
Definition after {World : Type} (st : State GitClient World) (c : Call)
  (w : World) : State GitClient World :=
  mkState (self st) w (log st ++ [c])%list.

(** The state with the client object updated. *)
Definition with_self {World : Type} (f : GitClient -> GitClient)
  (st : State GitClient World) : State GitClient World :=
  mkState (f (self st)) (world st) (log st).

End Spec.

(* ===================================================================== *)
(** * Sample inputs *)
(* ===================================================================== *)

Module Examples.

Import Py Proc Git Spec.

(** [git diff --no-prefix] of a commit that adds the file [hello.txt]. *)
Definition added_file_head : list string :=
  ["diff --git hello.txt hello.txt" ++ nl;
   "new file mode 100644" ++ nl;
   "index 0000000..ce01362" ++ nl].

Definition added_old_header : string := "--- /dev/null" ++ nl.
Definition added_new_header : string := "+++ hello.txt" ++ nl.

Definition added_file_body : list string :=
  ["@@ -0,0 +1 @@" ++ nl;
   "+hello" ++ nl].

(** [git diff --no-prefix] of a commit that changes [src/main.c]. *)
Definition changed_file_head : list string :=
  ["diff --git src/main.c src/main.c" ++ nl;
   "index 83db48f..bf269f4 100644" ++ nl].

Definition changed_old_header : string := "--- src/main.c" ++ nl.
Definition changed_new_header : string := "+++ src/main.c" ++ nl.

Definition changed_file_body : list string :=
  ["@@ -1 +1 @@" ++ nl;
   "-int x;" ++ nl;
   "+long x;" ++ nl].

Definition added_file_diff : list string :=
  (added_file_head ++ [added_old_header; added_new_header]
   ++ added_file_body)%list.

(** The header git prints for a file whose name starts with a space,
    [ notes.txt]; and a header cut short. *)
Definition spaced_header : string :=
  "diff --git  notes.txt  notes.txt" ++ nl.
Definition short_header : string := "diff README" ++ nl.

(** [git diff --no-prefix] of a commit that changes that file; git ends
    the name of a file with a tab when the name has a space. *)
Definition spaced_file_diff : list string :=
  [spaced_header;
   "index 83db48f..bf269f4 100644" ++ nl;
   "---  notes.txt" ++ tab ++ nl;
   "+++  notes.txt" ++ tab ++ nl;
   "@@ -1 +1 @@" ++ nl;
   "-draft" ++ nl;
   "+final" ++ nl].

(** Clients and scripted repositories. *)
Definition quiet : Options := mkOptions None false None false None None None.

Definition with_parent (branch : string) : Options :=
  mkOptions (Some branch) false None false None None None.

Definition start {World : Type} (c : GitClient) (w : World)
  : State GitClient World :=
  mkState c w [].

(** A git-svn checkout on the branch [topic], following [trunk]. *)
Definition svn_client : GitClient :=
  mkGitClient "git" "svn" "trunk" "refs/heads/topic" EmptyString None quiet.

Definition svn_repo : Script.table :=
  [(["git"; "svn"; "find-rev"; "trunk"], Script.prints ("1234" ++ nl))].

(** A git clone on the branch [feature], stacked on the local branch
    [topic]; the working tree has changes that are not committed. *)
Definition stacked_client : GitClient :=
  mkGitClient "git" "git" "origin/master" "refs/heads/feature" EmptyString
              None (with_parent "topic").

Definition native_diff (rev_range : string) : list string :=
  ["git"; "diff"; "--no-color"; "--full-index"; "--no-ext-diff";
   "--ignore-submodules"; rev_range].

Definition bridge_diff (rev_range : string) : list string :=
  ["git"; "diff"; "--no-color"; "--no-prefix"; "--no-ext-diff"; "-r"; "-u";
   rev_range].

Definition stacked_repo : Script.table :=
  [(["git"; "merge-base"; "origin/master"; "refs/heads/feature"],
    Script.prints ("4f2a" ++ nl));
   (native_diff "topic", Script.prints "committed and uncommitted changes");
   (native_diff "4f2a..topic", Script.prints "changes of topic");
   (native_diff "topic..refs/heads/feature",
    Script.prints "committed changes")].

(** A git clone on the branch [feature]; the commit [9c1d] is in no remote
    branch, the commit [77aa] is in [origin/master]. *)
Definition plain_client : GitClient :=
  mkGitClient "git" "git" "origin/master" "refs/heads/feature" EmptyString
              None quiet.


(** A git-svn checkout whose upstream is the local branch [base]: neither
    the merge base [b45e] nor the commit [9c1d] has an SVN revision, and
    [9c1d] is in no remote branch. *)
Definition local_svn_client : GitClient :=
  mkGitClient "git" "svn" "base" "refs/heads/topic" EmptyString None quiet.

Definition local_svn_repo : Script.table :=
  [(["git"; "merge-base"; "base"; "refs/heads/topic"],
    Script.prints ("b45e" ++ nl));
   (["git"; "branch"; "-r"; "--contains"; "9c1d"], Script.prints EmptyString);
   (bridge_diff "b45e..9c1d",
    Script.prints ("diff --git a.txt a.txt" ++ nl));
   (["git"; "svn"; "find-rev"; "b45e"], Script.prints EmptyString);
   (bridge_diff "9c1d", Script.prints ("diff --git a.txt a.txt" ++ nl));
   (["git"; "svn"; "find-rev"; "9c1d"], Script.prints EmptyString)].

(** A git-svn checkout on the branch [feature], stacked on the local
    branch [topic], which has the SVN revision 567; the merge base [b45e]
    of [base] and [feature] has no SVN revision. *)
Definition stacked_svn_client : GitClient :=
  mkGitClient "git" "svn" "base" "refs/heads/feature" EmptyString None
              (with_parent "topic").

Definition stacked_svn_repo : Script.table :=
  [(["git"; "merge-base"; "base"; "refs/heads/feature"],
    Script.prints ("b45e" ++ nl));
   (bridge_diff "topic", Script.prints ("diff --git a.txt a.txt" ++ nl));
   (["git"; "svn"; "find-rev"; "topic"], Script.prints ("567" ++ nl));
   (bridge_diff "b45e..topic",
    Script.prints ("diff --git b.txt b.txt" ++ nl));
   (["git"; "svn"; "find-rev"; "b45e"], Script.prints EmptyString)].

(** A clone whose last diff covered the commits [c1] and [c2], neither of
    which has a note yet, and a review posted for alice and the group
    core. *)
Definition annotating_client : GitClient :=
  mkGitClient "git" "git" "origin/master" "refs/heads/feature" "4f2a"
              (Some ("4f2a", "HEAD")) quiet.

Definition reviewers : Options :=
  mkOptions None false None false None (Some "alice") (Some "core").

Definition review_url : string := "http://reviews.example.com/r/42/".

Definition reviewed_by_line : string :=
  "Reviewed-By: alice and groups:core <http://reviews.example.com/r/42/>".

(** What the commands answer while the annotator runs twice on that clone.
    The first run finds no note on [c1] and edits both notes. By the second
    run the note of [c1] shows the line of the first. *)
Definition rev_list_answer : string := "c1" ++ nl ++ "c2" ++ nl.

Definition first_session : Transcript.recording :=
  [(["git"; "rev-list"; "--reverse"; "4f2a..HEAD"],
    Script.prints rev_list_answer);
   (["git"; "notes"; "show"; "c1"],
    mkCompleted false ("error: No note found for object c1." ++ nl));
   (["git"; "notes"; "edit"; "c1"], Script.prints EmptyString);
   (["git"; "notes"; "edit"; "c2"], Script.prints EmptyString)].

Definition second_session : Transcript.recording :=
  [(["git"; "rev-list"; "--reverse"; "4f2a..HEAD"],
    Script.prints rev_list_answer);
   (["git"; "notes"; "show"; "c1"], Script.prints (reviewed_by_line ++ nl));
   (["git"; "notes"; "edit"; "c2"], Script.prints EmptyString)].

Definition both_sessions : Transcript.recording :=
  (first_session ++ second_session)%list.

(** The same two runs, but the edit of the second run fails. *)
Definition failing_second_session : Transcript.recording :=
  [(["git"; "rev-list"; "--reverse"; "4f2a..HEAD"],
    Script.prints rev_list_answer);
   (["git"; "notes"; "show"; "c1"], Script.prints (reviewed_by_line ++ nl));
   (["git"; "notes"; "edit"; "c2"],
    mkCompleted false ("fatal: could not write the note" ++ nl))].

Definition both_sessions_failing : Transcript.recording :=
  (first_session ++ failing_second_session)%list.

(** The state the first run of the annotator leaves. *)
Definition after_first_run : State GitClient Transcript.recording :=
  mkState annotating_client second_session
    [mkCall ["git"; "rev-list"; "--reverse"; "4f2a..HEAD"] None;
     mkCall ["git"; "notes"; "show"; "c1"] None;
     mkCall ["git"; "notes"; "edit"; "c1"]
       (Some (edit_program reviewed_by_line));
     mkCall ["git"; "notes"; "edit"; "c2"]
       (Some (edit_program reviewed_by_line))].

Definition after_first_run_failing : State GitClient Transcript.recording :=
  mkState annotating_client failing_second_session (log after_first_run).

(** A range whose oldest commit was annotated for the same review by
    someone else: its note has a remark and the line for bob. *)
Definition line_of_bob : string :=
  "Reviewed-By: bob <http://reviews.example.com/r/42/>".

Definition note_of_c1 : string :=
  "Tested on trunk" ++ nl ++ line_of_bob ++ nl.

Definition annotated_session : Transcript.recording :=
  [(["git"; "rev-list"; "--reverse"; "4f2a..HEAD"],
    Script.prints rev_list_answer);
   (["git"; "notes"; "show"; "c1"], Script.prints note_of_c1);
   (["git"; "notes"; "edit"; "c2"], Script.prints EmptyString)].

End Examples.

(* ===================================================================== *)
(** * Further vocabulary *)
(* ===================================================================== *)

Module MoreSpec.

Import Py Proc Git Spec.

(** The lines of a text put together again. *)
Fixpoint join_all (ls : list string) : string :=
  match ls with
  | [] => EmptyString
  | l :: ls' => l ++ join_all ls'
  end.

(** A line the translator copies: one of no recognised kind. *)
Definition plain_line (line : string) : bool := negb (classified line).

(** The command lines of [_set_guesses]. *)
Definition first_commit_cmd (c : GitClient) (start_rev : string) : Call :=
  mkCall [git c; "rev-list"; "--reverse"; "--parents"; "^" ++ start_rev;
          head_ref c] None.

Definition subject_cmd (c : GitClient) (first_commit : string) : Call :=
  mkCall [git c; "log"; "--no-merges"; "--pretty=format:%s"; first_commit;
          "^" ++ first_commit ++ "^"] None.

Definition description_cmd (c : GitClient) (start_rev end_rev : string)
  : Call :=
  mkCall [git c; "log"; "--reverse"; "--pretty=format:%s%n%n%b";
          start_rev ++ ".." ++ end_rev] None.

(** Whether a text is still to be guessed: the flag is set and no text is
    given. *)
Definition to_guess (flag : bool) (text : option string) : bool :=
  flag && negb (truthy_opt text).

End MoreSpec.

(* ===================================================================== *)
(** * Further sample inputs *)
(* ===================================================================== *)

Module MoreExamples.

Import Py Proc Git Spec MoreSpec Examples.

(** A clone on the branch [feature] with nothing but an upstream. *)
Definition simple_repo : Script.table :=
  [(["git"; "merge-base"; "origin/master"; "refs/heads/feature"],
    Script.prints ("4f2a" ++ nl));
   (native_diff "4f2a..refs/heads/feature",
    Script.prints "changes of the branch")].

(** A clone with a detached head: [git symbolic-ref] gave no name, and the
    client has no head ref. *)
Definition detached_client : GitClient :=
  mkGitClient "git" "git" "origin/master" EmptyString EmptyString None quiet.

Definition detached_repo : Script.table :=
  [(["git"; "merge-base"; "origin/master"; "HEAD"],
    Script.prints ("4f2a" ++ nl));
   (native_diff "4f2a..HEAD", Script.prints "changes of the detached head")].

(** The same clone, asked for the changes from [77aa], which is in
    [origin/master], to [9c1d]. *)
Definition double_repo : Script.table :=
  [(["git"; "merge-base"; "origin/master"; "refs/heads/feature"],
    Script.prints ("4f2a" ++ nl));
   (["git"; "branch"; "-r"; "--contains"; "77aa"],
    Script.prints ("  origin/master" ++ nl));
   (native_diff "77aa..9c1d", Script.prints "changes from 77aa to 9c1d")].

(** A client that is to guess its summary, and a repository whose first
    commit of the range has a two-line subject. *)
Definition guessing : Options :=
  mkOptions None true None false None None None.

Definition guessing_client : GitClient :=
  mkGitClient "git" "git" "origin/master" "refs/heads/feature" "4f2a"
              None guessing.

Definition guessing_repo : Script.table :=
  [(["git"; "rev-list"; "--reverse"; "--parents"; "^4f2a";
     "refs/heads/feature"],
    Script.prints ("9c1d 4f2a" ++ nl ++ "77aa 9c1d" ++ nl));
   (["git"; "log"; "--no-merges"; "--pretty=format:%s"; "9c1d"; "^9c1d^"],
    Script.prints ("Fix the parser" ++ nl ++ "and its tests" ++ nl))].

(** The state [diff] leaves in the stacked clone of [Examples]. *)
Definition after_stacked_diff : State GitClient unit :=
  match diff (Script.run stacked_repo) (start stacked_client tt) with
  | Done (_, st) => st
  | _ => start stacked_client tt
  end.

End MoreExamples.


(* ===================================================================== *)
(** * Further Python strings and regular expressions *)
(* ===================================================================== *)

Module PyMore.

Import Py.

(** [s.rstrip(chars)]: [s] without the characters that satisfy [p] at its
    end. *)
Fixpoint rstrip_with (p : ascii -> bool) (s : string) : string :=
  match s with
  | EmptyString => EmptyString
  | String c s' =>
      match rstrip_with p s' with
      | EmptyString => if p c then EmptyString else String c EmptyString
      | r => String c r
      end
  end.

(** [s.rstrip("\n")] and [s.rstrip('/')] *)
Definition rstrip_newlines : string -> string :=
  rstrip_with (fun c => (c =? LF)%char).

Definition rstrip_slashes : string -> string :=
  rstrip_with (fun c => (c =? "/")%char).

(** [s.split(sep)[0]] and [s.split(sep)[-1]] *)
Definition first_field (sep : ascii) (s : string) : string :=
  hd EmptyString (split sep s).

Definition last_field (sep : ascii) (s : string) : string :=
  last (split sep s) EmptyString.

(** [\d] of a byte-string pattern, and [int(s)] for a string of digits. *)
Definition is_digit (c : ascii) : bool :=
  let n := nat_of_ascii c in (48 <=? n)%nat && (n <=? 57)%nat.

Fixpoint int_from (acc : Z) (s : string) : Z :=
  match s with
  | EmptyString => acc
  | String c s' => int_from (10 * acc + Z.of_nat (nat_of_ascii c - 48)) s'
  end.

Definition int_of_digits : string -> Z := int_from 0.

(** The longest prefix of characters that satisfy [p], and the rest. *)
Fixpoint span (p : ascii -> bool) (s : string) : string * string :=
  match s with
  | EmptyString => (EmptyString, EmptyString)
  | String c s' =>
      if p c then let (a, b) := span p s' in (String c a, b)
      else (EmptyString, s)
  end.

(** The text up to the end of its line. *)
Definition to_end_of_line (s : string) : string :=
  fst (span (fun c => negb (c =? LF)%char) s).

(** [re.search] with [re.M] of a pattern that begins with [^]: the pattern
    is tried at the start of the text and after every newline, first match
    first. [try] is given the text from that point on. *)
Fixpoint search_line_starts {A} (try : string -> option A) (at_start : bool)
  (s : string) : option A :=
  match (if at_start then try s else None) with
  | Some a => Some a
  | None =>
      match s with
      | EmptyString => None
      | String c s' => search_line_starts try (c =? LF)%char s'
      end
  end.

(** [re.search] of a pattern with no anchor: tried at every position. *)
Fixpoint search_anywhere {A} (try : string -> option A) (s : string)
  : option A :=
  match try s with
  | Some a => Some a
  | None =>
      match s with
      | EmptyString => None
      | String _ s' => search_anywhere try s'
      end
  end.

(** [s] without the literal [lit] at its start. *)
Fixpoint after_literal (lit s : string) : option string :=
  match lit with
  | EmptyString => Some s
  | String a lit' =>
      match s with
      | EmptyString => None
      | String b s' => if (a =? b)%char then after_literal lit' s' else None
      end
  end.

(** [(.+)$] under [re.M]: the rest of the line, which must not be empty. *)
Definition rest_of_line (s : string) : option string :=
  match to_end_of_line s with
  | EmptyString => None
  | g => Some g
  end.

(** [re.search(r'^<label>(.+)$', data, re.M)]: group 1 of the first
    match. *)
Definition search_labelled (label data : string) : option string :=
  search_line_starts
    (fun s => match after_literal label s with
              | Some r => rest_of_line r
              | None => None
              end) true data.

(** The last character of [ws] that is not a newline. *)
Fixpoint last_on_line (ws : string) : option ascii :=
  match ws with
  | EmptyString => None
  | String c ws' =>
      match last_on_line ws' with
      | Some d => Some d
      | None => if (c =? LF)%char then None else Some c
      end
  end.

(** [\s*(.+)$] under [re.M]: the blanks, newlines among them, are skipped
    and the group is the rest of the line reached. When the text ends in
    blanks only, the expression gives blanks back until the group can take
    one character: the last blank that is not a newline. *)
Definition after_blanks (s : string) : option string :=
  let (ws, tail) := span is_space s in
  match tail with
  | String _ _ => rest_of_line tail
  | EmptyString =>
      match last_on_line ws with
      | Some c => Some (String c EmptyString)
      | None => None
      end
  end.

(** [re.search(r'^Remote Branch:\s*(.+)$', data, re.M)]: group 1. *)
Definition search_remote_branch (data : string) : option string :=
  search_line_starts
    (fun s => match after_literal "Remote Branch:" s with
              | Some r => after_blanks r
              | None => None
              end) true data.

(** [(\d+)]: the digits at the start of [s], at least one, and the rest. *)
Definition digits (s : string) : option (string * string) :=
  match span is_digit s with
  | (EmptyString, _) => None
  | (d, r) => Some (d, r)
  end.

(** [re.search('version (\d+)\.(\d+)\.(\d+)', version)]: the three
    groups. *)
Definition search_version (version : string)
  : option (string * string * string) :=
  search_anywhere
    (fun s =>
       match after_literal "version " s with
       | None => None
       | Some r0 =>
           match digits r0 with
           | None => None
           | Some (d1, r1) =>
               match after_literal "." r1 with
               | None => None
               | Some r2 =>
                   match digits r2 with
                   | None => None
                   | Some (d2, r3) =>
                       match after_literal "." r3 with
                       | None => None
                       | Some r4 =>
                           match digits r4 with
                           | None => None
                           | Some (d3, _) => Some (d1, d2, d3)
                           end
                       end
                   end
               end
           end
       end) version.

End PyMore.

(* ===================================================================== *)
(** * Finding the repository *)
(* ===================================================================== *)

Module Detect.

Import Py PyMore Proc Git.
Local Open Scope proc_scope.

(** [_strip_heads_prefix(self, ref)]: [re.sub(r'^refs/heads/', '', ref)];
    without [re.M] the expression matches at the start of the text only. *)
Definition _strip_heads_prefix (ref : string) : string :=
  if startswith ref "refs/heads/" then slice_from 11 ref else ref.

(** The client object while the repository is looked for: the attributes
    of [GitClient], and beside them the attribute and the two options that
    only these methods use. *)
Record Session : Type := mkSession {
  client : GitClient;
  bare : bool;
  repository_url : option string;
  tracking : option string
}.

Definition on_client (f : GitClient -> GitClient) (s : Session) : Session :=
  mkSession (f (client s)) (bare s) (repository_url s) (tracking s).

Definition set_bare (b : bool) (s : Session) : Session :=
  mkSession (client s) b (repository_url s) (tracking s).

Definition set_git (g : string) (c : GitClient) : GitClient :=
  mkGitClient g (type c) (upstream_branch c) (head_ref c)
              (merge_base c) (rev_range_for_diff c) (options c).

Definition set_type (t : string) (c : GitClient) : GitClient :=
  mkGitClient (git c) t (upstream_branch c) (head_ref c)
              (merge_base c) (rev_range_for_diff c) (options c).

Definition set_upstream_branch (u : string) (c : GitClient) : GitClient :=
  mkGitClient (git c) (type c) u (head_ref c)
              (merge_base c) (rev_range_for_diff c) (options c).

Definition set_head_ref (h : string) (c : GitClient) : GitClient :=
  mkGitClient (git c) (type c) (upstream_branch c) h
              (merge_base c) (rev_range_for_diff c) (options c).

(** What [get_repository_info] builds: [RepositoryInfo(path, base_path,
    supports_parent_diffs, supports_updating_commits)] or
    [SVNRepositoryInfo(path, base_path, uuid, supports_parent_diffs)]. *)
Inductive repository_info : Type :=
| RepositoryInfo (path : repo_path) (base_path : string)
    (supports_parent_diffs supports_updating_commits : bool)
| SVNRepositoryInfo (path base_path uuid : string)
    (supports_parent_diffs : bool).

(** How [get_repository_info] ends when it does not end the process: it
    returns the information or [None], or the [OSError] of [os.chdir] or
    [os.listdir] escapes. *)
Inductive detected : Type :=
| Returned (info : option repository_info)
| EscapedOSError.

(** How the search for git-svn ends: with the information, with nothing
    (the search for a plain git repository follows), or with an
    [OSError]. *)
Inductive svn_search : Type :=
| SvnFound (info : repository_info)
| NotSvn
| SvnOSError.

Section Methods.

Context {World : Type}.

(** The operating system and the helpers of other modules, as the client
    asks them: [sys.platform]; [check_install] of rbtools.utils.checks,
    whether a command can be started; [os.path.isdir]; [os.listdir], [None]
    when it raises; [os.path.abspath]; [os.path.join]; [os.chdir], [None]
    when it raises; [scan_for_server] of the base class, which reads the
    configuration files; and [SVNClient().scan_for_server_property]. *)
Record System : Type := mkSystem {
  platform : string;
  check_install : string -> World -> bool;
  isdir : string -> World -> bool;
  listdir : string -> World -> option (list string);
  abspath : string -> World -> string;
  path_join : string -> string -> string;
  chdir : string -> World -> option World;
  base_scan_for_server : repository_info -> World -> option string * World;
  svn_scan_for_server_property :
    repository_info -> World -> option string * World
}.

Variable run : Call -> World -> Completed * World.
Variable os : System.

Definition Look : Type -> Type := M Session World.

(** A question to the system that changes nothing. *)
Definition ask {A} (f : World -> A) : Look A :=
  fun st => Done (f (world st), st).

(** A call of a helper that may change the world. *)
Definition call {A} (f : World -> A * World) : Look A :=
  fun st => let (a, w) := f (world st) in
            Done (a, mkState (self st) w (log st)).

(** [os.chdir(path)]: whether it went through. *)
Definition os_chdir (path : string) : Look bool :=
  fun st => match chdir os path (world st) with
            | Some w => Done (true, mkState (self st) w (log st))
            | None => Done (false, st)
            end.

(** [get_origin(self, default_upstream_branch=None, ignore_errors=False)];
    the second argument is not used. *)
Definition get_origin (default_upstream_branch : option string)
  (ignore_errors : bool) : Look (string * string) :=
  self <- get_self;;
  let upstream_branch :=
    or_else (tracking self)
            (or_else default_upstream_branch "origin/master") in
  let upstream_remote := first_field "/" upstream_branch in
  origin_url <- execute run [git (client self); "config"; "--get";
                             "remote." ++ upstream_remote ++ ".url"] true;;
  ret (upstream_branch, rstrip_newlines origin_url).

(** [scan_for_server(self, repository_info)] *)
Definition scan_for_server (info : repository_info) : Look (option string) :=
  server_url <- call (base_scan_for_server os info);;
  if truthy_opt server_url then ret server_url
  else
    self <- get_self;;
    out <- execute run [git (client self); "config"; "--get";
                        "reviewboard.url"] true;;
    let url := strip out in
    if truthy url then ret (Some url)
    else if type (client self) =? "svn" then
      prop <- call (svn_scan_for_server_property os info);;
      if truthy_opt prop then ret prop else ret None
    else ret None.

(** [get_repository_info], first part: is there a git to run? On Windows
    [git.cmd] is tried when [git] cannot be started. *)
Definition find_git : Look bool :=
  installed <- ask (check_install os "git --help");;
  if negb installed then
    cmd <- ask (fun w => startswith (platform os) "win"
                         && check_install os "git.cmd --help" w);;
    if cmd then modify_self (on_client (set_git "git.cmd"));;; ret true
    else ret false
  else ret true.

(** [get_repository_info]: is the repository bare? If not, go to the top
    of the work tree. The result is [false] when [os.chdir] raises. *)
Definition enter_work_tree (git_dir : string) : Look bool :=
  self <- get_self;;
  out <- execute run [git (client self); "config"; "core.bare"] false;;
  modify_self (set_bare (strip out =? "true"));;;
  if negb (strip out =? "true") then
    top <- execute run [git (client self); "rev-parse"; "--show-toplevel"]
             true;;
    let git_top := rstrip_newlines top in
    dir_ok <- ask (isdir os git_dir);;
    let git_top :=
      if startswith git_top "fatal:" || negb dir_ok then git_dir
      else git_top in
    path <- ask (abspath os git_top);;
    os_chdir path
  else ret true.

(** [get_repository_info]: the tracking branch of a git-svn checkout. *)
Definition svn_tracking_branch : Look unit :=
  self <- get_self;;
  if truthy_opt (parent_branch (options (client self))) then
    modify_self (on_client (set_upstream_branch
                   (or_else (parent_branch (options (client self)))
                            EmptyString)))
  else
    data <- execute run [git (client self); "svn"; "rebase"; "-n"] true;;
    match search_remote_branch data with
    | Some branch => modify_self (on_client (set_upstream_branch branch))
    | None => modify_self (on_client (set_upstream_branch "master"))
    end.

(** [get_repository_info]: the search for a git-svn checkout. *)
Definition detect_svn (git_dir : string) : Look svn_search :=
  self <- get_self;;
  let git_svn_dir := path_join os git_dir "svn" in
  if truthy_opt (repository_url self) then ret NotSvn
  else
    is_dir <- ask (isdir os git_svn_dir);;
    if negb is_dir then ret NotSvn
    else
      entries <- ask (listdir os git_svn_dir);;
      match entries with
      | None => ret SvnOSError
      | Some [] => ret NotSvn
      | Some (_ :: _) =>
          data <- execute run [git (client self); "svn"; "info"] true;;
          match search_labelled "Repository Root: " data with
          | Some path =>
              match search_labelled "URL: " data with
              | Some url =>
                  let base_path :=
                    if truthy (slice_from (String.length path) url)
                    then slice_from (String.length path) url else "/" in
                  match search_labelled "Repository UUID: " data with
                  | Some uuid =>
                      modify_self (on_client (set_type "svn"));;;
                      svn_tracking_branch;;;
                      ret (SvnFound
                             (SVNRepositoryInfo path base_path uuid true))
                  | None => ret NotSvn
                  end
              | None => ret NotSvn
              end
          | None =>
              version <- execute run [git (client self); "svn"; "--version"]
                           true;;
              svn_remote <- execute run [git (client self); "config";
                                         "--get"; "svn-remote.svn.url"]
                              true;;
              match search_version version with
              | Some (major, minor, micro) =>
                  if negb (is_valid_version
                             (int_of_digits major, int_of_digits minor,
                              int_of_digits micro) (1, 5, 4)%Z)
                     && truthy svn_remote
                  then die
                  else ret NotSvn
              | None => ret NotSvn
              end
          end
      end.

(** [get_repository_info]: the tracking branch of a plain git clone. *)
Definition detect_tracking_branch : Look unit :=
  modify_self (on_client (set_upstream_branch EmptyString));;;
  self <- get_self;;
  if truthy (head_ref (client self)) then
    let short_head := _strip_heads_prefix (head_ref (client self)) in
    merge <- execute run [git (client self); "config"; "--get";
                          "branch." ++ short_head ++ ".merge"] true;;
    remote <- execute run [git (client self); "config"; "--get";
                           "branch." ++ short_head ++ ".remote"] true;;
    let remote := strip remote in
    let merge := _strip_heads_prefix (strip merge) in
    if truthy remote && negb (remote =? ".") && truthy merge
    then modify_self (on_client (set_upstream_branch
                                   (remote ++ "/" ++ merge)))
    else ret tt
  else ret tt.

(** [get_repository_info]: the url of the repository. *)
Definition detect_url (git_dir : string) : Look string :=
  self <- get_self;;
  if truthy_opt (repository_url self) then
    origin <- get_origin (Some (upstream_branch (client self))) true;;
    modify_self (on_client (set_upstream_branch (fst origin)));;;
    ret (or_else (repository_url self) EmptyString)
  else
    origin <- get_origin (Some (upstream_branch (client self))) true;;
    modify_self (on_client (set_upstream_branch (fst origin)));;;
    origin <-
      (if negb (truthy (snd origin)) || startswith (snd origin) "fatal:"
       then
         again <- get_origin None false;;
         modify_self (on_client (set_upstream_branch (fst again)));;;
         ret again
       else ret origin);;
    let url := rstrip_slashes (snd origin) in
    if negb (truthy url) then
      path <- ask (abspath os git_dir);;
      self <- get_self;;
      modify_self (on_client (set_upstream_branch
                     (last_field "/" (upstream_branch (client self)))));;;
      ret path
    else ret url.

(** [get_repository_info]: the plain git clone. *)
Definition detect_native (git_dir : string) : Look (option repository_info) :=
  detect_tracking_branch;;;
  url <- detect_url git_dir;;
  if truthy url then
    modify_self (on_client (set_type "git"));;;
    ret (Some (RepositoryInfo (_github_paths url) EmptyString true true))
  else ret None.

(** [get_repository_info(self)] *)
Definition get_repository_info : Look detected :=
  found <- find_git;;
  if negb found then ret (Returned None)
  else
    self <- get_self;;
    out <- execute run [git (client self); "rev-parse"; "--git-dir"] true;;
    let git_dir := rstrip_newlines out in
    dir_ok <- ask (isdir os git_dir);;
    if startswith git_dir "fatal:" || negb dir_ok then ret (Returned None)
    else
      entered <- enter_work_tree git_dir;;
      if negb entered then ret EscapedOSError
      else
        self <- get_self;;
        head <- execute run [git (client self); "symbolic-ref"; "-q"; "HEAD"]
                  true;;
        modify_self (on_client (set_head_ref (strip head)));;;
        svn <- detect_svn git_dir;;
        match svn with
        | SvnFound info => ret (Returned (Some info))
        | SvnOSError => ret EscapedOSError
        | NotSvn =>
            info <- detect_native git_dir;;
            ret (Returned info)
        end.

End Methods.

End Detect.

(* ===================================================================== *)
(** * Vocabulary for the search *)
(* ===================================================================== *)

Module DetectSpec.

Import Py PyMore Proc Git Detect.

(** The command lines of the search, for the program name [g]. *)
Definition git_dir_cmd (g : string) : Call :=
  mkCall [g; "rev-parse"; "--git-dir"] None.

Definition origin_url_cmd (g remote : string) : Call :=
  mkCall [g; "config"; "--get"; "remote." ++ remote ++ ".url"] None.

Definition server_url_cmd (g : string) : Call :=
  mkCall [g; "config"; "--get"; "reviewboard.url"] None.

Definition branch_merge_cmd (g branch : string) : Call :=
  mkCall [g; "config"; "--get"; "branch." ++ branch ++ ".merge"] None.

Definition branch_remote_cmd (g branch : string) : Call :=
  mkCall [g; "config"; "--get"; "branch." ++ branch ++ ".remote"] None.

(** A command of the program [g], with the environment left alone. *)
Definition by_git (g : string) (c : Call) : bool :=
  match command c, git_editor c with
  | x :: _, None => x =? g
  | _, _ => false
  end.

(** A [git svn] command. *)
Definition is_git_svn (c : Call) : bool :=
  match command c with
  | _ :: x :: _ => x =? "svn"
  | _ => false
  end.

(** A command of [g] other than [git svn]. *)
Definition plain_git (g : string) (c : Call) : bool :=
  by_git g c && negb (is_git_svn c).

Section States.

Context {World : Type}.

(** The log of [st'] is the log of [st] and then commands that satisfy
    [p]. *)
Definition grows (p : Call -> bool) (st st' : State Session World) : Prop :=
  exists new, log st' = (log st ++ new)%list /\ forallb p new = true.

(** What the search leaves alone once it knows its git: the program name
    and the options. *)
Definition same_settings (s s' : Session) : Prop :=
  git (client s') = git (client s)
  /\ options (client s') = options (client s)
  /\ repository_url s' = repository_url s
  /\ tracking s' = tracking s.

(** A step from [st] to [st'] that keeps the settings and runs commands
    that satisfy [p] of the program name only. *)
Definition frame (p : string -> Call -> bool) (st st' : State Session World)
  : Prop :=
  same_settings (self st) (self st')
  /\ grows (p (git (client (self st)))) st st'.

(** [Q] holds of the result and the state whenever [m] returns from
    [st]. *)
Definition on_return {A} (m : M Session World A) (st : State Session World)
  (Q : A -> State Session World -> Prop) : Prop :=
  match m st with
  | Done (a, st') => Q a st'
  | Exit => True
  | Raised _ => True
  end.

(** [m] returns from [st], and [Q] holds of the result and the state. *)
Definition returns {A} (m : M Session World A) (st : State Session World)
  (Q : A -> State Session World -> Prop) : Prop :=
  exists a st', m st = Done (a, st') /\ Q a st'.

(** A command that prints [out] whenever it is run, and one that succeeds
    whenever it is run. *)
Definition prints (run : Call -> World -> Completed * World) (c : Call)
  (out : string) : Prop :=
  forall w, data (fst (run c w)) = out.

Definition succeeds (run : Call -> World -> Completed * World) (c : Call)
  : Prop :=
  forall w, ok (fst (run c w)) = true.

End States.

(** The tracking branch as the configuration of the current branch gives
    it: none, or [remote/merge] of a remote that is not the repository
    itself. *)
Definition tracked (u : string) : Prop :=
  u = EmptyString
  \/ exists remote merge,
       u = remote ++ "/" ++ merge /\ truthy remote = true
       /\ remote <> "." /\ truthy merge = true.

(** The upstream branch [u] that the search for the url leaves, for the
    option [--tracking] and the tracking branch [b0] found before: the
    first of the option, [b0] and [origin/master] that is given, or the
    same without [b0]; and maybe only what follows its last slash. *)
Definition upstream_of (option : option string) (b0 u : string) : Prop :=
  exists b,
    (b = or_else option (or_else (Some b0) "origin/master")
     \/ b = or_else option "origin/master")
    /\ (u = b \/ u = last_field "/" b).

(** The information about a plain git clone at [url]. *)
Definition git_info (url : string) : repository_info :=
  RepositoryInfo (_github_paths url) EmptyString true true.

(** The client object and the information it returned agree. *)
Definition agrees (info : repository_info) (s : Session) : Prop :=
  match info with
  | RepositoryInfo p base parent_diffs updating =>
      type (client s) = "git" /\ base = EmptyString
      /\ parent_diffs = true /\ updating = true
      /\ exists url, truthy url = true /\ p = _github_paths url
  | SVNRepositoryInfo p base uuid parent_diffs =>
      type (client s) = "svn" /\ truthy p = true /\ truthy base = true
      /\ truthy uuid = true /\ parent_diffs = true
      /\ truthy (upstream_branch (client s)) = true
      /\ truthy_opt (repository_url s) = false
  end.

End DetectSpec.

(* ===================================================================== *)
(** * Sample repositories for the search *)
(* ===================================================================== *)

Module DetectExamples.

Import Py PyMore Proc Git Detect DetectSpec Examples.

(** A POSIX system with the given directories, where every program can be
    started; [.git/svn] holds one entry when it is there. Nothing is found
    in the configuration files or in the SVN properties. *)
Definition posix (dirs : list string) : @System unit :=
  mkSystem "linux2"
    (fun _ _ => true)
    (fun p _ => existsb (String.eqb p) dirs)
    (fun p _ => if existsb (String.eqb p) dirs then Some [".metadata"]
                else None)
    (fun p _ => "/home/user/project/" ++ p)
    (fun a b => a ++ "/" ++ b)
    (fun _ w => Some w)
    (fun _ w => (None, w))
    (fun _ w => (None, w)).

(** The same system without any git. *)
Definition no_git : @System unit :=
  mkSystem "linux2"
    (fun _ _ => false)
    (fun p _ => false)
    (fun p _ => None)
    (fun p _ => "/home/user/" ++ p)
    (fun a b => a ++ "/" ++ b)
    (fun _ w => Some w)
    (fun _ w => (None, w))
    (fun _ w => (None, w)).

(** A client object as [__init__] leaves it, with the given options. *)
Definition fresh (url tracking : option string) : Session :=
  mkSession (mkGitClient "git" EmptyString EmptyString EmptyString
                         EmptyString None quiet)
            false url tracking.

Definition begin (s : Session) : State Session unit := mkState s tt [].

(** A clone of a github repository on the branch [feature], which follows
    [master] of [origin]. *)
Definition clone : Script.table :=
  [(["git"; "rev-parse"; "--git-dir"], Script.prints (".git" ++ nl));
   (["git"; "config"; "core.bare"], Script.prints ("false" ++ nl));
   (["git"; "rev-parse"; "--show-toplevel"],
    Script.prints ("/home/user/project" ++ nl));
   (["git"; "symbolic-ref"; "-q"; "HEAD"],
    Script.prints ("refs/heads/feature" ++ nl));
   (["git"; "config"; "--get"; "branch.feature.merge"],
    Script.prints ("refs/heads/master" ++ nl));
   (["git"; "config"; "--get"; "branch.feature.remote"],
    Script.prints ("origin" ++ nl));
   (["git"; "config"; "--get"; "remote.origin.url"],
    Script.prints ("git@github.com:Khan/rbtools.git" ++ nl));
   (["git"; "config"; "--get"; "remote.backup.url"],
    Script.prints ("ssh://backup.example.com/rbtools/" ++ nl))].

(** A git-svn checkout of the trunk of a Subversion repository. *)
Definition svn_info_text : string :=
  "Path: ." ++ nl ++
  "URL: http://svn.example.com/repo/trunk" ++ nl ++
  "Repository Root: http://svn.example.com/repo" ++ nl ++
  "Repository UUID: 5c1a3e0e-1111-2222-3333-444455556666" ++ nl ++
  "Revision: 1234" ++ nl.

Definition svn_checkout : Script.table :=
  [(["git"; "rev-parse"; "--git-dir"], Script.prints (".git" ++ nl));
   (["git"; "config"; "core.bare"], Script.prints ("false" ++ nl));
   (["git"; "rev-parse"; "--show-toplevel"],
    Script.prints ("/home/user/project" ++ nl));
   (["git"; "symbolic-ref"; "-q"; "HEAD"],
    Script.prints ("refs/heads/topic" ++ nl));
   (["git"; "svn"; "info"], Script.prints svn_info_text);
   (["git"; "svn"; "rebase"; "-n"],
    Script.prints ("Remote Branch: refs/remotes/trunk" ++ nl ++
                   "SVN URL: http://svn.example.com/repo/trunk" ++ nl));
   (["git"; "config"; "--get"; "remote.origin.url"],
    Script.prints ("git://github.com/Khan/mirror" ++ nl))].

(** The search in a scripted repository, from a client object with an
    empty log, and the state it ends in. *)
Definition search (t : Script.table) (os : @System unit) (s : Session)
  : outcome (detected * State Session unit) :=
  get_repository_info (Script.run t) os (begin s).

Definition after_search (t : Script.table) (os : @System unit) (s : Session)
  : State Session unit :=
  match search t os s with
  | Done (_, st') => st'
  | _ => begin s
  end.


(** A clone on the branch [feature], which follows [develop] of the remote
    [upstream]; the url of the remote ends in a slash. *)
Definition fork : Script.table :=
  [(["git"; "rev-parse"; "--git-dir"], Script.prints (".git" ++ nl));
   (["git"; "config"; "core.bare"], Script.prints ("false" ++ nl));
   (["git"; "rev-parse"; "--show-toplevel"],
    Script.prints ("/home/user/project" ++ nl));
   (["git"; "symbolic-ref"; "-q"; "HEAD"],
    Script.prints ("refs/heads/feature" ++ nl));
   (["git"; "config"; "--get"; "branch.feature.merge"],
    Script.prints ("refs/heads/develop" ++ nl));
   (["git"; "config"; "--get"; "branch.feature.remote"],
    Script.prints ("upstream" ++ nl));
   (["git"; "config"; "--get"; "remote.upstream.url"],
    Script.prints ("https://example.com/team/project.git/" ++ nl))].

(** The states the searches of these repositories end in. *)
Definition clone_found : State Session unit :=
  after_search clone (posix [".git"]) (fresh None None).


Definition mirror_url : string := "git://github.com/Khan/mirror".

Definition mirror_found : State Session unit :=
  after_search svn_checkout (posix [".git"; ".git/svn"])
    (fresh (Some mirror_url) None).


End DetectExamples.

(* ===================================================================== *)
(** * Facts about the string operations *)
(* ===================================================================== *)

Module PyFacts.

Import Py.

Lemma append_assoc (a b c : string) : (a ++ b) ++ c = a ++ (b ++ c).
Proof.
  induction a as [|x a IH]; simpl; [reflexivity | now rewrite IH].
Qed.

Lemma append_nil_r (a : string) : a ++ EmptyString = a.
Proof.
  induction a as [|x a IH]; simpl; [reflexivity | now rewrite IH].
Qed.

Lemma startswith_append (p r : string) : startswith (p ++ r) p = true.
Proof.
  induction p as [|a p IH]; simpl; [reflexivity|].
  now rewrite Ascii.eqb_refl, IH.
Qed.

Lemma startswith_inv (p s : string) :
  startswith s p = true -> exists r, s = p ++ r.
Proof.
  revert s; induction p as [|a p IH]; intros s H; simpl in *.
  - now exists s.
  - destruct s as [|b s]; [discriminate|].
    apply andb_true_iff in H as [Hab Hs].
    apply Ascii.eqb_eq in Hab; subst b.
    destruct (IH _ Hs) as [r ->]. now exists r.
Qed.

Lemma rstrip_cons (c : ascii) (s : string) :
  is_space c = false -> rstrip (String c s) = String c (rstrip s).
Proof.
  intros Hc; simpl. rewrite Hc. now destruct (rstrip s).
Qed.

Lemma strip_cons (c : ascii) (s : string) :
  is_space c = false -> strip (String c s) = String c (rstrip s).
Proof.
  intros Hc; unfold strip. rewrite (rstrip_cons _ _ Hc). simpl. now rewrite Hc.
Qed.

(** A line that starts with a visible character keeps it when stripped. *)
Lemma strip_keeps_head (c : ascii) (p s : string) :
  is_space c = false -> startswith s (String c p) = true ->
  exists r, strip s = String c r.
Proof.
  intros Hc H. destruct s as [|b s]; simpl in H; [discriminate|].
  apply andb_true_iff in H as [Hb _]. apply Ascii.eqb_eq in Hb; subst b.
  exists (rstrip s). now apply strip_cons.
Qed.

(** The old-file header of an added file: when a line that starts with
    [--- ] strips to [--- /dev/null], the path after the dashes is
    [/dev/null]. *)
Lemma dev_null_path (line : string) :
  startswith line "--- " = true ->
  strip line = "--- /dev/null" ->
  strip (slice_from 4 line) = "/dev/null".
Proof.
  intros Hs Hd. destruct (startswith_inv _ _ Hs) as [r ->].
  change (slice_from 4 ("--- " ++ r)) with r.
  change ("--- " ++ r) with (String "-" (String "-" (String "-" (String " " r)))) in Hd.
  rewrite strip_cons in Hd by reflexivity.
  rewrite !rstrip_cons in Hd by reflexivity.
  simpl in Hd. unfold strip.
  destruct (rstrip r) as [|a r'] eqn:Er; [discriminate|].
  injection Hd as Ha Hr. subst a r'. reflexivity.
Qed.

Lemma length_append (a b : string) :
  String.length (a ++ b) = String.length a + String.length b.
Proof. induction a as [|x a IH]; simpl; [reflexivity | now rewrite IH]. Qed.

(** Stripping a line forgets the newline that ends it. *)
Lemma rstrip_newline (s : string) : rstrip (s ++ nl) = rstrip s.
Proof.
  induction s as [|c s IH]; [reflexivity|].
  cbn [append rstrip]. now rewrite IH.
Qed.

Lemma strip_newline (s : string) : strip (s ++ nl) = strip s.
Proof. unfold strip. now rewrite rstrip_newline. Qed.

(** Reading back lines that were written one per line. *)
Lemma readlines_line (l rest : string) :
  contains_char l LF = false ->
  readlines (l ++ nl ++ rest) = (l ++ nl) :: readlines rest.
Proof.
  induction l as [|c l IH]; intros H.
  - reflexivity.
  - cbn [contains_char] in H. apply orb_false_iff in H as [Hc Hl].
    cbn [append readlines]. rewrite Hc.
    change (String c (l ++ nl ++ rest)) with (String c (l ++ (nl ++ rest))).
    now rewrite (IH Hl).
Qed.

Lemma splitlines_line (l rest : string) :
  one_line l = true ->
  splitlines (l ++ nl ++ rest) = l :: splitlines rest.
Proof.
  induction l as [|c l IH]; intros H.
  - reflexivity.
  - cbn [one_line] in H.
    apply andb_true_iff in H as [H Hl]. apply andb_true_iff in H as [Hn Hr].
    apply negb_true_iff in Hn, Hr.
    cbn [append]. cbn [splitlines]. rewrite Hn, Hr.
    now rewrite (IH Hl).
Qed.

Lemma contains_here (s rest : string) : contains (s ++ rest) s = true.
Proof.
  destruct s; simpl.
  - now destruct rest.
  - now rewrite Ascii.eqb_refl, startswith_append.
Qed.

Lemma contains_later (a b sub : string) :
  contains b sub = true -> contains (a ++ b) sub = true.
Proof.
  intros H. induction a as [|c a IH]; [exact H|].
  cbn [append contains]. rewrite IH. apply orb_true_r.
Qed.

End PyFacts.

(* ===================================================================== *)
(** * The SVN diff translator, line by line *)
(* ===================================================================== *)

Module SvnFacts.

Import Py Proc Git Spec PyFacts.

Lemma separator_is_67 : repeat "=" 67 = separator /\ String.length separator = 67.
Proof. split; reflexivity. Qed.

(** The loop over a concatenation runs the first part, then the second. *)
Lemma svn_loop_app (rev : string) (a b : list string) (st : svn_state) :
  svn_loop rev (a ++ b)%list st =
  match svn_loop rev a st with
  | inl e => inl e
  | inr st' => svn_loop rev b st'
  end.
Proof.
  revert st; induction a as [|l a IH]; intros st; simpl; [reflexivity|].
  destruct (svn_line rev st l); [reflexivity | apply IH].
Qed.

(** No line takes text away: what has been emitted stays a prefix. *)
Lemma svn_line_extends (rev : string) (st st' : svn_state) (line : string) :
  svn_line rev st line = inr st' ->
  exists out, diff_data st' = diff_data st ++ out.
Proof.
  unfold svn_line.
  repeat match goal with
         | |- context [if ?b then _ else _] => destruct b
         | |- context [match ?o with Some _ => _ | None => _ end] => destruct o
         end;
    intros H; inversion H; subst; simpl;
    rewrite ?append_assoc; eauto.
  all: exists EmptyString; now rewrite append_nil_r.
Qed.

Lemma svn_loop_extends (rev : string) (lines : list string)
  (st st' : svn_state) :
  svn_loop rev lines st = inr st' ->
  exists out, diff_data st' = diff_data st ++ out.
Proof.
  revert st; induction lines as [|l lines IH]; intros st H; simpl in H.
  - inversion H; subst. exists EmptyString. now rewrite append_nil_r.
  - destruct (svn_line rev st l) as [e|st1] eqn:E; [discriminate|].
    destruct (svn_line_extends _ _ _ _ E) as [o1 H1].
    destruct (IH _ H) as [o2 H2].
    exists (o1 ++ o2). now rewrite H2, H1, append_assoc.
Qed.

(** The loop fails only at a [diff ] line without a third field. *)
Lemma svn_line_ok (rev : string) (st : svn_state) (line : string) :
  header_ok line = true -> exists st', svn_line rev st line = inr st'.
Proof.
  unfold header_ok, svn_line.
  destruct (startswith line "diff ") eqn:Hd.
  - destruct (nth_error (split " " line) 2); [eauto | discriminate].
  - intros _.
    repeat match goal with
           | |- context [if ?b then _ else _] => destruct b
           end; eauto.
Qed.

Lemma svn_loop_ok (rev : string) (lines : list string) (st : svn_state) :
  headers_ok lines = true -> exists st', svn_loop rev lines st = inr st'.
Proof.
  revert st; induction lines as [|l lines IH]; intros st H; simpl in *.
  - eauto.
  - apply andb_true_iff in H as [Hl Hr].
    destruct (svn_line_ok rev st l Hl) as [st1 ->]. now apply IH.
Qed.

Lemma svn_loop_error (rev : string) (lines : list string) (st : svn_state)
  (e : exn) :
  svn_loop rev lines st = inl e -> e = IndexError /\ headers_ok lines = false.
Proof.
  revert st; induction lines as [|l lines IH]; intros st H; simpl in *.
  - discriminate.
  - destruct (svn_line rev st l) as [e1|st1] eqn:E.
    + inversion H; subst e1. unfold svn_line in E.
      destruct (header_ok l) eqn:Hok.
      * destruct (svn_line_ok rev st l Hok) as [st' E'].
        unfold svn_line in E'. rewrite E in E'. discriminate.
      * split; [|reflexivity].
        destruct (startswith l "diff ").
        -- destruct (nth_error (split " " l) 2); now inversion E.
        -- repeat match type of E with
                  | context [if ?b then _ else _] => destruct b
                  end; discriminate.
    + destruct (IH _ H) as [-> Hf]. split; [reflexivity|].
      now rewrite Hf, andb_false_r.
Qed.

(** A loop that runs to the end has met no such line. *)
Lemma svn_line_done_header_ok (rev : string) (st st' : svn_state)
  (line : string) :
  svn_line rev st line = inr st' -> header_ok line = true.
Proof.
  unfold svn_line, header_ok.
  destruct (startswith line "diff "); [|reflexivity].
  now destruct (nth_error (split " " line) 2).
Qed.

Lemma svn_loop_done_headers_ok (rev : string) (lines : list string)
  (st st' : svn_state) :
  svn_loop rev lines st = inr st' -> headers_ok lines = true.
Proof.
  revert st; induction lines as [|l lines IH]; intros st H; [reflexivity|].
  cbn [svn_loop] in H.
  destruct (svn_line rev st l) as [e|st1] eqn:E; [discriminate|].
  cbn [headers_ok forallb].
  rewrite (svn_line_done_header_ok _ _ _ _ E). exact (IH _ H).
Qed.

(** How an added file's marker line is classified. *)
Lemma dev_null_line (rev : string) (st : svn_state) (line : string) :
  strip line = "--- /dev/null" ->
  svn_line rev st line = inr (mkSvn (diff_data st) (filename st) true).
Proof.
  intros H. unfold svn_line.
  destruct (startswith line "diff ") eqn:H1.
  { destruct (strip_keeps_head "d" _ _ eq_refl H1) as [r Hr].
    rewrite Hr in H; discriminate. }
  destruct (startswith line "index ") eqn:H2.
  { destruct (strip_keeps_head "i" _ _ eq_refl H2) as [r Hr].
    rewrite Hr in H; discriminate. }
  now rewrite H.
Qed.

(** How a [+++ ] line is classified. *)
Lemma plus_line (rev : string) (st : svn_state) (line : string) :
  startswith line "+++ " = true ->
  svn_line rev st line =
  let path := strip (slice_from 4 line) in
  if newfile st
  then inr (mkSvn ((diff_data st
                    ++ ("--- " ++ path ++ tab ++ "(revision 0)" ++ nl))
                   ++ ("+++ " ++ path ++ tab ++ "(revision 0)" ++ nl))
                  path (newfile st))
  else inr (mkSvn (diff_data st
                   ++ ("+++ " ++ path ++ tab ++ "(working copy)" ++ nl))
                  path (newfile st)).
Proof.
  intros H. destruct (startswith_inv _ _ H) as [r ->].
  unfold svn_line.
  change (startswith ("+++ " ++ r) "diff ") with false.
  change (startswith ("+++ " ++ r) "index ") with false.
  change (startswith ("+++ " ++ r) "--- ") with false.
  rewrite H.
  change ("+++ " ++ r) with (String "+" ("++ " ++ r)) at 1.
  rewrite strip_cons by reflexivity.
  reflexivity.
Qed.

(** How the old-file header of an existing file is classified. *)
Lemma minus_line (rev : string) (st : svn_state) (line : string) :
  startswith line "--- " = true ->
  strip (slice_from 4 line) <> "/dev/null" ->
  svn_line rev st line =
  inr (mkSvn (diff_data st
              ++ ("--- " ++ strip (slice_from 4 line) ++ tab
                  ++ "(revision " ++ rev ++ ")" ++ nl))
             (filename st) false).
Proof.
  intros H Hp. unfold svn_line.
  destruct (strip line =? "--- /dev/null") eqn:Hd.
  { apply String.eqb_eq in Hd. now apply dev_null_path in Hd. }
  destruct (startswith_inv _ _ H) as [r ->].
  change (startswith ("--- " ++ r) "diff ") with false.
  change (startswith ("--- " ++ r) "index ") with false.
  now rewrite H.
Qed.

(** The loop at the two headers of an added file: nothing is emitted for
    [--- /dev/null], and at the [+++ <path>] line that follows the two lines
    [--- <path>\t(revision 0)] and [+++ <path>\t(revision 0)]. *)
Lemma new_file_lines (rev : string) (pre post : list string)
  (old_header new_header : string) (st0 st : svn_state) :
  svn_loop rev pre st0 = inr st ->
  strip old_header = "--- /dev/null" ->
  startswith new_header "+++ " = true ->
  let path := strip (slice_from 4 new_header) in
  let st2 :=
    mkSvn (diff_data st
           ++ (("--- " ++ path ++ tab ++ "(revision 0)" ++ nl)
               ++ ("+++ " ++ path ++ tab ++ "(revision 0)" ++ nl)))
          path true in
  svn_loop rev (pre ++ [old_header])%list st0
    = inr (mkSvn (diff_data st) (filename st) true)
  /\ svn_loop rev (pre ++ [old_header; new_header])%list st0 = inr st2
  /\ svn_loop rev (pre ++ old_header :: new_header :: post)%list st0
     = svn_loop rev post st2.
Proof.
  intros Hpre Hold Hnew path st2.
  rewrite !svn_loop_app, Hpre. simpl.
  rewrite (dev_null_line rev st old_header Hold).
  rewrite (plus_line rev _ new_header Hnew). simpl.
  fold path. rewrite append_assoc. fold st2. auto.
Qed.

(** The loop at the two headers of a file that was there before:
    [--- <path>\t(revision N)] for the first, [+++ <path>\t(working copy)]
    for the second. *)
Lemma modified_file_lines (rev : string) (pre post : list string)
  (old_header new_header : string) (st0 st : svn_state) :
  svn_loop rev pre st0 = inr st ->
  startswith old_header "--- " = true ->
  strip (slice_from 4 old_header) <> "/dev/null" ->
  startswith new_header "+++ " = true ->
  let old_path := strip (slice_from 4 old_header) in
  let new_path := strip (slice_from 4 new_header) in
  let st1 :=
    mkSvn (diff_data st
           ++ ("--- " ++ old_path ++ tab ++ "(revision " ++ rev ++ ")" ++ nl))
          (filename st) false in
  let st2 :=
    mkSvn (diff_data st1
           ++ ("+++ " ++ new_path ++ tab ++ "(working copy)" ++ nl))
          new_path false in
  svn_loop rev (pre ++ [old_header])%list st0 = inr st1
  /\ svn_loop rev (pre ++ [old_header; new_header])%list st0 = inr st2
  /\ svn_loop rev (pre ++ old_header :: new_header :: post)%list st0
     = svn_loop rev post st2.
Proof.
  intros Hpre Hold Hpath Hnew old_path new_path st1 st2.
  rewrite !svn_loop_app, Hpre. simpl.
  rewrite (minus_line rev st old_header Hold Hpath).
  rewrite (plus_line rev _ new_header Hnew). simpl.
  fold old_path new_path st1 st2. auto.
Qed.

(** The classes of lines, for every line and every state of the
    translator. A line starting with [diff ] emits [Index: <p>] and a
    separator line of 67 [=], where <p> is the third field of the line
    split at single spaces, when there is one; lines starting with
    [index ] or [new file mode] emit nothing; a line starting with
    [Binary files ] emits the two fixed lines; a line of no recognised kind
    is copied unchanged; and the output of a diff is the output of its first
    lines followed by what the remaining lines add. *)
Lemma svn_line_classes (rev : string) (st : svn_state) (line : string) :
  (startswith line "diff " = true ->
   match nth_error (split " " line) 2 with
   | Some p =>
       svn_line rev st line
       = inr (mkSvn (diff_data st
                     ++ ("Index: " ++ p ++ nl ++ separator ++ nl))
                    (filename st) (newfile st))
   | None => svn_line rev st line = inl IndexError
   end)
  /\ (startswith line "index " = true \/ startswith line "new file mode" = true
      -> svn_line rev st line = inr st)
  /\ (startswith line "Binary files " = true ->
      svn_line rev st line
      = inr (mkSvn (diff_data st
                    ++ ("Cannot display: file marked as a binary type." ++ nl
                        ++ "svn:mime-type = application/octet-stream" ++ nl))
                   (filename st) (newfile st)))
  /\ (classified line = false ->
      svn_line rev st line
      = inr (mkSvn (diff_data st ++ line) (filename st) (newfile st)))
  /\ (forall (first rest : list string) (st1 st2 : svn_state),
      svn_loop rev first st = inr st1 ->
      svn_loop rev rest st1 = inr st2 ->
      svn_loop rev (first ++ rest)%list st = inr st2
      /\ exists out1 out2,
           diff_data st1 = diff_data st ++ out1
           /\ diff_data st2 = diff_data st ++ out1 ++ out2).
Proof.
  split; [|split; [|split; [|split]]].
  - intros H. unfold svn_line. rewrite H.
    destruct (nth_error (split " " line) 2); [|reflexivity].
    cbv zeta. change (repeat "=" 67) with separator.
    now rewrite !append_assoc.
  - intros [H|H].
    + destruct (startswith_inv _ _ H) as [r ->]. reflexivity.
    + destruct (startswith_inv _ _ H) as [r ->]. unfold svn_line.
      change (startswith ("new file mode" ++ r) "diff ") with false.
      change (startswith ("new file mode" ++ r) "index ") with false.
      change (startswith ("new file mode" ++ r) "--- ") with false.
      change (startswith ("new file mode" ++ r) "+++ ") with false.
      rewrite H.
      change ("new file mode" ++ r) with (String "n" ("ew file mode" ++ r)).
      rewrite strip_cons by reflexivity. reflexivity.
  - intros H. destruct (startswith_inv _ _ H) as [r ->]. unfold svn_line.
    change (startswith ("Binary files " ++ r) "diff ") with false.
    change (startswith ("Binary files " ++ r) "index ") with false.
    change (startswith ("Binary files " ++ r) "--- ") with false.
    change (startswith ("Binary files " ++ r) "+++ ") with false.
    change (startswith ("Binary files " ++ r) "new file mode") with false.
    rewrite H.
    change ("Binary files " ++ r) with (String "B" ("inary files " ++ r)) at 1.
    rewrite strip_cons by reflexivity. simpl.
    now rewrite append_assoc.
  - unfold classified. intros H.
    repeat (apply orb_false_iff in H; destruct H as [H ?]).
    unfold svn_line.
    repeat match goal with
           | E : ?b = false |- context [if ?b then _ else _] => rewrite E
           end.
    reflexivity.
  - intros first rest st1 st2 H1 H2. split.
    + now rewrite svn_loop_app, H1.
    + destruct (svn_loop_extends _ _ _ _ H1) as [o1 E1].
      destruct (svn_loop_extends _ _ _ _ H2) as [o2 E2].
      exists o1, o2. split; [assumption|].
      now rewrite E2, E1, append_assoc.
Qed.

End SvnFacts.

(* ===================================================================== *)
(** * Running commands *)
(* ===================================================================== *)

Module ProcFacts.

Import Py Proc Git Spec.

Section Steps.

Context {World : Type}.
Variable run : Call -> World -> Completed * World.

Lemma bind_done {A B} (m : M GitClient World A) (k : A -> M GitClient World B)
  (st st' : State GitClient World) (a : A) :
  m st = Done (a, st') -> bind m k st = k a st'.
Proof. intros H; unfold bind; now rewrite H. Qed.

Lemma bind_inv {A B} (m : M GitClient World A) (k : A -> M GitClient World B)
  (st st2 : State GitClient World) (b : B) :
  bind m k st = Done (b, st2) ->
  exists a st1, m st = Done (a, st1) /\ k a st1 = Done (b, st2).
Proof.
  unfold bind. destruct (m st) as [[a st1]| |e]; try discriminate. eauto.
Qed.

Lemma execute_done (cmd : list string) (ignore_errors : bool)
  (st : State GitClient World) (out : string) (w : World) :
  run (mkCall cmd None) (world st) = (mkCompleted true out, w) ->
  execute run cmd ignore_errors st = Done (out, after st (mkCall cmd None) w).
Proof. intros H. unfold execute, bind, spawn. now rewrite H. Qed.

Lemma execute_inv (cmd : list string) (st st' : State GitClient World)
  (out : string) :
  execute run cmd false st = Done (out, st') ->
  exists w, run (mkCall cmd None) (world st) = (mkCompleted true out, w)
            /\ st' = after st (mkCall cmd None) w.
Proof.
  unfold execute, bind, spawn.
  destruct (run (mkCall cmd None) (world st)) as [[[|] o] w]; simpl;
    intros H; inversion H; subst. eauto.
Qed.

Lemma execute_lines_done (cmd : list string) (st : State GitClient World)
  (out : string) (w : World) :
  run (mkCall cmd None) (world st) = (mkCompleted true out, w) ->
  execute_lines run cmd st
  = Done (readlines out, after st (mkCall cmd None) w).
Proof. intros H. unfold execute_lines, bind, spawn. now rewrite H. Qed.

Lemma execute_or_none_run (cmd : list string) (env : option string)
  (st : State GitClient World) :
  execute_or_none run cmd env st
  = let (r, w) := run (mkCall cmd env) (world st) in
    Done (if ok r then Some (data r) else None, after st (mkCall cmd env) w).
Proof.
  unfold execute_or_none, bind, spawn.
  destruct (run (mkCall cmd env) (world st)) as [[[|] o] w]; reflexivity.
Qed.

Lemma execute_lines_or_none_run (cmd : list string)
  (st : State GitClient World) :
  execute_lines_or_none run cmd st
  = let (r, w) := run (mkCall cmd None) (world st) in
    Done (if ok r then Some (readlines (data r)) else None,
          after st (mkCall cmd None) w).
Proof.
  unfold execute_lines_or_none, bind, spawn.
  destruct (run (mkCall cmd None) (world st)) as [[[|] o] w]; reflexivity.
Qed.

(** With both guess flags off [_set_guesses] does nothing. *)
Lemma set_guesses_off (rev_range : string * string)
  (st : State GitClient World) :
  guess_summary (options (self st)) = false ->
  guess_description (options (self st)) = false ->
  _set_guesses run rev_range st = Done (tt, st).
Proof.
  intros Hs Hd. destruct rev_range as [a b].
  unfold _set_guesses, bind, get_self, ret. rewrite Hs. simpl. now rewrite Hd.
Qed.

(** For the native backend [make_diff] is one [git diff] on the revision
    argument, and its output. *)
Lemma make_diff_native (ancestor commit : string) (st : State GitClient World)
  (out : string) (w : World) :
  type (self st) = "git" ->
  run (native_diff_cmd (self st) (rev_range_arg ancestor commit)) (world st)
  = (mkCompleted true out, w) ->
  make_diff run ancestor commit st
  = Done (Some out,
          after st (native_diff_cmd (self st) (rev_range_arg ancestor commit))
                w).
Proof.
  intros Ht H. unfold make_diff.
  rewrite (bind_done _ _ st st (self st) eq_refl). rewrite Ht. simpl.
  now rewrite (bind_done _ _ _ _ _ (execute_done _ _ _ _ _ H)).
Qed.

Lemma make_diff_native_inv (ancestor commit : string)
  (st st' : State GitClient World) (x : option string) :
  type (self st) = "git" ->
  make_diff run ancestor commit st = Done (x, st') ->
  exists out w,
    run (native_diff_cmd (self st) (rev_range_arg ancestor commit)) (world st)
    = (mkCompleted true out, w)
    /\ x = Some out
    /\ st' = after st (native_diff_cmd (self st)
                         (rev_range_arg ancestor commit)) w.
Proof.
  intros Ht. unfold make_diff.
  rewrite (bind_done _ _ st st (self st) eq_refl). rewrite Ht. simpl.
  intros H. apply bind_inv in H as (out & st1 & He & Hr).
  apply execute_inv in He as (w & Hw & ->).
  inversion Hr; subst. exists out, w. auto.
Qed.

(** For the SVN bridge [make_diff] is one [git diff] without prefixes on
    the revision argument, whose lines go through the translator together
    with the ancestor. *)
Lemma make_diff_bridge (ancestor commit : string) (st : State GitClient World)
  (out : string) (w : World) :
  type (self st) = "svn" ->
  run (svn_diff_cmd (self st) (rev_range_arg ancestor commit)) (world st)
  = (mkCompleted true out, w) ->
  make_diff run ancestor commit st
  = make_svn_diff run ancestor (readlines out)
      (after st (svn_diff_cmd (self st) (rev_range_arg ancestor commit)) w).
Proof.
  intros Ht H. unfold make_diff.
  rewrite (bind_done _ _ st st (self st) eq_refl). rewrite Ht. simpl.
  now rewrite (bind_done _ _ _ _ _ (execute_lines_done _ _ _ _ H)).
Qed.

(** Any other backend gives no diff. *)
Lemma make_diff_other (ancestor commit : string) (st : State GitClient World) :
  type (self st) <> "svn" -> type (self st) <> "git" ->
  make_diff run ancestor commit st = Done (None, st).
Proof.
  intros Hs Hg. unfold make_diff.
  rewrite (bind_done _ _ st st (self st) eq_refl).
  apply String.eqb_neq in Hs, Hg. now rewrite Hs, Hg.
Qed.

End Steps.

End ProcFacts.

(* ===================================================================== *)
(** * The diff pipeline *)
(* ===================================================================== *)

Module DiffFacts.

Import Py Proc Git Spec PyFacts SvnFacts ProcFacts.

Section Pipeline.

Context {World : Type}.
Variable run : Call -> World -> Completed * World.

(** [make_svn_diff] once [git svn find-rev] has answered: [None] for an
    empty revision, else the text the loop has put together. *)
Lemma make_svn_diff_run (st : State GitClient World)
  (parent_branch : string) (diff_lines : list string) (out : string)
  (w : World) :
  run (find_rev_cmd (self st) parent_branch) (world st)
  = (mkCompleted true out, w) ->
  make_svn_diff run parent_branch diff_lines st
  = if negb (truthy (strip out))
    then Done (None, after st (find_rev_cmd (self st) parent_branch) w)
    else match svn_loop (strip out) diff_lines svn_init with
         | inl e => Raised e
         | inr final =>
             Done (Some (diff_data final),
                   after st (find_rev_cmd (self st) parent_branch) w)
         end.
Proof.
  intros Hrun. unfold make_svn_diff.
  rewrite (bind_done _ _ st st (self st) eq_refl).
  rewrite (bind_done _ _ _ _ _ (execute_done run _ _ _ _ _ Hrun)).
  destruct (negb (truthy (strip out))); [reflexivity|].
  now destruct (svn_loop (strip out) diff_lines svn_init).
Qed.

Lemma make_svn_diff_text (st : State GitClient World)
  (parent_branch : string) (diff_lines : list string) (out : string)
  (w : World) (final : svn_state) :
  run (find_rev_cmd (self st) parent_branch) (world st)
  = (mkCompleted true out, w) ->
  strip out <> EmptyString ->
  svn_loop (strip out) diff_lines svn_init = inr final ->
  make_svn_diff run parent_branch diff_lines st
  = Done (Some (diff_data final),
          after st (find_rev_cmd (self st) parent_branch) w).
Proof.
  intros Hrun Hne Hloop. rewrite (make_svn_diff_run _ _ _ _ _ Hrun).
  destruct (strip out); [congruence|]. cbn [truthy negb]. now rewrite Hloop.
Qed.

(** A [diff ] line without a third field stops the translator. *)
Lemma make_svn_diff_raises (st : State GitClient World)
  (parent_branch : string) (diff_lines : list string) (out : string)
  (w : World) :
  run (find_rev_cmd (self st) parent_branch) (world st)
  = (mkCompleted true out, w) ->
  strip out <> EmptyString ->
  headers_ok diff_lines = false ->
  make_svn_diff run parent_branch diff_lines st = Raised IndexError.
Proof.
  intros Hrun Hne Hbad. rewrite (make_svn_diff_run _ _ _ _ _ Hrun).
  destruct (strip out) eqn:Es; [congruence|]. cbn [truthy negb].
  destruct (svn_loop _ diff_lines svn_init) as [e|final] eqn:E.
  - now destruct (svn_loop_error _ _ _ _ E) as [-> _].
  - apply svn_loop_done_headers_ok in E. congruence.
Qed.

(** The lines around two file headers, when the whole diff is well
    formed. *)
Lemma headers_ok_around (pre post : list string) (a b : string) :
  headers_ok (pre ++ a :: b :: post)%list = true ->
  headers_ok pre = true /\ headers_ok post = true.
Proof.
  unfold headers_ok. rewrite forallb_app. cbn [forallb].
  intros H. apply andb_true_iff in H as [Hpre H].
  apply andb_true_iff in H as [_ H]. apply andb_true_iff in H as [_ Hpost].
  now split.
Qed.

(** C3. Let the ancestor have an SVN revision, and let the input diff hold
    a file section whose old-file header is [--- /dev/null], followed by a
    [+++ <path>] header. Then [make_svn_diff] returns a text, in which the
    header [--- /dev/null] has added nothing to the translation of the
    lines before it, and the [+++] header has added exactly the two lines
    [--- <path>\t(revision 0)] and [+++ <path>\t(revision 0)], both with
    the path of the [+++] line; the translation of the lines after them
    follows. This is so for every diff whose [diff ] lines have the three
    fields of the header git prints; for any other list of lines the
    translator raises [IndexError] and returns nothing. *)
Theorem svn_new_file_headers (st : State GitClient World)
  (parent_branch out : string) (w : World) (pre post : list string)
  (old_header new_header : string) :
  run (find_rev_cmd (self st) parent_branch) (world st)
  = (mkCompleted true out, w) ->
  strip out <> EmptyString ->
  strip old_header = "--- /dev/null" ->
  startswith new_header "+++ " = true ->
  let path := strip (slice_from 4 new_header) in
  let old_line := "--- " ++ path ++ tab ++ "(revision 0)" ++ nl in
  let new_line := "+++ " ++ path ++ tab ++ "(revision 0)" ++ nl in
  let st' := after st (find_rev_cmd (self st) parent_branch) w in
  let diff_lines := (pre ++ old_header :: new_header :: post)%list in
  (headers_ok diff_lines = true ->
   exists before rest,
     make_svn_diff run parent_branch pre st = Done (Some before, st')
     /\ make_svn_diff run parent_branch (pre ++ [old_header])%list st
        = Done (Some before, st')
     /\ make_svn_diff run parent_branch
          (pre ++ [old_header; new_header])%list st
        = Done (Some (before ++ old_line ++ new_line), st')
     /\ make_svn_diff run parent_branch diff_lines st
        = Done (Some (before ++ old_line ++ new_line ++ rest), st'))
  /\ (headers_ok diff_lines = false ->
      make_svn_diff run parent_branch diff_lines st = Raised IndexError).
Proof.
  intros Hrun Hne Hold Hnew path old_line new_line st' diff_lines.
  split; [|exact (make_svn_diff_raises _ _ _ _ _ Hrun Hne)].
  intros Hok. destruct (headers_ok_around _ _ _ _ Hok) as [Hpre Hpost].
  unfold diff_lines. clear diff_lines Hok.
  destruct (svn_loop_ok (strip out) pre svn_init Hpre) as [s1 H1].
  destruct (new_file_lines (strip out) pre post old_header new_header
              svn_init s1 H1 Hold Hnew) as (Ha & Hb & Hc).
  fold path in Hb, Hc. fold old_line new_line in Hb, Hc.
  set (s2 := mkSvn (diff_data s1 ++ old_line ++ new_line) path true) in *.
  destruct (svn_loop_ok (strip out) post s2 Hpost) as [final Hf].
  destruct (svn_loop_extends _ _ _ _ Hf) as [rest Hrest].
  rewrite Hf in Hc. exists (diff_data s1), rest.
  rewrite (make_svn_diff_text _ _ _ _ _ _ Hrun Hne H1).
  rewrite (make_svn_diff_text _ _ _ _ _ _ Hrun Hne Ha).
  rewrite (make_svn_diff_text _ _ _ _ _ _ Hrun Hne Hb).
  rewrite (make_svn_diff_text _ _ _ _ _ _ Hrun Hne Hc).
  rewrite Hrest. unfold s2. cbn [diff_data].
  rewrite !append_assoc. fold st'. auto.
Qed.

(** C4. Let the ancestor have the SVN revision N, and let the input diff
    hold a file section whose old-file header is [--- <path>] with a path
    other than [/dev/null], followed by a [+++ <path>] header. Then
    [make_svn_diff] returns a text, in which the first header has added
    [--- <path>\t(revision N)] to the translation of the lines before it,
    and the second only [+++ <path>\t(working copy)]; the translation of
    the lines after them follows. N is what [git svn find-rev] printed for
    the ancestor, stripped. This is so for every diff whose [diff ] lines
    have the three fields of the header git prints; for any other list of
    lines the translator raises [IndexError] and returns nothing. *)
Theorem svn_modified_file_headers (st : State GitClient World)
  (parent_branch out : string) (w : World) (pre post : list string)
  (old_header new_header : string) :
  run (find_rev_cmd (self st) parent_branch) (world st)
  = (mkCompleted true out, w) ->
  strip out <> EmptyString ->
  startswith old_header "--- " = true ->
  strip (slice_from 4 old_header) <> "/dev/null" ->
  startswith new_header "+++ " = true ->
  let old_path := strip (slice_from 4 old_header) in
  let new_path := strip (slice_from 4 new_header) in
  let old_line :=
    "--- " ++ old_path ++ tab ++ "(revision " ++ strip out ++ ")" ++ nl in
  let new_line := "+++ " ++ new_path ++ tab ++ "(working copy)" ++ nl in
  let st' := after st (find_rev_cmd (self st) parent_branch) w in
  let diff_lines := (pre ++ old_header :: new_header :: post)%list in
  (headers_ok diff_lines = true ->
   exists before rest,
     make_svn_diff run parent_branch pre st = Done (Some before, st')
     /\ make_svn_diff run parent_branch (pre ++ [old_header])%list st
        = Done (Some (before ++ old_line), st')
     /\ make_svn_diff run parent_branch
          (pre ++ [old_header; new_header])%list st
        = Done (Some (before ++ old_line ++ new_line), st')
     /\ make_svn_diff run parent_branch diff_lines st
        = Done (Some (before ++ old_line ++ new_line ++ rest), st'))
  /\ (headers_ok diff_lines = false ->
      make_svn_diff run parent_branch diff_lines st = Raised IndexError).
Proof.
  intros Hrun Hne Hold Hpath Hnew
         old_path new_path old_line new_line st' diff_lines.
  split; [|exact (make_svn_diff_raises _ _ _ _ _ Hrun Hne)].
  intros Hok. destruct (headers_ok_around _ _ _ _ Hok) as [Hpre Hpost].
  unfold diff_lines. clear diff_lines Hok.
  destruct (svn_loop_ok (strip out) pre svn_init Hpre) as [s1 H1].
  destruct (modified_file_lines (strip out) pre post old_header new_header
              svn_init s1 H1 Hold Hpath Hnew) as (Ha & Hb & Hc).
  fold old_path new_path in Ha, Hb, Hc. fold old_line in Ha, Hb, Hc.
  cbn [diff_data filename] in Hb, Hc. fold new_line in Hb, Hc.
  set (s2 := mkSvn ((diff_data s1 ++ old_line) ++ new_line) new_path false)
    in *.
  destruct (svn_loop_ok (strip out) post s2 Hpost) as [final Hf].
  destruct (svn_loop_extends _ _ _ _ Hf) as [rest Hrest].
  rewrite Hf in Hc. exists (diff_data s1), rest.
  rewrite (make_svn_diff_text _ _ _ _ _ _ Hrun Hne H1).
  rewrite (make_svn_diff_text _ _ _ _ _ _ Hrun Hne Ha).
  rewrite (make_svn_diff_text _ _ _ _ _ _ Hrun Hne Hb).
  rewrite (make_svn_diff_text _ _ _ _ _ _ Hrun Hne Hc).
  rewrite Hrest. unfold s2. cbn [diff_data].
  rewrite !append_assoc. fold st'. auto.
Qed.

(** Once [git svn find-rev] has answered, [make_svn_diff] returns [None]
    if and only if the answer is empty (after stripping). When the
    revision is not empty it never returns [None], and it returns the
    translated text for every diff whose [diff ] headers have their three
    fields. *)
Lemma make_svn_diff_none_iff (st : State GitClient World)
  (parent_branch : string) (diff_lines : list string) (out : string)
  (w : World) :
  run (find_rev_cmd (self st) parent_branch) (world st)
  = (mkCompleted true out, w) ->
  let st' := after st (find_rev_cmd (self st) parent_branch) w in
  ((exists s, make_svn_diff run parent_branch diff_lines st = Done (None, s))
   <-> strip out = EmptyString)
  /\ (strip out = EmptyString ->
      make_svn_diff run parent_branch diff_lines st = Done (None, st'))
  /\ (strip out <> EmptyString ->
      forall s, make_svn_diff run parent_branch diff_lines st
                <> Done (None, s))
  /\ (strip out <> EmptyString -> headers_ok diff_lines = true ->
      exists final,
        svn_loop (strip out) diff_lines svn_init = inr final
        /\ make_svn_diff run parent_branch diff_lines st
           = Done (Some (diff_data final), st')).
Proof.
  intros Hrun st'.
  assert (Hstep : make_svn_diff run parent_branch diff_lines st
                  = if negb (truthy (strip out)) then Done (None, st')
                    else match svn_loop (strip out) diff_lines svn_init with
                         | inl e => Raised e
                         | inr final => Done (Some (diff_data final), st')
                         end).
  { unfold make_svn_diff.
    rewrite (bind_done _ _ st st (self st) eq_refl).
    rewrite (bind_done _ _ _ _ _ (execute_done run _ _ _ _ _ Hrun)).
    fold st'. destruct (negb (truthy (strip out))); [reflexivity|].
    now destruct (svn_loop (strip out) diff_lines svn_init). }
  rewrite Hstep. split; [split|split; [|split]].
  - intros [s Hs]. destruct (strip out); [reflexivity|]. simpl in Hs.
    destruct (svn_loop _ diff_lines svn_init); discriminate.
  - intros ->. now exists st'.
  - intros ->. reflexivity.
  - intros Hne s. destruct (strip out); [congruence|]. simpl.
    destruct (svn_loop _ diff_lines svn_init); discriminate.
  - intros Hne Hok. destruct (strip out) as [|a r] eqn:E; [congruence|].
    simpl. destruct (svn_loop_ok (String a r) diff_lines svn_init Hok)
      as [final Hf].
    exists final. now rewrite Hf.
Qed.

(** [_set_guesses] changes the options of the client and nothing else. *)
Lemma set_guesses_self (rev_range : string * string)
  (st st' : State GitClient World) :
  _set_guesses run rev_range st = Done (tt, st') ->
  same_but_options (self st') (self st).
Proof.
  destruct rev_range as [a b]. unfold _set_guesses. intros H.
  apply bind_inv in H as (c & s1 & Hc & H). inversion Hc; subst c s1; clear Hc.
  apply bind_inv in H as ([] & s2 & H1 & H).
  assert (E1 : same_but_options (self s2) (self st)).
  { destruct (guess_summary (options (self st))
              && negb (truthy_opt (summary (options (self st))))).
    - apply bind_inv in H1 as (o1 & t1 & He1 & H1).
      apply execute_inv in He1 as (w1 & _ & ->).
      apply bind_inv in H1 as (o2 & t2 & He2 & H1).
      unfold execute, bind, spawn in He2.
      destruct (run _ (world _)) as [r2 w2] in He2. simpl in He2.
      rewrite andb_false_r in He2. inversion He2; subst o2 t2; clear He2.
      inversion H1; subst. repeat split.
    - inversion H1; subst. repeat split. }
  apply bind_inv in H as (c & s3 & Hc & H). inversion Hc; subst c s3; clear Hc.
  destruct (guess_description (options (self s2))
            && negb (truthy_opt (description (options (self s2))))).
  - apply bind_inv in H as (o & t & He & H).
    unfold execute, bind, spawn in He.
    destruct (run _ (world _)) as [r w] in He. simpl in He.
    rewrite andb_false_r in He. inversion He; subst o t; clear He.
    inversion H; subst. exact E1.
  - inversion H; subst. exact E1.
Qed.

Lemma execute_lines_returns (cmd : list string)
  (st st' : State GitClient World) (ls : list string) :
  execute_lines run cmd st = Done (ls, st') ->
  exists out w,
    run (mkCall cmd None) (world st) = (mkCompleted true out, w)
    /\ ls = readlines out /\ st' = after st (mkCall cmd None) w.
Proof.
  unfold execute_lines, bind, spawn.
  destruct (run (mkCall cmd None) (world st)) as [[[|] o] w]; simpl;
    intros H; inversion H; subst. eauto.
Qed.

(** For the SVN bridge, a [make_diff] that returns has run [git diff]
    without prefixes on the revision argument and [git svn find-rev] on the
    ancestor, and its result is what the bridge makes of the two answers. *)
Lemma make_diff_bridge_inv (ancestor commit : string)
  (st st' : State GitClient World) (x : option string) :
  type (self st) = "svn" ->
  make_diff run ancestor commit st = Done (x, st') ->
  exists out w1 rev w2,
    run (svn_diff_cmd (self st) (rev_range_arg ancestor commit)) (world st)
    = (mkCompleted true out, w1)
    /\ run (find_rev_cmd (self st) ancestor) w1 = (mkCompleted true rev, w2)
    /\ st' = mkState (self st) w2
               (log st ++ [svn_diff_cmd (self st)
                             (rev_range_arg ancestor commit);
                           find_rev_cmd (self st) ancestor])%list
    /\ bridged rev out x.
Proof.
  intros Ht. unfold make_diff.
  rewrite (bind_done _ _ st st (self st) eq_refl). rewrite Ht.
  change ("svn" =? "svn") with true. cbv iota.
  intros H. apply bind_inv in H as (ls & s1 & He & H).
  apply execute_lines_returns in He as (out & w1 & Hout & -> & ->).
  fold (svn_diff_cmd (self st) (rev_range_arg ancestor commit)) in *.
  unfold make_svn_diff in H.
  apply bind_inv in H as (c & s2 & Hc & H). inversion Hc; subst c s2; clear Hc.
  apply bind_inv in H as (rev & s3 & Hr & H).
  apply execute_inv in Hr as (w2 & Hrev & ->).
  cbn [after self world log] in *. fold (find_rev_cmd (self st) ancestor) in *.
  exists out, w1, rev, w2. split; [exact Hout|]. split; [exact Hrev|].
  assert (Hst : after (after st (svn_diff_cmd (self st)
                                   (rev_range_arg ancestor commit)) w1)
                      (find_rev_cmd (self st) ancestor) w2
                = mkState (self st) w2
                    (log st ++ [svn_diff_cmd (self st)
                                  (rev_range_arg ancestor commit);
                                find_rev_cmd (self st) ancestor])%list).
  { unfold after. cbn [self world log]. now rewrite <- app_assoc. }
  destruct (strip rev) as [|a r] eqn:Es; cbn [truthy negb] in H.
  - inversion H; subst. split; [exact Hst|].
    unfold bridged. rewrite Es. split; [reflexivity | congruence].
  - destruct (svn_loop (String a r) (readlines out) svn_init) as [e|final]
      eqn:El; [discriminate|].
    inversion H; subst. split; [exact Hst|].
    unfold bridged. rewrite Es.
    split; [discriminate|]. intros _. now exists final.
Qed.

(** C2, amended. In parent-branch mode, once the merge base of the upstream
    branch and the head is known, the primary diff is [make_diff] of the
    parent branch with no end revision, and the parent diff is [make_diff]
    of the range (merge_base, parent_branch]. Natively the first is the
    output of [git diff <parent_branch>], which compares with the working
    tree, and the second the output of
    [git diff <merge_base>..<parent_branch>]. For the SVN bridge each is
    what the translator makes of the corresponding [git diff]: nothing when
    its ancestor, the parent branch for the first and the merge base for
    the second, has no SVN revision. For any other type both are
    [None]. *)
Theorem diff_parent_branch_ranges (st st2 st3 st4 : State GitClient World)
  (P mb : string) (w1 : World) (d pd : option string) :
  parent_branch (options (self st)) = Some P ->
  truthy P = true ->
  run (merge_base_cmd (self st)) (world st) = (mkCompleted true mb, w1) ->
  let st1 := with_self (set_merge_base (strip mb))
               (after st (merge_base_cmd (self st)) w1) in
  make_diff run P EmptyString st1 = Done (d, st2) ->
  make_diff run (strip mb) P st2 = Done (pd, st3) ->
  _set_guesses run (P, "HEAD")
    (with_self (set_rev_range_for_diff (P, "HEAD")) st3) = Done (tt, st4) ->
  diff run st = Done ((d, pd), st4)
  /\ (type (self st) = "git" ->
      exists out pout wa wb,
        run (native_diff_cmd (self st) P) w1 = (mkCompleted true out, wa)
        /\ run (native_diff_cmd (self st) (strip mb ++ ".." ++ P)) wa
           = (mkCompleted true pout, wb)
        /\ d = Some out /\ pd = Some pout)
  /\ (type (self st) = "svn" ->
      exists out rev pout prev wa wb wc wd,
        run (svn_diff_cmd (self st) P) w1 = (mkCompleted true out, wa)
        /\ run (find_rev_cmd (self st) P) wa = (mkCompleted true rev, wb)
        /\ run (svn_diff_cmd (self st) (strip mb ++ ".." ++ P)) wb
           = (mkCompleted true pout, wc)
        /\ run (find_rev_cmd (self st) (strip mb)) wc
           = (mkCompleted true prev, wd)
        /\ bridged rev out d /\ bridged prev pout pd)
  /\ (type (self st) <> "git" -> type (self st) <> "svn" ->
      d = None /\ pd = None).
Proof.
  intros HP HPt Hmb st1 Hd Hpd Hg. split; [|split; [|split]].
  - unfold diff.
    rewrite (bind_done _ _ st st (self st) eq_refl).
    rewrite HP. cbn [truthy_opt or_else]. rewrite HPt.
    rewrite (bind_done _ _ _ _ _ (execute_done run _ _ _ _ _ Hmb)).
    rewrite (bind_done _ _ _ st1 tt eq_refl).
    rewrite (bind_done _ _ st1 st1 (self st1) eq_refl).
    rewrite (bind_done _ _ st1 st3 (d, pd)).
    2:{ rewrite (bind_done _ _ _ _ _ Hd).
        now rewrite (bind_done _ _ _ _ _ Hpd). }
    rewrite (bind_done _ _ st3 _ tt eq_refl).
    now rewrite (bind_done _ _ _ _ _ Hg).
  - intros Ht.
    apply make_diff_native_inv in Hd as (out & wa & Ha & -> & ->);
      [|exact Ht].
    apply make_diff_native_inv in Hpd as (pout & wb & Hb & -> & _);
      [|exact Ht].
    unfold rev_range_arg in Hb. rewrite HPt in Hb.
    exists out, pout, wa, wb. auto.
  - intros Ht.
    apply make_diff_bridge_inv in Hd
      as (out & wa & rev & wb & Ha & Hr & -> & Hbd); [|exact Ht].
    apply make_diff_bridge_inv in Hpd
      as (pout & wc & prev & wd & Hb & Hpr & _ & Hbp); [|exact Ht].
    unfold rev_range_arg in Ha, Hb. rewrite HPt in Hb.
    exists out, rev, pout, prev, wa, wb, wc, wd.
    split; [exact Ha|]. split; [exact Hr|]. split; [exact Hb|].
    split; [exact Hpr|]. now split.
  - intros Hg' Hs'.
    rewrite (make_diff_other run P EmptyString st1) in Hd by assumption.
    inversion Hd; subst d st2.
    rewrite (make_diff_other run (strip mb) P st1) in Hpd by assumption.
    inversion Hpd. auto.
Qed.


End Pipeline.

(** In a git-svn checkout whose trunk has the revision 1234: the diff of a
    commit that adds [hello.txt]. *)
Lemma svn_new_file_headers_witness :
  let st' := after (Examples.start Examples.svn_client tt)
                   (find_rev_cmd Examples.svn_client "trunk") tt in
  exists before rest,
    make_svn_diff (Script.run Examples.svn_repo) "trunk"
      Examples.added_file_head (Examples.start Examples.svn_client tt)
    = Done (Some before, st')
    /\ make_svn_diff (Script.run Examples.svn_repo) "trunk"
         (Examples.added_file_head ++ [Examples.added_old_header])%list
         (Examples.start Examples.svn_client tt)
       = Done (Some before, st')
    /\ make_svn_diff (Script.run Examples.svn_repo) "trunk"
         (Examples.added_file_head
          ++ [Examples.added_old_header; Examples.added_new_header])%list
         (Examples.start Examples.svn_client tt)
       = Done (Some (before
                     ++ ("--- hello.txt" ++ tab ++ "(revision 0)" ++ nl)
                     ++ ("+++ hello.txt" ++ tab ++ "(revision 0)" ++ nl)),
               st')
    /\ make_svn_diff (Script.run Examples.svn_repo) "trunk"
         (Examples.added_file_head
          ++ Examples.added_old_header :: Examples.added_new_header
             :: Examples.added_file_body)%list
         (Examples.start Examples.svn_client tt)
       = Done (Some (before
                     ++ ("--- hello.txt" ++ tab ++ "(revision 0)" ++ nl)
                     ++ ("+++ hello.txt" ++ tab ++ "(revision 0)" ++ nl)
                     ++ rest), st').
Proof.
  refine (proj1
            (svn_new_file_headers (Script.run Examples.svn_repo)
               (Examples.start Examples.svn_client tt) "trunk"
               ("1234" ++ nl) tt
               Examples.added_file_head Examples.added_file_body
               Examples.added_old_header Examples.added_new_header
               eq_refl _ eq_refl eq_refl)
            eq_refl).
  vm_compute; discriminate.
Defined.

(** In the same checkout: the diff of a commit that changes
    [src/main.c]. *)
Lemma svn_modified_file_headers_witness :
  let st' := after (Examples.start Examples.svn_client tt)
                   (find_rev_cmd Examples.svn_client "trunk") tt in
  exists before rest,
    make_svn_diff (Script.run Examples.svn_repo) "trunk"
      Examples.changed_file_head (Examples.start Examples.svn_client tt)
    = Done (Some before, st')
    /\ make_svn_diff (Script.run Examples.svn_repo) "trunk"
         (Examples.changed_file_head ++ [Examples.changed_old_header])%list
         (Examples.start Examples.svn_client tt)
       = Done (Some (before
                     ++ ("--- src/main.c" ++ tab ++ "(revision 1234)" ++ nl)),
               st')
    /\ make_svn_diff (Script.run Examples.svn_repo) "trunk"
         (Examples.changed_file_head
          ++ [Examples.changed_old_header; Examples.changed_new_header])%list
         (Examples.start Examples.svn_client tt)
       = Done (Some (before
                     ++ ("--- src/main.c" ++ tab ++ "(revision 1234)" ++ nl)
                     ++ ("+++ src/main.c" ++ tab ++ "(working copy)" ++ nl)),
               st')
    /\ make_svn_diff (Script.run Examples.svn_repo) "trunk"
         (Examples.changed_file_head
          ++ Examples.changed_old_header :: Examples.changed_new_header
             :: Examples.changed_file_body)%list
         (Examples.start Examples.svn_client tt)
       = Done (Some (before
                     ++ ("--- src/main.c" ++ tab ++ "(revision 1234)" ++ nl)
                     ++ ("+++ src/main.c" ++ tab ++ "(working copy)" ++ nl)
                     ++ rest), st').
Proof.
  refine (proj1
            (svn_modified_file_headers (Script.run Examples.svn_repo)
               (Examples.start Examples.svn_client tt) "trunk"
               ("1234" ++ nl) tt
               Examples.changed_file_head Examples.changed_file_body
               Examples.changed_old_header Examples.changed_new_header
               eq_refl _ eq_refl _ eq_refl)
            eq_refl).
  - vm_compute; discriminate.
  - vm_compute; discriminate.
Defined.

(** C5. The header git prints for the file [ notes.txt], whose name
    starts with a space, is [diff --git  notes.txt  notes.txt]. Its third
    whitespace-separated token is [notes.txt], but the third field between
    single spaces, which the translator takes, is empty: the banner of the
    file is [Index: ] with no path. *)
Theorem svn_diff_header_path :
  nth_error (words Examples.spaced_header) 2 = Some "notes.txt"
  /\ nth_error (split " " Examples.spaced_header) 2 = Some EmptyString
  /\ make_svn_diff (Script.run Examples.svn_repo) "trunk"
       Examples.spaced_file_diff (Examples.start Examples.svn_client tt)
     = Done (Some ("Index: " ++ nl ++ separator ++ nl
                   ++ "--- notes.txt" ++ tab ++ "(revision 1234)" ++ nl
                   ++ "+++ notes.txt" ++ tab ++ "(working copy)" ++ nl
                   ++ "@@ -1 +1 @@" ++ nl
                   ++ "-draft" ++ nl
                   ++ "+final" ++ nl),
             after (Examples.start Examples.svn_client tt)
                   (find_rev_cmd Examples.svn_client "trunk") tt).
Proof.
  split; [reflexivity|]. split; [reflexivity|]. vm_compute. reflexivity.
Qed.

(** C6. The ancestor [trunk] has the SVN revision 1234, and yet
    [make_svn_diff] returns no text for a diff with the line
    [diff README]: the line has no third field, and [IndexError]
    escapes. *)
Theorem make_svn_diff_short_header :
  Script.run Examples.svn_repo (find_rev_cmd Examples.svn_client "trunk") tt
  = (Script.prints ("1234" ++ nl), tt)
  /\ strip ("1234" ++ nl) = "1234"
  /\ make_svn_diff (Script.run Examples.svn_repo) "trunk"
       [Examples.short_header] (Examples.start Examples.svn_client tt)
     = Raised IndexError.
Proof.
  split; [reflexivity|]. split; [reflexivity|]. vm_compute. reflexivity.
Qed.

(** The claim of C2 fails as stated on two counts. With the parent branch
    [topic] and the head [refs/heads/feature], the primary diff is what
    [git diff topic] prints, uncommitted changes of the working tree
    included, and not the diff of the range (topic, refs/heads/feature].
    And in a git-svn checkout whose merge base has no SVN revision, the
    parent diff is [None] and covers no range. *)
Lemma diff_parent_branch_counterexample :
  exists st' st'' sa,
    head_ref_or_HEAD Examples.stacked_client = "refs/heads/feature"
    /\ diff (Script.run Examples.stacked_repo)
         (Examples.start Examples.stacked_client tt)
       = Done ((Some "committed and uncommitted changes",
                Some "changes of topic"), st')
    /\ make_diff (Script.run Examples.stacked_repo)
         "topic" "refs/heads/feature"
         (Examples.start Examples.stacked_client tt)
       = Done (Some "committed changes", st'')
    /\ Some "committed and uncommitted changes" <> Some "committed changes"
    /\ diff (Script.run Examples.stacked_svn_repo)
         (Examples.start Examples.stacked_svn_client tt)
       = Done ((Some ("Index: a.txt" ++ nl ++ separator ++ nl), None), sa).
Proof.
  do 3 eexists.
  split; [reflexivity|]. split; [vm_compute; reflexivity|].
  split; [vm_compute; reflexivity|]. split; [discriminate|].
  vm_compute; reflexivity.
Qed.

Lemma diff_parent_branch_ranges_witness :
  exists st',
    diff (Script.run Examples.stacked_repo)
      (Examples.start Examples.stacked_client tt)
    = Done ((Some "committed and uncommitted changes",
             Some "changes of topic"), st')
    /\ exists out pout wa wb,
         Script.run Examples.stacked_repo
           (native_diff_cmd Examples.stacked_client "topic") tt
         = (mkCompleted true out, wa)
         /\ Script.run Examples.stacked_repo
              (native_diff_cmd Examples.stacked_client
                 (strip ("4f2a" ++ nl) ++ ".." ++ "topic")) wa
            = (mkCompleted true pout, wb)
         /\ Some "committed and uncommitted changes" = Some out
         /\ Some "changes of topic" = Some pout.
Proof.
  eexists.
  refine ((fun H => conj (proj1 H) (proj1 (proj2 H) eq_refl))
    (diff_parent_branch_ranges (Script.run Examples.stacked_repo)
       (Examples.start Examples.stacked_client tt) _ _ _
       "topic" ("4f2a" ++ nl) tt _ _ eq_refl eq_refl eq_refl _ _ _));
    vm_compute; reflexivity.
Defined.



End DiffFacts.

(* ===================================================================== *)
(** * The commit annotator *)
(* ===================================================================== *)

Module AnnotatorFacts.

Import Py Proc Git Spec PyFacts ProcFacts.

Section AnyWorld.

Context {World : Type}.
Variable run : Call -> World -> Completed * World.

(** The loop over the commits runs one [git notes edit] per commit, in
    order, whatever the edits answer, and counts at most one per commit. *)
Lemma edit_notes_log (g editor : string) (commits : list string) (n : nat)
  (st : State GitClient World) :
  exists n' w',
    edit_notes run g editor commits n st
    = Done (n', mkState (self st) w'
                  (log st ++ map (fun c => mkCall [g; "notes"; "edit"; c]
                                             (Some editor)) commits)%list)
    /\ n <= n' <= n + length commits.
Proof.
  revert n st; induction commits as [|c commits IH]; intros n st; simpl.
  - exists n, (world st). rewrite app_nil_r. destruct st; simpl.
    split; [reflexivity | lia].
  - unfold bind at 1. rewrite execute_or_none_run.
    destruct (run _ (world st)) as [r w].
    destruct (IH (if ok r then S n else n)
                 (after st (mkCall [g; "notes"; "edit"; c] (Some editor)) w))
      as (n' & w' & E & Hn).
    exists n', w'. split.
    + destruct (ok r); simpl in *; rewrite E; simpl;
        now rewrite <- app_assoc.
    + destruct (ok r); lia.
Qed.

Lemma find_reviewed_by_some (lines : list string) (url line : string) :
  find_reviewed_by lines url = Some line ->
  In line lines /\ startswith line "Reviewed-By: " = true
  /\ contains line url = true.
Proof.
  induction lines as [|l lines IH]; cbn [find_reviewed_by]; [discriminate|].
  destruct (startswith l "Reviewed-By: " && contains l url) eqn:E.
  - intros H; injection H as <-.
    apply andb_true_iff in E as [? ?]. repeat split; [now left | assumption..].
  - intros H. destruct (IH H) as (? & ? & ?).
    repeat split; [now right | assumption..].
Qed.

(** The editor command of the source is the program written out in
    [edit_program]. *)
Lemma editor_is_program (line : string) :
  git_editor_cmd line = edit_program line.
Proof.
  unfold git_editor_cmd, perlcmd, edit_program.
  now rewrite !append_assoc.
Qed.

(** The line the source builds is the text set out by cases. *)
Lemma build_reviewed_by_is_text (options : Options) (review_url : string) :
  build_reviewed_by options review_url
  = reviewed_by_text (target_people options) (target_groups options)
      review_url.
Proof.
  unfold build_reviewed_by, reviewed_by_text.
  destruct (truthy_opt (target_people options)),
           (truthy_opt (target_groups options));
    cbn [andb]; now rewrite ?append_assoc.
Qed.

(** The loop over the lines of the note stops at the first line that
    records the review. *)
Lemma find_reviewed_by_first (lines : list string) (url line : string) :
  first_reviewed_by lines url line ->
  find_reviewed_by lines url = Some line.
Proof.
  intros (before & rest & -> & Hb & Hl).
  induction before as [|l before IH]; cbn [app find_reviewed_by].
  - unfold is_reviewed_by in Hl. now rewrite Hl.
  - cbn [forallb] in Hb. apply andb_true_iff in Hb as [H0 Hb].
    apply negb_true_iff in H0. unfold is_reviewed_by in H0. rewrite H0.
    now apply IH.
Qed.

Lemma find_reviewed_by_none (lines : list string) (url : string) :
  forallb (fun l => negb (is_reviewed_by url l)) lines = true ->
  find_reviewed_by lines url = None.
Proof.
  induction lines as [|l lines IH]; cbn [forallb find_reviewed_by];
    [reflexivity|].
  intros H. apply andb_true_iff in H as [H0 H].
  apply negb_true_iff in H0. unfold is_reviewed_by in H0. rewrite H0.
  now apply IH.
Qed.

(** When the note of the oldest commit shows a line for the review, the
    annotator is the loop over the other commits, started at the count 1,
    under the editor command for that line. *)
Lemma reviewed_by_line_adopted_steps (st : State GitClient World)
  (options : Options) (review_url start_rev end_rev revs first out line : string)
  (others : list string) (w1 w2 : World) :
  rev_range_for_diff (self st) = Some (start_rev, end_rev) ->
  run (rev_list_cmd (self st) start_rev end_rev) (world st)
  = (mkCompleted true revs, w1) ->
  readlines revs = first :: others ->
  run (notes_show_cmd (self st) (strip first)) w1 = (mkCompleted true out, w2) ->
  first_reviewed_by (splitlines out) review_url line ->
  let st2 := after (after st (rev_list_cmd (self st) start_rev end_rev) w1)
                   (notes_show_cmd (self st) (strip first)) w2 in
  update_commits_with_reviewer_info run options review_url st
  = edit_notes run (git (self st)) (git_editor_cmd line) (map strip others)
      1 st2
  /\ exists n w',
       edit_notes run (git (self st)) (git_editor_cmd line)
         (map strip others) 1 st2
       = Done (n, mkState (self st) w'
                    (log st
                     ++ [rev_list_cmd (self st) start_rev end_rev;
                         notes_show_cmd (self st) (strip first)]
                     ++ map (fun commit =>
                               mkCall [git (self st); "notes"; "edit"; commit]
                                      (Some (edit_program line)))
                            (map strip others))%list)
       /\ 1 <= n <= 1 + length others.
Proof.
  intros Hrange Hrevs Hlines Hshow Hfirst st2.
  assert (Hout : truthy out = true).
  { destruct Hfirst as (before & rest & E & _).
    destruct out; [destruct before; discriminate | reflexivity]. }
  apply find_reviewed_by_first in Hfirst.
  split.
  - unfold update_commits_with_reviewer_info.
    rewrite (bind_done _ _ st st (self st) eq_refl). rewrite Hrange.
    unfold bind at 1. rewrite execute_lines_or_none_run.
    fold (rev_list_cmd (self st) start_rev end_rev).
    rewrite Hrevs. cbn [ok data]. rewrite Hlines. cbn [map hd tl].
    unfold bind at 1. rewrite execute_or_none_run.
    cbn [world after]. fold (notes_show_cmd (self st) (strip first)).
    rewrite Hshow. cbn [ok data truthy_opt or_else]. now rewrite Hout, Hfirst.
  - destruct (edit_notes_log (git (self st)) (git_editor_cmd line)
                (map strip others) 1 st2) as (n & w' & E & Hn).
    exists n, w'. rewrite E. rewrite length_map in Hn.
    split; [|lia]. rewrite editor_is_program.
    unfold st2, after; simpl. rewrite <- !app_assoc. reflexivity.
Qed.

(** C9. When the notes of the oldest commit of the range have a line that
    starts with [Reviewed-By: ] and contains the review url, the annotator
    skips that commit, counts it, and runs [git notes edit] on every
    remaining commit under a [GIT_EDITOR] whose perl program prints that
    very line, the first such line of the notes, whatever the people and
    the groups of the options are. *)
Theorem reviewed_by_line_adopted (st : State GitClient World)
  (options : Options) (review_url start_rev end_rev revs first out line : string)
  (others : list string) (w1 w2 : World) :
  rev_range_for_diff (self st) = Some (start_rev, end_rev) ->
  run (rev_list_cmd (self st) start_rev end_rev) (world st)
  = (mkCompleted true revs, w1) ->
  readlines revs = first :: others ->
  run (notes_show_cmd (self st) (strip first)) w1 = (mkCompleted true out, w2) ->
  first_reviewed_by (splitlines out) review_url line ->
  exists n w',
    update_commits_with_reviewer_info run options review_url st
    = Done (n, mkState (self st) w'
                 (log st
                  ++ [rev_list_cmd (self st) start_rev end_rev;
                      notes_show_cmd (self st) (strip first)]
                  ++ map (fun commit =>
                            mkCall [git (self st); "notes"; "edit"; commit]
                                   (Some (edit_program line)))
                         (map strip others))%list)
    /\ 1 <= n <= 1 + length others.
Proof.
  intros Hrange Hrevs Hlines Hshow Hfirst.
  destruct (reviewed_by_line_adopted_steps st options review_url start_rev
              end_rev revs first out line others w1 w2
              Hrange Hrevs Hlines Hshow Hfirst)
    as (Hstep & n & w' & E & Hn).
  exists n, w'. rewrite Hstep. now split.
Qed.

End AnyWorld.

End AnnotatorFacts.

(* ===================================================================== *)
(** * Versions and repository paths *)
(* ===================================================================== *)

Module PathFacts.

Import Py Git.

(** C10. [is_valid_version(actual, expected)] is true exactly when the
    triple [actual] is greater than or equal to [expected] in the
    lexicographic order of tuples; this holds for all integers, the natural
    numbers among them. *)
Theorem is_valid_version_lexicographic (actual expected : Z * Z * Z) :
  is_valid_version actual expected = true
  <-> tuple_compare (version_tuple actual) (version_tuple expected) <> Lt.
Proof.
  destruct actual as [[a0 a1] a2], expected as [[e0 e1] e2].
  unfold is_valid_version, version_tuple, tuple_compare.
  rewrite !orb_true_iff, !andb_true_iff.
  rewrite !Z.gtb_ltb, !Z.ltb_lt, !Z.eqb_eq, Z.geb_le.
  destruct (Z.compare_spec a0 e0) as [H0|H0|H0];
    destruct (Z.compare_spec a1 e1) as [H1|H1|H1];
    destruct (Z.compare_spec a2 e2) as [H2|H2|H2];
    split; intros Hv; solve [congruence | lia | exfalso; lia].
Qed.

(** A URL that the expression does not match is returned as it is. *)
Lemma github_paths_other (url : string) :
  GithubRe.github_re_match url = None ->
  _github_paths url = PathStr url /\ paths_of (_github_paths url) = [url].
Proof. intros H. unfold _github_paths. now rewrite H. Qed.

(** What C8 asks for holds for a repository such as Khan/rbtools, given in
    any of its forms. *)
Lemma github_paths_rbtools :
  Forall (fun url => _github_paths url = PathList (github_forms "Khan/rbtools")
                     /\ In url (github_forms "Khan/rbtools"))
         (github_forms "Khan/rbtools").
Proof.
  unfold github_forms; simpl flat_map.
  repeat (apply Forall_cons;
          [split; [vm_compute; reflexivity
                  | vm_compute; repeat (first [left; reflexivity | right])]|]).
  apply Forall_nil.
Qed.

(** C8 fails on the code. [https://github.com/git/git] is a GitHub URL, and
    its eight forms are those of the repository [git/git]; but the dot of
    [(.git)?] is not escaped, so the final [/git] is taken for the suffix and
    the forms returned are those of [git]: the URL given is not among them,
    nor is any form of [git/git]. *)
Theorem github_paths_git_suffix :
  _github_paths "https://github.com/git/git" = PathList (github_forms "git")
  /\ ~ In "https://github.com/git/git"
          (paths_of (_github_paths "https://github.com/git/git"))
  /\ (forall url, In url (github_forms "git/git") ->
                  ~ In url (paths_of (_github_paths
                                        "https://github.com/git/git"))).
Proof.
  split; [reflexivity|]. split.
  - vm_compute. intros H.
    repeat (destruct H as [H|H]; [discriminate|]). exact H.
  - intros url Hin. vm_compute in Hin.
    repeat (destruct Hin as [<-|Hin]; [
      vm_compute; intros H;
      repeat (destruct H as [H|H]; [discriminate|]); exact H |]).
    destruct Hin.
Qed.

End PathFacts.

(* ===================================================================== *)
(** * More on the SVN diff translator *)
(* ===================================================================== *)

Module TranslatorFacts.

Import Py Proc Git Spec MoreSpec PyFacts SvnFacts.

(** X1. The loop of the translator fails exactly when some line that starts
    with [diff ] has fewer than three fields between single spaces, and
    then with [IndexError]; on every other diff it runs to the end. *)
Theorem svn_loop_raises_iff (rev : string) (lines : list string)
  (st : svn_state) :
  (headers_ok lines = false <-> svn_loop rev lines st = inl IndexError)
  /\ (headers_ok lines = true <-> exists st', svn_loop rev lines st = inr st')
  /\ (forall e, svn_loop rev lines st = inl e -> e = IndexError).
Proof.
  split; [|split].
  - split.
    + intros H. destruct (svn_loop rev lines st) as [e|st'] eqn:E.
      * now destruct (svn_loop_error _ _ _ _ E) as [-> _].
      * apply svn_loop_done_headers_ok in E. congruence.
    + intros H. now destruct (svn_loop_error _ _ _ _ H).
  - split.
    + apply svn_loop_ok.
    + intros [st' H]. exact (svn_loop_done_headers_ok _ _ _ _ H).
  - intros e H. now destruct (svn_loop_error _ _ _ _ H).
Qed.

Lemma plain_line_copied (rev : string) (st : svn_state) (line : string) :
  plain_line line = true ->
  svn_line rev st line
  = inr (mkSvn (diff_data st ++ line) (filename st) (newfile st)).
Proof.
  unfold plain_line, classified. intros H. apply negb_true_iff in H.
  repeat (apply orb_false_iff in H; destruct H as [H ?]).
  unfold svn_line.
  repeat match goal with
         | E : ?b = false |- context [if ?b then _ else _] => rewrite E
         end.
  reflexivity.
Qed.

(** X2. Lines of no recognised kind, the text of the hunks, go through the
    translator unchanged and in order, and leave the file name and the
    new-file flag as they were. *)
Theorem svn_plain_lines_copied (rev : string) (lines : list string)
  (st : svn_state) :
  forallb plain_line lines = true ->
  svn_loop rev lines st
  = inr (mkSvn (diff_data st ++ join_all lines) (filename st) (newfile st)).
Proof.
  revert st; induction lines as [|l lines IH]; intros st H.
  - cbn. rewrite append_nil_r. now destruct st.
  - cbn [forallb] in H. apply andb_true_iff in H as [Hl Hr].
    cbn [svn_loop]. rewrite (plain_line_copied rev st l Hl).
    rewrite (IH _ Hr). cbn [diff_data filename newfile join_all].
    now rewrite append_assoc.
Qed.

Lemma svn_plain_lines_copied_witness :
  svn_loop "1234" Examples.changed_file_body
    (mkSvn "head" "src/main.c" false)
  = inr (mkSvn ("head" ++ join_all Examples.changed_file_body)
               "src/main.c" false).
Proof.
  exact (svn_plain_lines_copied "1234" Examples.changed_file_body
           (mkSvn "head" "src/main.c" false) eq_refl).
Defined.

End TranslatorFacts.

(* ===================================================================== *)
(** * More on the diff pipeline *)
(* ===================================================================== *)

Module RangeFacts.

Import Py Proc Git Spec MoreSpec PyFacts SvnFacts ProcFacts DiffFacts.

Section Ranges.

Context {World : Type}.
Variable run : Call -> World -> Completed * World.

Lemma execute_lines_inv (cmd : list string) (st st' : State GitClient World)
  (lines : list string) :
  execute_lines run cmd st = Done (lines, st') ->
  exists out w, run (mkCall cmd None) (world st) = (mkCompleted true out, w)
                /\ lines = readlines out
                /\ st' = after st (mkCall cmd None) w.
Proof.
  unfold execute_lines, bind, spawn.
  destruct (run (mkCall cmd None) (world st)) as [[[|] o] w]; simpl;
    intros H; inversion H; subst. eauto.
Qed.

Lemma get_self_inv {A} (k : GitClient -> M GitClient World A)
  (st st' : State GitClient World) (a : A) :
  bind get_self k st = Done (a, st') -> k (self st) st = Done (a, st').
Proof. intros H. exact H. Qed.

(** Making a diff leaves the client object as it is. *)
Lemma make_svn_diff_self (parent_branch : string) (lines : list string)
  (st st' : State GitClient World) (x : option string) :
  make_svn_diff run parent_branch lines st = Done (x, st') ->
  self st' = self st.
Proof.
  unfold make_svn_diff. intros H. apply get_self_inv in H.
  apply bind_inv in H as (out & s1 & He & H).
  apply execute_inv in He as (w & _ & ->).
  destruct (negb (truthy (strip out))).
  - inversion H; subst. reflexivity.
  - destruct (svn_loop (strip out) lines svn_init); inversion H; subst.
    reflexivity.
Qed.

Lemma make_diff_self (ancestor commit : string)
  (st st' : State GitClient World) (x : option string) :
  make_diff run ancestor commit st = Done (x, st') -> self st' = self st.
Proof.
  unfold make_diff. intros H. apply get_self_inv in H.
  destruct (type (self st) =? "svn").
  - apply bind_inv in H as (ls & s1 & He & H).
    apply execute_lines_inv in He as (out & w & _ & _ & ->).
    now apply make_svn_diff_self in H.
  - destruct (type (self st) =? "git").
    + apply bind_inv in H as (d & s1 & He & H).
      apply execute_inv in He as (w & _ & ->).
      inversion H; subst. reflexivity.
    + inversion H; subst. reflexivity.
Qed.

Lemma head_ref_or_HEAD_truthy (c : GitClient) :
  truthy (head_ref_or_HEAD c) = true.
Proof.
  unfold head_ref_or_HEAD. now destruct (truthy (head_ref c)) eqn:E.
Qed.

(** X3. With no parent branch in the options, [diff] asks for the merge
    base of the upstream branch and the head, and returns the diff of the
    range (merge_base, head] and no parent diff. The head is the head ref
    of the client, and [HEAD] when the client has none. Natively the
    primary diff is what [git diff <merge_base>..<head>] prints. *)
Theorem diff_simple_mode (st st2 st3 : State GitClient World)
  (mb head : string) (w1 : World) (d : option string) :
  truthy_opt (parent_branch (options (self st))) = false ->
  (truthy (head_ref (self st)) = true /\ head = head_ref (self st))
  \/ (head_ref (self st) = EmptyString /\ head = "HEAD") ->
  let merge_base_call :=
    mkCall [git (self st); "merge-base"; upstream_branch (self st); head]
           None in
  run merge_base_call (world st) = (mkCompleted true mb, w1) ->
  let st1 := mkState (set_merge_base (strip mb) (self st)) w1
               (log st ++ [merge_base_call])%list in
  make_diff run (strip mb) head st1 = Done (d, st2) ->
  _set_guesses run (strip mb, "HEAD")
    (with_self (set_rev_range_for_diff (strip mb, "HEAD")) st2)
  = Done (tt, st3) ->
  diff run st = Done ((d, None), st3)
  /\ (type (self st) = "git" ->
      exists out w,
        run (native_diff_cmd (self st) (strip mb ++ ".." ++ head)) w1
        = (mkCompleted true out, w)
        /\ d = Some out).
Proof.
  intros HP Hhead merge_base_call Hmb st1 Hd Hg.
  change st1 with (with_self (set_merge_base (strip mb))
                     (after st merge_base_call w1)) in Hd.
  clear st1.
  set (st1 := with_self (set_merge_base (strip mb))
                (after st merge_base_call w1)) in *.
  assert (Eh : head_ref_or_HEAD (self st) = head).
  { unfold head_ref_or_HEAD.
    destruct Hhead as [[Ht ->]|[He ->]]; [now rewrite Ht | now rewrite He]. }
  assert (Th : truthy head = true).
  { destruct Hhead as [[Ht ->]|[_ ->]]; [exact Ht | reflexivity]. }
  split.
  - unfold diff.
    rewrite (bind_done _ _ st st (self st) eq_refl).
    rewrite HP, Eh.
    rewrite (bind_done _ _ _ _ _ (execute_done run _ _ _ _ _ Hmb)).
    rewrite (bind_done _ _ _ st1 tt eq_refl).
    rewrite (bind_done _ _ st1 st1 (self st1) eq_refl).
    rewrite (bind_done _ _ st1 st2 (d, None)).
    2:{ now rewrite (bind_done _ _ _ _ _ Hd). }
    assert (E : or_else (parent_branch (options (self st)))
                  (merge_base (self st1)) = strip mb).
    { unfold or_else. destruct (parent_branch (options (self st))) as [p|];
        [|reflexivity]. cbn [truthy_opt] in HP. now rewrite HP. }
    rewrite E.
    rewrite (bind_done _ _ st2 _ tt eq_refl).
    now rewrite (bind_done _ _ _ _ _ Hg).
  - intros Ht.
    apply make_diff_native_inv in Hd as (out & w & Ho & -> & _);
      [|exact Ht].
    unfold rev_range_arg in Ho. rewrite Th in Ho.
    exists out, w. auto.
Qed.

(** What [diff] leaves in the client object when it returns. *)
Lemma diff_inv (st st' : State GitClient World)
  (r : option string * option string) :
  diff run st = Done (r, st') ->
  exists mb w1,
    run (merge_base_cmd (self st)) (world st) = (mkCompleted true mb, w1)
    /\ same_but_options (self st')
         (set_rev_range_for_diff
            (or_else (parent_branch (options (self st))) (strip mb), "HEAD")
            (set_merge_base (strip mb) (self st))).
Proof.
  unfold diff. intros H. apply get_self_inv in H.
  apply bind_inv in H as (mb & s1 & He & H).
  apply execute_inv in He as (w1 & Hmb & ->).
  exists mb, w1. split; [exact Hmb|].
  apply bind_inv in H as ([] & s2 & Hm & H).
  inversion Hm; subst s2; clear Hm.
  apply get_self_inv in H.
  apply bind_inv in H as (lines & s3 & Hl & H).
  assert (Hs3 : self s3 = set_merge_base (strip mb) (self st)).
  { destruct (truthy_opt (parent_branch (options (self st)))).
    - apply bind_inv in Hl as (d & t1 & Hd & Hl).
      apply bind_inv in Hl as (pd & t2 & Hpd & Hl).
      inversion Hl; subst. apply make_diff_self in Hd, Hpd.
      now rewrite Hpd, Hd.
    - apply bind_inv in Hl as (d & t1 & Hd & Hl).
      inversion Hl; subst. apply make_diff_self in Hd. now rewrite Hd. }
  apply bind_inv in H as ([] & s4 & Hm & H).
  inversion Hm; subst s4; clear Hm.
  apply bind_inv in H as ([] & s5 & Hg & H).
  inversion H; subst. apply set_guesses_self in Hg.
  cbn [self] in Hg. rewrite Hs3 in Hg. exact Hg.
Qed.

(** X7. Whenever [diff] returns, the client has recorded the stripped
    output of [git merge-base] as its merge base and, for the annotator, the
    range from the parent branch (the merge base when there is none) to
    [HEAD]; the command, the kind of repository, the upstream branch and the
    head ref of the client are as before. *)
Theorem diff_records_range (st st' : State GitClient World)
  (r : option string * option string) :
  diff run st = Done (r, st') ->
  exists mb w1,
    run (merge_base_cmd (self st)) (world st) = (mkCompleted true mb, w1)
    /\ merge_base (self st') = strip mb
    /\ rev_range_for_diff (self st')
       = Some (or_else (parent_branch (options (self st))) (strip mb), "HEAD")
    /\ git (self st') = git (self st)
    /\ type (self st') = type (self st)
    /\ upstream_branch (self st') = upstream_branch (self st)
    /\ head_ref (self st') = head_ref (self st).
Proof.
  intros H. destruct (diff_inv _ _ _ H) as (mb & w1 & Hmb & Hs).
  exists mb, w1. destruct Hs as (Hg & Ht & Hu & Hh & Hm & Hr).
  repeat split; assumption.
Qed.

(** What [diff_between_revisions] does after the merge base is known and
    the range has been split. *)
Lemma between_revisions_step (R mb : string) (st : State GitClient World)
  (w1 : World) :
  run (merge_base_cmd (self st)) (world st) = (mkCompleted true mb, w1) ->
  let st1 := with_self (set_merge_base (strip mb))
               (after st (merge_base_cmd (self st)) w1) in
  diff_between_revisions run R st
  = if negb (contains_char R ":") then
      bind (execute run [git (self st); "branch"; "-r"; "--contains"; R] false)
        (fun pdiff_required =>
           bind (if negb (truthy pdiff_required)
                 then make_diff run (strip mb) R else ret None)
             (fun parent_diff_lines =>
                bind (modify_self (set_rev_range_for_diff (R, "HEAD")))
                  (fun _ => bind (_set_guesses run (R, "HEAD"))
                     (fun _ => bind (make_diff run R EmptyString)
                        (fun diff_lines =>
                           ret (diff_lines, parent_diff_lines)))))) st1
    else
      match split ":" R with
      | [r1; r2] =>
          bind (execute run [git (self st); "branch"; "-r"; "--contains"; r1]
                  false)
            (fun pdiff_required =>
               bind (if negb (truthy pdiff_required)
                     then make_diff run (strip mb) r1 else ret None)
                 (fun parent_diff_lines =>
                    bind (modify_self (set_rev_range_for_diff (r1, r2)))
                      (fun _ => bind (_set_guesses run (r1, r2))
                         (fun _ => bind (make_diff run r1 r2)
                            (fun diff_lines =>
                               ret (diff_lines, parent_diff_lines)))))) st1
      | _ => Raised ValueError
      end.
Proof.
  intros Hmb st1. unfold diff_between_revisions.
  rewrite (bind_done _ _ st st (self st) eq_refl).
  rewrite (bind_done _ _ _ _ _ (execute_done run _ _ _ _ _ Hmb)).
  rewrite (bind_done _ _ _ st1 tt eq_refl).
  rewrite (bind_done _ _ st1 st1 (self st1) eq_refl).
  destruct (negb (contains_char R ":")); [reflexivity|].
  destruct (split ":" R) as [|r1 [|r2 [|r3 l]]]; reflexivity.
Qed.

(** X8. In explicit double-revision mode, a range [R1:R2] with one colon,
    the primary diff is [make_diff] of the range (R1, R2] and the range
    recorded for the annotator is (R1, R2). A parent diff, [make_diff] of
    (merge_base, R1], is made when the containment query on R1 prints
    nothing; otherwise the parent diff is [None]. *)
Theorem diff_between_revisions_double (st : State GitClient World)
  (R r1 r2 mb c : string) (w1 w2 : World) :
  contains_char R ":" = true ->
  split ":" R = [r1; r2] ->
  run (merge_base_cmd (self st)) (world st) = (mkCompleted true mb, w1) ->
  run (contains_cmd (self st) r1) w1 = (mkCompleted true c, w2) ->
  let st2 := after (with_self (set_merge_base (strip mb))
                      (after st (merge_base_cmd (self st)) w1))
                   (contains_cmd (self st) r1) w2 in
  let ranged := with_self (set_rev_range_for_diff (r1, r2)) in
  forall (pd d : option string) (st3 st4 st5 : State GitClient World),
    (if truthy c then (pd, st3) = (None, st2)
     else make_diff run (strip mb) r1 st2 = Done (pd, st3)) ->
    _set_guesses run (r1, r2) (ranged st3) = Done (tt, st4) ->
    make_diff run r1 r2 st4 = Done (d, st5) ->
    diff_between_revisions run R st = Done ((d, pd), st5)
    /\ rev_range_for_diff (self st5) = Some (r1, r2)
    /\ merge_base (self st5) = strip mb.
Proof.
  intros HR Hsplit Hmb Hc st2 ranged pd d st3 st4 st5 Hpd Hg Hd.
  assert (Hself3 : self st3 = self st2).
  { destruct (truthy c).
    - now inversion Hpd.
    - now apply make_diff_self in Hpd. }
  split.
  - rewrite (between_revisions_step R mb st w1 Hmb).
    rewrite HR, Hsplit. cbn [negb].
    set (st1 := with_self (set_merge_base (strip mb))
                  (after st (merge_base_cmd (self st)) w1)).
    rewrite (bind_done _ _ _ _ _ (execute_done run _ false st1 c w2 Hc)).
    fold (contains_cmd (self st) r1). fold st2.
    rewrite (bind_done _ _ st2 st3 pd).
    2:{ destruct (truthy c); cbn [negb]; [now inversion Hpd | exact Hpd]. }
    rewrite (bind_done _ _ st3 (ranged st3) tt eq_refl).
    rewrite (bind_done _ _ _ _ _ Hg).
    now rewrite (bind_done _ _ _ _ _ Hd).
  - apply make_diff_self in Hd. apply set_guesses_self in Hg.
    destruct Hg as (_ & _ & _ & _ & Hm & Hr).
    rewrite Hd, Hm, Hr. cbn. rewrite Hself3. split; reflexivity.
Qed.

(** X9. A range with two colons or more cannot be unpacked into two
    revisions: once the merge base is known, [diff_between_revisions]
    raises [ValueError]. *)
Theorem diff_between_revisions_value_error (st : State GitClient World)
  (R mb : string) (w1 : World) :
  contains_char R ":" = true ->
  2 < length (split ":" R) ->
  run (merge_base_cmd (self st)) (world st) = (mkCompleted true mb, w1) ->
  diff_between_revisions run R st = Raised ValueError.
Proof.
  intros HR Hlen Hmb.
  rewrite (between_revisions_step R mb st w1 Hmb). rewrite HR. cbn [negb].
  destruct (split ":" R) as [|r1 [|r2 [|r3 l]]]; cbn [length] in Hlen;
    try lia; reflexivity.
Qed.

(** X10. For the SVN bridge, [make_diff] first runs [git diff] and then asks
    for the SVN revision of the ancestor, not of the commit: when the
    ancestor has none, the result is [None] whatever the diff was; else the
    lines of the diff are translated with that revision. *)
Theorem make_diff_bridge_revision (ancestor commit : string)
  (st : State GitClient World) (out rev_out : string) (w1 w2 : World) :
  type (self st) = "svn" ->
  run (svn_diff_cmd (self st) (rev_range_arg ancestor commit)) (world st)
  = (mkCompleted true out, w1) ->
  run (find_rev_cmd (self st) ancestor) w1 = (mkCompleted true rev_out, w2) ->
  let st2 := mkState (self st) w2
               (log st ++ [svn_diff_cmd (self st)
                             (rev_range_arg ancestor commit);
                           find_rev_cmd (self st) ancestor])%list in
  (strip rev_out = EmptyString ->
   make_diff run ancestor commit st = Done (None, st2))
  /\ (strip rev_out <> EmptyString ->
      make_diff run ancestor commit st
      = match svn_loop (strip rev_out) (readlines out) svn_init with
        | inl e => Raised e
        | inr final => Done (Some (diff_data final), st2)
        end).
Proof.
  intros Ht Hd Hr st2.
  rewrite (make_diff_bridge run ancestor commit st out w1 Ht Hd).
  unfold make_svn_diff.
  rewrite (bind_done _ _ _ _ _ eq_refl).
  set (st1 := after st (svn_diff_cmd (self st)
                          (rev_range_arg ancestor commit)) w1).
  rewrite (bind_done _ _ _ _ _
             (execute_done run _ false st1 rev_out w2 Hr)).
  assert (E : forall c, after st1 c w2
                        = mkState (self st) w2
                            (log st ++ [svn_diff_cmd (self st)
                                          (rev_range_arg ancestor commit); c])
                            %list).
  { intros c. unfold st1, after; cbn. now rewrite <- app_assoc. }
  rewrite E. fold (find_rev_cmd (self st) ancestor). fold st2. split.
  - intros ->. reflexivity.
  - intros Hne. destruct (strip rev_out); [congruence|]. cbn [truthy negb].
    now destruct (svn_loop _ (readlines out) svn_init).
Qed.

End Ranges.

(** A clone with a detached head: the range ends at [HEAD]. *)
Lemma diff_simple_mode_witness :
  diff (Script.run MoreExamples.detached_repo)
    (Examples.start MoreExamples.detached_client tt)
  = Done ((Some "changes of the detached head", None),
          mkState
            (set_rev_range_for_diff ("4f2a", "HEAD")
               (set_merge_base "4f2a" MoreExamples.detached_client))
            tt
            [mkCall ["git"; "merge-base"; "origin/master"; "HEAD"] None;
             native_diff_cmd MoreExamples.detached_client "4f2a..HEAD"])
  /\ (type MoreExamples.detached_client = "git" ->
      exists out w,
        Script.run MoreExamples.detached_repo
          (native_diff_cmd MoreExamples.detached_client "4f2a..HEAD") tt
        = (mkCompleted true out, w)
        /\ Some "changes of the detached head" = Some out).
Proof.
  exact (diff_simple_mode (Script.run MoreExamples.detached_repo)
           (Examples.start MoreExamples.detached_client tt) _ _
           ("4f2a" ++ nl) "HEAD" tt (Some "changes of the detached head")
           eq_refl (or_intror (conj eq_refl eq_refl))
           eq_refl eq_refl eq_refl).
Defined.

Lemma diff_records_range_witness :
  exists mb w1,
    Script.run Examples.stacked_repo
      (merge_base_cmd Examples.stacked_client) tt
    = (mkCompleted true mb, w1)
    /\ merge_base (self MoreExamples.after_stacked_diff) = strip mb
    /\ rev_range_for_diff (self MoreExamples.after_stacked_diff)
       = Some ("topic", "HEAD")
    /\ git (self MoreExamples.after_stacked_diff) = "git"
    /\ type (self MoreExamples.after_stacked_diff) = "git"
    /\ upstream_branch (self MoreExamples.after_stacked_diff)
       = "origin/master"
    /\ head_ref (self MoreExamples.after_stacked_diff) = "refs/heads/feature".
Proof.
  refine (diff_records_range (Script.run Examples.stacked_repo)
            (Examples.start Examples.stacked_client tt)
            MoreExamples.after_stacked_diff
            (Some "committed and uncommitted changes",
             Some "changes of topic") _).
  vm_compute; reflexivity.
Defined.

Lemma diff_between_revisions_double_witness :
  exists st',
    diff_between_revisions (Script.run MoreExamples.double_repo) "77aa:9c1d"
      (Examples.start Examples.plain_client tt)
    = Done ((Some "changes from 77aa to 9c1d", None), st')
    /\ rev_range_for_diff (self st') = Some ("77aa", "9c1d").
Proof.
  eexists.
  refine ((fun H => conj (proj1 H) (proj1 (proj2 H)))
    (diff_between_revisions_double (Script.run MoreExamples.double_repo)
       (Examples.start Examples.plain_client tt)
       "77aa:9c1d" "77aa" "9c1d" ("4f2a" ++ nl) ("  origin/master" ++ nl)
       tt tt eq_refl eq_refl eq_refl eq_refl _ _ _ _ _ _ _ _));
    vm_compute; reflexivity.
Defined.

Lemma diff_between_revisions_value_error_witness :
  diff_between_revisions (Script.run MoreExamples.double_repo)
    "77aa:9c1d:HEAD" (Examples.start Examples.plain_client tt)
  = Raised ValueError.
Proof.
  refine (diff_between_revisions_value_error
            (Script.run MoreExamples.double_repo)
            (Examples.start Examples.plain_client tt)
            "77aa:9c1d:HEAD" ("4f2a" ++ nl) tt eq_refl _ eq_refl).
  vm_compute; lia.
Defined.

Lemma make_diff_bridge_revision_witness :
  make_diff (Script.run Examples.local_svn_repo) "b45e" "9c1d"
    (Examples.start Examples.local_svn_client tt)
  = Done (None,
          mkState Examples.local_svn_client tt
            [svn_diff_cmd Examples.local_svn_client "b45e..9c1d";
             find_rev_cmd Examples.local_svn_client "b45e"]).
Proof.
  refine (proj1
    (make_diff_bridge_revision (Script.run Examples.local_svn_repo)
       "b45e" "9c1d" (Examples.start Examples.local_svn_client tt)
       ("diff --git a.txt a.txt" ++ nl) EmptyString tt tt
       eq_refl eq_refl eq_refl) eq_refl).
Defined.

End RangeFacts.

(* ===================================================================== *)
(** * More on the commit annotator *)
(* ===================================================================== *)

Module RunFacts.

Import Py Proc Git Spec MoreSpec PyFacts ProcFacts AnnotatorFacts.

Section AnyWorld.

Context {World : Type}.
Variable run : Call -> World -> Completed * World.

(** What the annotator does once [git rev-list] has listed commits: it
    looks at the notes of the oldest and edits the others, or all of them,
    with one text. *)
Lemma update_on_commits (options : Options) (url a b : string)
  (st : State GitClient World) (r : Completed) (w1 : World)
  (first : string) (others : list string) :
  rev_range_for_diff (self st) = Some (a, b) ->
  run (rev_list_cmd (self st) a b) (world st) = (r, w1) ->
  ok r = true ->
  readlines (data r) = first :: others ->
  exists n w' text edited,
    update_commits_with_reviewer_info run options url st
    = Done (n, mkState (self st) w'
                 (log st
                  ++ [rev_list_cmd (self st) a b;
                      notes_show_cmd (self st) (strip first)]
                  ++ map (notes_edit_cmd (self st) text) edited)%list)
    /\ n <= S (length others)
    /\ (edited = map strip others \/ edited = map strip (first :: others)).
Proof.
  intros Hrange Hrevs Hok Hlines.
  unfold update_commits_with_reviewer_info.
  rewrite (bind_done _ _ st st (self st) eq_refl). rewrite Hrange.
  unfold bind at 1. rewrite execute_lines_or_none_run.
  fold (rev_list_cmd (self st) a b).
  rewrite Hrevs, Hok, Hlines. cbn [map hd tl].
  unfold bind at 1. rewrite execute_or_none_run.
  cbn [world after]. fold (notes_show_cmd (self st) (strip first)).
  destruct (run (notes_show_cmd (self st) (strip first)) w1) as [r2 w2].
  set (st2 := after (after st (rev_list_cmd (self st) a b) w1)
                    (notes_show_cmd (self st) (strip first)) w2).
  match goal with
  | |- context [match ?found with Some _ => _ | None => _ end] =>
      destruct found as [line|]
  end.
  - destruct (edit_notes_log run (git (self st)) (git_editor_cmd line)
                (map strip others) 1 st2) as (n & w' & E & Hn).
    exists n, w', line, (map strip others). rewrite E.
    rewrite length_map in Hn. split; [|split; [lia | now left]].
    rewrite editor_is_program.
    unfold st2, after; simpl. rewrite <- !app_assoc. reflexivity.
  - destruct (edit_notes_log run (git (self st))
                (git_editor_cmd (build_reviewed_by options url))
                (strip first :: map strip others) 0 st2)
      as (n & w' & E & Hn).
    exists n, w', (build_reviewed_by options url),
      (map strip (first :: others)).
    rewrite E. cbn [length] in Hn. rewrite length_map in Hn.
    split; [|split; [lia | now right]].
    rewrite editor_is_program.
    unfold st2, after; simpl. rewrite <- !app_assoc. reflexivity.
Qed.

Lemma update_without_range (options : Options) (url : string)
  (st : State GitClient World) :
  rev_range_for_diff (self st) = None ->
  update_commits_with_reviewer_info run options url st = Done (0, st).
Proof.
  intros H. unfold update_commits_with_reviewer_info.
  rewrite (bind_done _ _ st st (self st) eq_refl). now rewrite H.
Qed.

Lemma update_without_commits (options : Options) (url a b : string)
  (st : State GitClient World) (r : Completed) (w1 : World) :
  rev_range_for_diff (self st) = Some (a, b) ->
  run (rev_list_cmd (self st) a b) (world st) = (r, w1) ->
  ok r = false \/ readlines (data r) = [] ->
  update_commits_with_reviewer_info run options url st
  = Done (0, after st (rev_list_cmd (self st) a b) w1).
Proof.
  intros Hrange Hrun Hnone.
  unfold update_commits_with_reviewer_info.
  rewrite (bind_done _ _ st st (self st) eq_refl). rewrite Hrange.
  unfold bind at 1. rewrite execute_lines_or_none_run.
  fold (rev_list_cmd (self st) a b). rewrite Hrun.
  destruct (ok r); [|reflexivity].
  destruct Hnone as [Hf|He]; [discriminate|]. now rewrite He.
Qed.

(** X4. The annotator returns 0 and runs no notes command when no diff has
    recorded a range (it then runs nothing at all), when [git rev-list]
    fails on the range, and when it lists no commit. *)
Theorem annotator_nothing_to_do (options : Options) (url : string)
  (st : State GitClient World) :
  (rev_range_for_diff (self st) = None ->
   update_commits_with_reviewer_info run options url st = Done (0, st))
  /\ (forall a b r w1,
        rev_range_for_diff (self st) = Some (a, b) ->
        run (rev_list_cmd (self st) a b) (world st) = (r, w1) ->
        ok r = false \/ readlines (data r) = [] ->
        update_commits_with_reviewer_info run options url st
        = Done (0, after st (rev_list_cmd (self st) a b) w1)).
Proof.
  split.
  - apply update_without_range.
  - intros a b r w1. apply update_without_commits.
Qed.

(** X5. Whatever the commands answer, the annotator returns: it never ends
    the process and never raises. It leaves the client object as it is and
    counts at most one update per commit that [git rev-list] lists. *)
Theorem annotator_never_fails (options : Options) (url : string)
  (st : State GitClient World) :
  exists n st',
    update_commits_with_reviewer_info run options url st = Done (n, st')
    /\ self st' = self st
    /\ (forall a b r w1,
          rev_range_for_diff (self st) = Some (a, b) ->
          run (rev_list_cmd (self st) a b) (world st) = (r, w1) ->
          n <= length (readlines (data r))).
Proof.
  pose proof (update_without_range options url st) as Hnone.
  pose proof (fun a b r w1 H => update_without_commits options url a b st r w1 H)
    as Hzero.
  destruct (rev_range_for_diff (self st)) as [[a b]|] eqn:Hrange.
  - destruct (run (rev_list_cmd (self st) a b) (world st)) as [r w1] eqn:Hrun.
    destruct (ok r) eqn:Hok.
    + destruct (readlines (data r)) as [|first others] eqn:Hlines.
      * exists 0, (after st (rev_list_cmd (self st) a b) w1).
        split; [apply (Hzero a b r w1 eq_refl Hrun); now right|].
        split; [reflexivity|]. intros; lia.
      * destruct (update_on_commits options url a b st r w1 first others
                    Hrange Hrun Hok Hlines)
          as (n & w' & text & edited & E & Hn & _).
        eexists n, _. split; [exact E|]. split; [reflexivity|].
        intros a' b' r' w1' Ha Hr'. injection Ha as <- <-.
        rewrite Hrun in Hr'. injection Hr' as <- <-.
        rewrite Hlines. cbn [length]. exact Hn.
    + exists 0, (after st (rev_list_cmd (self st) a b) w1).
      split; [apply (Hzero a b r w1 eq_refl Hrun); now left|].
      split; [reflexivity|]. intros; lia.
  - exists 0, st. split; [now apply Hnone|]. split; [reflexivity|].
    intros; discriminate.
Qed.

(** X6. When the notes of the oldest commit cannot be shown, or hold no
    line that starts with [Reviewed-By: ] and contains the review url, the
    annotator runs [git notes edit] on every commit of the range, the
    oldest first, under a [GIT_EDITOR] whose perl program prints the line
    [Reviewed-By: <people> and groups:<groups> <<url>>], with the parts
    for the people and the groups left out when they are not given. *)
Theorem annotator_fresh_range (st : State GitClient World)
  (options : Options) (url a b : string) (revs first : string)
  (others : list string) (r2 : Completed) (w1 w2 : World) :
  rev_range_for_diff (self st) = Some (a, b) ->
  run (rev_list_cmd (self st) a b) (world st) = (mkCompleted true revs, w1) ->
  readlines revs = first :: others ->
  run (notes_show_cmd (self st) (strip first)) w1 = (r2, w2) ->
  ok r2 = false
  \/ forallb (fun l => negb (is_reviewed_by url l)) (splitlines (data r2))
     = true ->
  exists n w',
    update_commits_with_reviewer_info run options url st
    = Done (n, mkState (self st) w'
                 (log st
                  ++ [rev_list_cmd (self st) a b;
                      notes_show_cmd (self st) (strip first)]
                  ++ map (fun commit =>
                            mkCall [git (self st); "notes"; "edit"; commit]
                              (Some (edit_program
                                       (reviewed_by_text
                                          (target_people options)
                                          (target_groups options) url))))
                         (map strip (first :: others)))%list)
    /\ n <= S (length others).
Proof.
  intros Hrange Hrevs Hlines Hshow Hnone.
  unfold update_commits_with_reviewer_info.
  rewrite (bind_done _ _ st st (self st) eq_refl). rewrite Hrange.
  unfold bind at 1. rewrite execute_lines_or_none_run.
  fold (rev_list_cmd (self st) a b).
  rewrite Hrevs. cbn [ok data]. rewrite Hlines. cbn [map hd tl].
  unfold bind at 1. rewrite execute_or_none_run.
  cbn [world after]. fold (notes_show_cmd (self st) (strip first)).
  rewrite Hshow.
  set (st2 := after (after st (rev_list_cmd (self st) a b) w1)
                    (notes_show_cmd (self st) (strip first)) w2).
  assert (Hfound :
    (if truthy_opt (if ok r2 then Some (data r2) else None)
     then find_reviewed_by
            (splitlines (or_else (if ok r2 then Some (data r2) else None)
                                 EmptyString)) url
     else None) = None).
  { destruct (ok r2); [|reflexivity].
    destruct Hnone as [Hf|Hf]; [discriminate|].
    cbn [truthy_opt or_else].
    destruct (truthy (data r2)); [|reflexivity].
    now apply find_reviewed_by_none. }
  rewrite Hfound.
  destruct (edit_notes_log run (git (self st))
              (git_editor_cmd (build_reviewed_by options url))
              (strip first :: map strip others) 0 st2)
    as (n & w' & E & Hn).
  exists n, w'. rewrite E. cbn [length] in Hn. rewrite length_map in Hn.
  split; [|lia]. rewrite editor_is_program, build_reviewed_by_is_text.
  unfold st2, after; simpl. rewrite <- !app_assoc. reflexivity.
Qed.

(** The first command of the annotator lists the commits of the range
    the client has recorded. *)
Lemma update_first_command (options : Options) (url a b : string)
  (st : State GitClient World) :
  rev_range_for_diff (self st) = Some (a, b) ->
  exists n st' more,
    update_commits_with_reviewer_info run options url st = Done (n, st')
    /\ log st' = (log st ++ rev_list_cmd (self st) a b :: more)%list.
Proof.
  intros Hrange.
  destruct (run (rev_list_cmd (self st) a b) (world st)) as [r w1] eqn:Hrun.
  destruct (ok r) eqn:Hok.
  - destruct (readlines (data r)) as [|first others] eqn:Hlines.
    + exists 0, (after st (rev_list_cmd (self st) a b) w1), [].
      split; [|reflexivity].
      apply (update_without_commits options url a b st r w1 Hrange Hrun).
      now right.
    + destruct (update_on_commits options url a b st r w1 first others
                  Hrange Hrun Hok Hlines)
        as (n & w' & text & edited & E & _).
      eexists n, _, _. split; [exact E|]. reflexivity.
  - exists 0, (after st (rev_list_cmd (self st) a b) w1), [].
    split; [|reflexivity].
    apply (update_without_commits options url a b st r w1 Hrange Hrun).
    now left.
Qed.

End AnyWorld.

End RunFacts.

(* ===================================================================== *)
(** * The annotator run again *)
(* ===================================================================== *)

Module RerunFacts.

Import Py Proc Git Spec MoreSpec PyFacts ProcFacts AnnotatorFacts RunFacts.

Section AnyWorld.

Context {World : Type}.
Variable run : Call -> World -> Completed * World.

(** The annotator leaves the client object as it is. *)
Lemma update_keeps_self (options : Options) (url : string)
  (st st' : State GitClient World) (n : nat) :
  update_commits_with_reviewer_info run options url st = Done (n, st') ->
  self st' = self st.
Proof.
  intros H.
  destruct (rev_range_for_diff (self st)) as [[a b]|] eqn:Hrange.
  - destruct (run (rev_list_cmd (self st) a b) (world st)) as [r w1] eqn:Hrun.
    destruct (ok r) eqn:Hok.
    + destruct (readlines (data r)) as [|first others] eqn:Hlines.
      * rewrite (update_without_commits run options url a b st r w1
                   Hrange Hrun (or_intror Hlines)) in H.
        now inversion H.
      * destruct (update_on_commits run options url a b st r w1 first others
                    Hrange Hrun Hok Hlines)
          as (n0 & w' & text & edited & E & _).
        rewrite E in H. now inversion H.
    + rewrite (update_without_commits run options url a b st r w1
                 Hrange Hrun (or_introl Hok)) in H.
      now inversion H.
  - rewrite (update_without_range run options url st Hrange) in H.
    now inversion H.
Qed.

(** The loop over the commits counts the edits that succeed. *)
Lemma edit_notes_count (g editor : string) (commits : list string) (n : nat)
  (st : State GitClient World) :
  exists st',
    edit_notes run g editor commits n st
    = Done (n + successes run
                  (map (fun commit =>
                          mkCall [g; "notes"; "edit"; commit] (Some editor))
                       commits) (world st), st').
Proof.
  revert n st; induction commits as [|c commits IH]; intros n st.
  - exists st. cbn. now rewrite Nat.add_0_r.
  - cbn [edit_notes map successes]. unfold bind at 1.
    rewrite execute_or_none_run.
    destruct (run _ (world st)) as [r w].
    destruct (IH (if ok r then S n else n)
                 (after st (mkCall [g; "notes"; "edit"; c] (Some editor)) w))
      as [st' E].
    exists st'. cbn [after world] in E.
    destruct (ok r); rewrite E; f_equal; f_equal; lia.
Qed.

(** No more commands succeed than are run. *)
Lemma successes_bound (calls : list Call) (w : World) :
  successes run calls w <= length calls.
Proof.
  revert w; induction calls as [|c calls IH]; intros w; cbn; [lia|].
  destruct (run c w) as [r w']. specialize (IH w'). destruct (ok r); lia.
Qed.

(** The [git notes edit] commands among commands that are all of them. *)
Lemma filter_notes_edits (g editor : string) (commits : list string) :
  filter is_notes_edit
    (map (fun commit => mkCall [g; "notes"; "edit"; commit] (Some editor))
         commits)
  = map (fun commit => mkCall [g; "notes"; "edit"; commit] (Some editor))
        commits.
Proof.
  induction commits as [|c commits IH]; [reflexivity|].
  cbn [map filter]. unfold is_notes_edit at 1. cbn [command].
  change ("notes" =? "notes") with true. change ("edit" =? "edit") with true.
  cbn [andb]. now rewrite IH.
Qed.

(** C7, amended. Take a range whose commits a first run of the annotator
    has all annotated, so that the note of its oldest commit shows a line
    for the review. A second run for the same review, whatever its people
    and groups, counts the oldest commit without editing its note, and runs
    [git notes edit] once more on each of the other commits, under a
    [GIT_EDITOR] whose perl program prints the line that the note of the
    oldest commit shows. Its count is one more than the number of these
    edits that succeed: never more than the count of the first run, and
    the same when they all succeed. *)
Theorem annotator_rerun (st st1 : State GitClient World)
  (first_options options : Options)
  (url a b revs first note line : string) (others : list string) (n1 : nat)
  (w2 w3 : World) :
  rev_range_for_diff (self st) = Some (a, b) ->
  update_commits_with_reviewer_info run first_options url st
  = Done (n1, st1) ->
  run (rev_list_cmd (self st) a b) (world st1)
  = (mkCompleted true revs, w2) ->
  readlines revs = first :: others ->
  n1 = length (first :: others) ->
  run (notes_show_cmd (self st) (strip first)) w2
  = (mkCompleted true note, w3) ->
  first_reviewed_by (splitlines note) url line ->
  let edit commit :=
    mkCall [git (self st); "notes"; "edit"; commit]
           (Some (edit_program line)) in
  exists n2 st2,
    update_commits_with_reviewer_info run options url (relog st1)
    = Done (n2, st2)
    /\ log st2
       = (rev_list_cmd (self st) a b
          :: notes_show_cmd (self st) (strip first)
          :: map edit (map strip others))%list
    /\ filter is_notes_edit (log st2) = map edit (map strip others)
    /\ n2 = 1 + successes run (map edit (map strip others)) w3
    /\ n2 <= n1
    /\ (successes run (map edit (map strip others)) w3 = length others ->
        n2 = n1).
Proof.
  intros Hrange Hfirst Hrevs Hlines Hn Hshow Hline edit.
  pose proof (update_keeps_self _ _ _ _ _ Hfirst) as Hself.
  assert (Hrange1 : rev_range_for_diff (self (relog st1)) = Some (a, b))
    by (cbn [relog self]; now rewrite Hself).
  assert (Hrevs1 : run (rev_list_cmd (self (relog st1)) a b)
                       (world (relog st1)) = (mkCompleted true revs, w2))
    by (cbn [relog self world]; now rewrite Hself).
  assert (Hshow1 : run (notes_show_cmd (self (relog st1)) (strip first)) w2
                   = (mkCompleted true note, w3))
    by (cbn [relog self]; now rewrite Hself).
  destruct (reviewed_by_line_adopted_steps run (relog st1) options url a b
              revs first note line others w2 w3
              Hrange1 Hrevs1 Hlines Hshow1 Hline)
    as (Hstep & n2 & w' & E & Hcount).
  cbn [relog self log app] in E, Hstep. rewrite Hself in E, Hstep.
  exists n2, (mkState (self st) w'
                (rev_list_cmd (self st) a b
                 :: notes_show_cmd (self st) (strip first)
                 :: map edit (map strip others))).
  split; [rewrite Hstep; exact E|]. cbn [log].
  split; [reflexivity|].
  assert (Hn2 : n2 = 1 + successes run (map edit (map strip others)) w3).
  { match type of E with
    | edit_notes _ _ _ _ _ ?s2 = _ =>
        destruct (edit_notes_count (git (self st)) (git_editor_cmd line)
                    (map strip others) 1 s2) as [st' E']
    end.
    rewrite E' in E. inversion E as [[En Es]].
    cbn [after world]. unfold edit. now rewrite editor_is_program. }
  split; [|split; [exact Hn2|]].
  - cbn [filter]. unfold is_notes_edit at 1 2.
    cbn [command rev_list_cmd notes_show_cmd].
    change ("rev-list" =? "notes") with false.
    change ("show" =? "edit") with false.
    rewrite andb_false_r. cbn [andb]. apply filter_notes_edits.
  - subst n1. rewrite Hn2.
    pose proof (successes_bound (map edit (map strip others)) w3) as Hb.
    rewrite !length_map in Hb. cbn [length]. split; [lia|].
    intros Hall. rewrite Hall. reflexivity.
Qed.

End AnyWorld.

End RerunFacts.

(* ===================================================================== *)
(** * The annotator, run *)
(* ===================================================================== *)

Module RunExamples.

Import Py Proc Git Spec MoreSpec RunFacts.

(** A client that has made no diff: nothing is run. *)
Lemma annotator_nothing_to_do_witness :
  update_commits_with_reviewer_info Transcript.run Examples.reviewers
    Examples.review_url
    (Examples.start Examples.plain_client Examples.first_session)
  = Done (0, Examples.start Examples.plain_client Examples.first_session).
Proof.
  exact (proj1 (annotator_nothing_to_do Transcript.run Examples.reviewers
                  Examples.review_url
                  (Examples.start Examples.plain_client
                     Examples.first_session))
               eq_refl).
Defined.

(** The first run on the clone of [Examples]: both notes are edited, under
    the program that prints the line for alice and the group core. *)
Lemma annotator_fresh_range_witness :
  exists n w',
    update_commits_with_reviewer_info Transcript.run Examples.reviewers
      Examples.review_url
      (Examples.start Examples.annotating_client Examples.first_session)
    = Done (n, mkState Examples.annotating_client w'
                 [rev_list_cmd Examples.annotating_client "4f2a" "HEAD";
                  notes_show_cmd Examples.annotating_client "c1";
                  mkCall ["git"; "notes"; "edit"; "c1"]
                    (Some (edit_program Examples.reviewed_by_line));
                  mkCall ["git"; "notes"; "edit"; "c2"]
                    (Some (edit_program Examples.reviewed_by_line))])
    /\ n <= 2.
Proof.
  exact (annotator_fresh_range Transcript.run
           (Examples.start Examples.annotating_client Examples.first_session)
           Examples.reviewers Examples.review_url "4f2a" "HEAD"
           Examples.rev_list_answer ("c1" ++ nl) ["c2" ++ nl]
           (mkCompleted false ("error: No note found for object c1." ++ nl))
           (tl Examples.first_session) (tl (tl Examples.first_session))
           eq_refl eq_refl eq_refl eq_refl (or_introl eq_refl)).
Defined.

(** A range whose oldest commit has the line for bob in its note: the run
    for alice and the group core counts [c1] and edits the note of [c2]
    under the program that prints the line for bob. *)
Lemma reviewed_by_line_adopted_witness :
  exists n w',
    update_commits_with_reviewer_info Transcript.run Examples.reviewers
      Examples.review_url
      (Examples.start Examples.annotating_client Examples.annotated_session)
    = Done (n, mkState Examples.annotating_client w'
                 [rev_list_cmd Examples.annotating_client "4f2a" "HEAD";
                  notes_show_cmd Examples.annotating_client "c1";
                  mkCall ["git"; "notes"; "edit"; "c2"]
                    (Some (edit_program Examples.line_of_bob))])
    /\ 1 <= n <= 2.
Proof.
  exact (AnnotatorFacts.reviewed_by_line_adopted Transcript.run
           (Examples.start Examples.annotating_client
              Examples.annotated_session)
           Examples.reviewers Examples.review_url "4f2a" "HEAD"
           Examples.rev_list_answer ("c1" ++ nl) Examples.note_of_c1
           Examples.line_of_bob ["c2" ++ nl]
           (tl Examples.annotated_session)
           (tl (tl Examples.annotated_session))
           eq_refl eq_refl eq_refl eq_refl
           (ex_intro _ ["Tested on trunk"]
              (ex_intro _ [] (conj eq_refl (conj eq_refl eq_refl))))).
Defined.

(** The claim of C7 fails as stated on two counts. The first run for alice
    and the group core annotates both commits and returns 2. The second
    run, with the same options and for the same review, returns 2 as well,
    and yet it runs [git notes edit] on [c2] once more. And when that edit
    fails, the second run returns 1. *)
Lemma annotator_rerun_counterexample :
  exists st2 st2',
    update_commits_with_reviewer_info Transcript.run Examples.reviewers
      Examples.review_url
      (Examples.start Examples.annotating_client Examples.both_sessions)
    = Done (2, Examples.after_first_run)
    /\ update_commits_with_reviewer_info Transcript.run Examples.reviewers
         Examples.review_url (relog Examples.after_first_run)
       = Done (2, st2)
    /\ filter is_notes_edit (log st2)
       = [mkCall ["git"; "notes"; "edit"; "c2"]
            (Some (edit_program Examples.reviewed_by_line))]
    /\ filter is_notes_edit (log st2) <> []
    /\ update_commits_with_reviewer_info Transcript.run Examples.reviewers
         Examples.review_url
         (Examples.start Examples.annotating_client
            Examples.both_sessions_failing)
       = Done (2, Examples.after_first_run_failing)
    /\ update_commits_with_reviewer_info Transcript.run Examples.reviewers
         Examples.review_url (relog Examples.after_first_run_failing)
       = Done (1, st2').
Proof.
  do 2 eexists. split; [vm_compute; reflexivity|].
  split; [vm_compute; reflexivity|].
  split; [vm_compute; reflexivity|].
  split; [vm_compute; discriminate|].
  split; vm_compute; reflexivity.
Qed.

(** The same two runs, the second with no people and no groups. *)
Lemma annotator_rerun_witness :
  exists n2 st2,
    update_commits_with_reviewer_info Transcript.run Examples.quiet
      Examples.review_url (relog Examples.after_first_run)
    = Done (n2, st2)
    /\ log st2
       = [rev_list_cmd Examples.annotating_client "4f2a" "HEAD";
          notes_show_cmd Examples.annotating_client "c1";
          mkCall ["git"; "notes"; "edit"; "c2"]
            (Some (edit_program Examples.reviewed_by_line))]
    /\ filter is_notes_edit (log st2)
       = [mkCall ["git"; "notes"; "edit"; "c2"]
            (Some (edit_program Examples.reviewed_by_line))]
    /\ n2 = 2
    /\ n2 <= 2
    /\ (1 = 1 -> n2 = 2).
Proof.
  exact (RerunFacts.annotator_rerun Transcript.run
           (Examples.start Examples.annotating_client Examples.both_sessions)
           Examples.after_first_run Examples.reviewers Examples.quiet
           Examples.review_url "4f2a" "HEAD"
           Examples.rev_list_answer ("c1" ++ nl)
           (Examples.reviewed_by_line ++ nl)
           Examples.reviewed_by_line ["c2" ++ nl] 2
           (tl Examples.second_session) (tl (tl Examples.second_session))
           eq_refl eq_refl eq_refl eq_refl eq_refl eq_refl
           (ex_intro _ []
              (ex_intro _ [] (conj eq_refl (conj eq_refl eq_refl))))).
Defined.

End RunExamples.

(* ===================================================================== *)
(** * Guessing the summary and the description *)
(* ===================================================================== *)

Module GuessFacts.

Import Py Proc Git Spec MoreSpec PyFacts ProcFacts.

(** ** Stripping *)

Lemma lstrip_twice (s : string) : lstrip (lstrip s) = lstrip s.
Proof.
  induction s as [|c s IH]; [reflexivity|].
  cbn [lstrip]. destruct (is_space c) eqn:E; [exact IH|].
  cbn [lstrip]. now rewrite E.
Qed.

Lemma rstrip_twice (s : string) : rstrip (rstrip s) = rstrip s.
Proof.
  induction s as [|c s IH]; [reflexivity|].
  cbn [rstrip]. destruct (rstrip s) as [|a r] eqn:E.
  - destruct (is_space c) eqn:Ec; [reflexivity|].
    cbn [rstrip]. now rewrite Ec.
  - cbn [rstrip] in *. now rewrite IH.
Qed.

(** A text with nothing to strip at its end has nothing to strip at its end
    once its head is stripped. *)
Lemma rstrip_lstrip (s : string) :
  rstrip s = s -> rstrip (lstrip s) = lstrip s.
Proof.
  induction s as [|c s IH]; [reflexivity|].
  intros H. cbn [lstrip]. destruct (is_space c) eqn:Ec; [|exact H].
  apply IH. cbn [rstrip] in H. rewrite Ec in H.
  destruct (rstrip s) as [|a r] eqn:E; [discriminate|].
  now injection H.
Qed.

Lemma strip_twice (s : string) : strip (strip s) = strip s.
Proof.
  unfold strip.
  rewrite (rstrip_lstrip (rstrip s) (rstrip_twice s)).
  apply lstrip_twice.
Qed.

Lemma lstrip_without (c : ascii) (s : string) :
  contains_char s c = false -> contains_char (lstrip s) c = false.
Proof.
  induction s as [|a s IH]; [reflexivity|].
  intros H. cbn [lstrip]. destruct (is_space a); [|exact H].
  apply IH. cbn [contains_char] in H. now apply orb_false_iff in H.
Qed.

Lemma rstrip_without (c : ascii) (s : string) :
  contains_char s c = false -> contains_char (rstrip s) c = false.
Proof.
  induction s as [|a s IH]; [reflexivity|].
  intros H. cbn [contains_char] in H. apply orb_false_iff in H as [Ha Hs].
  cbn [rstrip]. specialize (IH Hs).
  destruct (rstrip s) as [|b r].
  - destruct (is_space a); [reflexivity|]. cbn. now rewrite Ha.
  - cbn [contains_char] in *. now rewrite Ha, IH.
Qed.

Lemma strip_without (c : ascii) (s : string) :
  contains_char s c = false -> contains_char (strip s) c = false.
Proof. intros H. unfold strip. now apply lstrip_without, rstrip_without. Qed.

Lemma replace_char_without (a b : ascii) (s : string) :
  a <> b -> contains_char (replace_char a b s) a = false.
Proof.
  intros Hab. induction s as [|c s IH]; [reflexivity|].
  cbn [replace_char contains_char]. rewrite IH, orb_false_r.
  destruct (Ascii.eqb_spec c a) as [->|Hc].
  - apply Ascii.eqb_neq. congruence.
  - now apply Ascii.eqb_neq.
Qed.

Section Guesses.

Context {World : Type}.
Variable run : Call -> World -> Completed * World.

Lemma execute_ignoring (cmd : list string) (st : State GitClient World) :
  execute run cmd true st
  = let (r, w) := run (mkCall cmd None) (world st) in
    Done (data r, after st (mkCall cmd None) w).
Proof.
  unfold execute, bind, spawn.
  destruct (run (mkCall cmd None) (world st)) as [r w].
  cbn. now rewrite andb_false_r.
Qed.

(** The second half of [_set_guesses], the description. *)
Lemma guess_description_step (a b : string) (st st' : State GitClient World) :
  bind get_self
    (fun self =>
       if guess_description (options self)
          && negb (truthy_opt (description (options self)))
       then bind (execute run [git self; "log"; "--reverse";
                               "--pretty=format:%s%n%n%b"; a ++ ".." ++ b]
                    true)
              (fun d => modify_self (set_options (set_description (strip d))))
       else ret tt) st = Done (tt, st') ->
  summary (options (self st')) = summary (options (self st))
  /\ (to_guess (guess_description (options (self st)))
               (description (options (self st))) = false -> st' = st)
  /\ (to_guess (guess_description (options (self st)))
               (description (options (self st))) = true ->
      exists r w,
        run (description_cmd (self st) a b) (world st) = (r, w)
        /\ description (options (self st')) = Some (strip (data r))).
Proof.
  unfold to_guess. intros H. change (bind get_self ?k st) with (k (self st) st) in H.
  cbv beta in H.
  destruct (guess_description (options (self st))
            && negb (truthy_opt (description (options (self st))))).
  - apply bind_inv in H as (d & s1 & He & H).
    rewrite execute_ignoring in He.
    fold (description_cmd (self st) a b) in He.
    destruct (run (description_cmd (self st) a b) (world st)) as [r w] eqn:E.
    inversion He; subst d s1; clear He. inversion H; subst st'.
    split; [reflexivity|]. split; [discriminate|].
    intros _. now exists r, w.
  - inversion H; subst st'. split; [reflexivity|].
    split; [reflexivity | discriminate].
Qed.

(** X11. [_set_guesses] never replaces a text that was given: a summary or
    a description that is not empty, or whose guess flag is off, is still
    there when it returns; and when neither is to be guessed it runs no
    command and changes nothing. *)
Theorem set_guesses_keeps_given_text (rev_range : string * string)
  (st : State GitClient World) :
  let o := options (self st) in
  (to_guess (guess_summary o) (summary o) = false ->
   to_guess (guess_description o) (description o) = false ->
   _set_guesses run rev_range st = Done (tt, st))
  /\ (forall st', _set_guesses run rev_range st = Done (tt, st') ->
      (to_guess (guess_summary o) (summary o) = false ->
       summary (options (self st')) = summary o)
      /\ (to_guess (guess_description o) (description o) = false ->
          description (options (self st')) = description o)).
Proof.
  destruct rev_range as [a b]. cbv zeta. unfold to_guess. split.
  - intros Hs Hd. unfold _set_guesses, bind, get_self, ret.
    rewrite Hs. cbn. now rewrite Hd.
  - intros st' H. unfold _set_guesses in H.
    change (bind get_self ?k st) with (k (self st) st) in H. cbv beta in H.
    apply bind_inv in H as ([] & s1 & H1 & H).
    destruct (guess_summary (options (self st))
              && negb (truthy_opt (summary (options (self st))))) eqn:Es.
    + apply bind_inv in H1 as (o1 & t1 & He1 & H1).
      apply execute_inv in He1 as (w1 & _ & ->).
      apply bind_inv in H1 as (o2 & t2 & He2 & H1).
      rewrite execute_ignoring in He2.
      destruct (run _ (world _)) as [r2 w2] in He2.
      inversion He2; subst o2 t2; clear He2. inversion H1; subst s1.
      apply guess_description_step in H as (_ & Hkeep & _).
      split; [discriminate|]. intros Hd.
      cbn [self options set_options description set_summary] in Hkeep.
      unfold to_guess in Hkeep. rewrite (Hkeep Hd). reflexivity.
    + inversion H1; subst s1.
      apply guess_description_step in H as (Hsum & Hkeep & _).
      split; [intros _; exact Hsum|]. intros Hd.
      unfold to_guess in Hkeep. now rewrite (Hkeep Hd).
Qed.

(** X12. A guessed summary is one line with nothing to strip. When the
    summary is to be guessed and [git rev-list] answers, the summary becomes
    the output of [git log] for the first word of that answer, newlines
    replaced by spaces, stripped; it holds no newline, and stripping it
    again changes nothing. A failure of [git log] is ignored. *)
Theorem guessed_summary_one_line (st : State GitClient World)
  (start_rev end_rev revs : string) (r2 : Completed) (w1 w2 : World) :
  to_guess (guess_summary (options (self st)))
           (summary (options (self st))) = true ->
  run (first_commit_cmd (self st) start_rev) (world st)
  = (mkCompleted true revs, w1) ->
  run (subject_cmd (self st) (hd EmptyString (split_max " " 2 revs))) w1
  = (r2, w2) ->
  exists st' s,
    _set_guesses run (start_rev, end_rev) st = Done (tt, st')
    /\ summary (options (self st')) = Some s
    /\ s = strip (replace_char LF " " (data r2))
    /\ contains_char s LF = false
    /\ strip s = s.
Proof.
  unfold to_guess. intros Hs Hrev Hlog.
  set (s := strip (replace_char LF " " (data r2))).
  set (st2 := with_self (set_options (set_summary s))
                (after (after st (first_commit_cmd (self st) start_rev) w1)
                       (subject_cmd (self st)
                          (hd EmptyString (split_max " " 2 revs))) w2)).
  assert (Hstep : _set_guesses run (start_rev, end_rev) st
            = bind get_self
                (fun self =>
                   if guess_description (options self)
                      && negb (truthy_opt (description (options self)))
                   then bind (execute run
                                [git self; "log"; "--reverse";
                                 "--pretty=format:%s%n%n%b";
                                 start_rev ++ ".." ++ end_rev] true)
                          (fun d => modify_self
                                      (set_options (set_description (strip d))))
                   else ret tt) st2).
  { unfold _set_guesses.
    rewrite (bind_done _ _ st st (self st) eq_refl). rewrite Hs.
    rewrite (bind_done _ _ st st2 tt); [reflexivity|].
    rewrite (bind_done _ _ _ _ _ (execute_done run _ _ _ _ _ Hrev)).
    unfold bind at 1. rewrite execute_ignoring.
    cbn [world after self].
    fold (subject_cmd (self st) (hd EmptyString (split_max " " 2 revs))).
    rewrite Hlog. reflexivity. }
  assert (Hdone : exists st',
            _set_guesses run (start_rev, end_rev) st = Done (tt, st')).
  { rewrite Hstep. unfold bind at 1, get_self.
    destruct (guess_description (options (self st2))
              && negb (truthy_opt (description (options (self st2))))).
    - unfold bind. rewrite execute_ignoring.
      destruct (run _ (world st2)) as [r w]. eexists. reflexivity.
    - eexists. reflexivity. }
  destruct Hdone as [st' Hdone]. exists st', s.
  split; [exact Hdone|].
  rewrite Hstep in Hdone. apply guess_description_step in Hdone as (Hsum & _).
  split; [rewrite Hsum; reflexivity|]. split; [reflexivity|].
  split.
  - apply strip_without, replace_char_without. discriminate.
  - apply strip_twice.
Qed.

End Guesses.

(** A client with both guess flags off: nothing is run. *)
Lemma set_guesses_keeps_given_text_witness :
  _set_guesses (Script.run MoreExamples.guessing_repo) ("4f2a", "HEAD")
    (Examples.start Examples.plain_client tt)
  = Done (tt, Examples.start Examples.plain_client tt).
Proof.
  exact (proj1 (set_guesses_keeps_given_text
                  (Script.run MoreExamples.guessing_repo) ("4f2a", "HEAD")
                  (Examples.start Examples.plain_client tt))
               eq_refl eq_refl).
Defined.

Lemma guessed_summary_one_line_witness :
  exists st' s,
    _set_guesses (Script.run MoreExamples.guessing_repo) ("4f2a", "HEAD")
      (Examples.start MoreExamples.guessing_client tt) = Done (tt, st')
    /\ summary (options (self st')) = Some s
    /\ s = "Fix the parser and its tests"
    /\ contains_char s LF = false
    /\ strip s = s.
Proof.
  exact (guessed_summary_one_line (Script.run MoreExamples.guessing_repo)
           (Examples.start MoreExamples.guessing_client tt)
           "4f2a" "HEAD" ("9c1d 4f2a" ++ nl ++ "77aa 9c1d" ++ nl)
           (Script.prints ("Fix the parser" ++ nl ++ "and its tests" ++ nl))
           tt tt eq_refl eq_refl eq_refl).
Defined.

End GuessFacts.

(* ===================================================================== *)
(** * From the diff to the annotator *)
(* ===================================================================== *)

Module ComposeFacts.

Import Py Proc Git Spec MoreSpec ProcFacts RangeFacts RunFacts.

Section Compose.

Context {World : Type}.
Variable run : Call -> World -> Completed * World.

(** X13. The annotator walks the range the diff has recorded: called after
    a [diff] that returned, it returns too, and its first command is
    [git rev-list --reverse <start>..HEAD], where <start> is the parent
    branch of the options, or the merge base that [diff] found when there
    is no parent branch. *)
Theorem diff_then_annotate (st st1 : State GitClient World)
  (r : option string * option string) (options : Options) (url : string) :
  diff run st = Done (r, st1) ->
  exists mb w1 n st2 more,
    run (merge_base_cmd (self st)) (world st) = (mkCompleted true mb, w1)
    /\ update_commits_with_reviewer_info run options url st1 = Done (n, st2)
    /\ log st2
       = (log st1
          ++ rev_list_cmd (self st)
               (or_else (parent_branch (Git.options (self st))) (strip mb))
               "HEAD" :: more)%list.
Proof.
  intros H. destruct (diff_inv run _ _ _ H) as (mb & w1 & Hmb & Hs).
  destruct Hs as (Hg & _ & _ & _ & _ & Hr). cbn in Hg, Hr.
  destruct (update_first_command run options url _ _ st1 Hr)
    as (n & st2 & more & E & Hlog).
  exists mb, w1, n, st2, more. split; [exact Hmb|]. split; [exact E|].
  rewrite Hlog. unfold rev_list_cmd. now rewrite Hg.
Qed.

End Compose.

Lemma diff_then_annotate_witness :
  exists mb w1 n st2 more,
    Script.run Examples.stacked_repo
      (merge_base_cmd Examples.stacked_client) tt
    = (mkCompleted true mb, w1)
    /\ update_commits_with_reviewer_info (Script.run Examples.stacked_repo)
         Examples.reviewers Examples.review_url
         MoreExamples.after_stacked_diff
       = Done (n, st2)
    /\ log st2
       = (log MoreExamples.after_stacked_diff
          ++ rev_list_cmd Examples.stacked_client
               (or_else (Some "topic") (strip mb)) "HEAD" :: more)%list.
Proof.
  refine (diff_then_annotate (Script.run Examples.stacked_repo)
            (Examples.start Examples.stacked_client tt)
            MoreExamples.after_stacked_diff
            (Some "committed and uncommitted changes",
             Some "changes of topic")
            Examples.reviewers Examples.review_url _).
  vm_compute; reflexivity.
Defined.

End ComposeFacts.

(* ===================================================================== *)
(** * Facts about the search for the repository *)
(* ===================================================================== *)

Module DetectFacts.

Import Py PyMore Proc Git Detect DetectSpec.

(** ** Strings *)

Lemma split_fields_no_sep (sep : ascii) (s : string) :
  Forall (fun f => contains_char f sep = false) (split sep s).
Proof.
  induction s as [|c s IH]; cbn [split].
  - repeat constructor.
  - destruct (c =? sep)%char eqn:E.
    + constructor; [reflexivity | exact IH].
    + destruct (split sep s) as [|f fs].
      * constructor; [cbn; now rewrite E | constructor].
      * inversion IH; subst. constructor; [cbn; now rewrite E | assumption].
Qed.

Lemma first_field_no_sep (sep : ascii) (s : string) :
  contains_char (first_field sep s) sep = false.
Proof.
  unfold first_field. pose proof (split_fields_no_sep sep s) as H.
  destruct (split sep s); [reflexivity | now inversion H].
Qed.

Lemma last_no_sep (sep : ascii) (l : list string) :
  Forall (fun f => contains_char f sep = false) l ->
  contains_char (last l EmptyString) sep = false.
Proof.
  induction 1 as [|f l Hf Hl IH]; [reflexivity|].
  destruct l; [exact Hf | exact IH].
Qed.

Lemma last_field_no_sep (sep : ascii) (s : string) :
  contains_char (last_field sep s) sep = false.
Proof. apply last_no_sep, split_fields_no_sep. Qed.

Lemma first_field_prefix (sep : ascii) (s : string) :
  startswith s (first_field sep s) = true.
Proof.
  unfold first_field. induction s as [|c s IH]; [reflexivity|].
  cbn [split]. destruct (c =? sep)%char; [reflexivity|].
  destruct (split sep s) as [|f fs]; cbn [hd startswith] in *.
  - now rewrite Ascii.eqb_refl.
  - now rewrite Ascii.eqb_refl, IH.
Qed.

Lemma rstrip_with_twice (p : ascii -> bool) (s : string) :
  rstrip_with p (rstrip_with p s) = rstrip_with p s.
Proof.
  induction s as [|c s IH]; [reflexivity|].
  cbn [rstrip_with]. destruct (rstrip_with p s) as [|d r] eqn:E.
  - destruct (p c) eqn:Ep; [reflexivity|]. cbn [rstrip_with]. now rewrite Ep.
  - change (rstrip_with p (String c (String d r)))
      with (match rstrip_with p (String d r) with
            | EmptyString =>
                if p c then EmptyString else String c EmptyString
            | String a b => String c (String a b)
            end).
    now rewrite IH.
Qed.

Lemma split_not_nil (sep : ascii) (s : string) : split sep s <> [].
Proof.
  destruct s as [|c s]; cbn [split]; [discriminate|].
  destruct (c =? sep)%char; [discriminate|].
  destruct (split sep s); discriminate.
Qed.

Lemma split_app (sep : ascii) (a b : string) :
  split sep (a ++ String sep b) = (split sep a ++ split sep b)%list.
Proof.
  induction a as [|c a IH]; cbn [append split].
  - rewrite Ascii.eqb_refl. reflexivity.
  - rewrite IH. destruct (c =? sep)%char; [reflexivity|].
    pose proof (split_not_nil sep a) as Hn.
    destruct (split sep a); [contradiction | reflexivity].
Qed.

Lemma last_app_right {A} (l1 l2 : list A) (d : A) :
  l2 <> [] -> last (l1 ++ l2) d = last l2 d.
Proof.
  intros H. induction l1 as [|x l1 IH]; [reflexivity|].
  cbn [app last]. destruct (l1 ++ l2)%list eqn:E; [|exact IH].
  apply app_eq_nil in E as [_ E]. contradiction.
Qed.

Lemma last_field_app (sep : ascii) (a b : string) :
  last_field sep (a ++ String sep b) = last_field sep b.
Proof.
  unfold last_field. rewrite split_app.
  apply last_app_right, split_not_nil.
Qed.

Lemma truthy_app (a b : string) : truthy a = true -> truthy (a ++ b) = true.
Proof. now destruct a. Qed.

Lemma or_else_truthy (o : option string) (d : string) :
  truthy d = true -> truthy (or_else o d) = true.
Proof.
  intros H. destruct o as [s|]; [|exact H]. cbn [or_else].
  destruct (truthy s) eqn:E; [exact E | exact H].
Qed.


Lemma or_else_absent (o : option string) (d : string) :
  truthy_opt o = false -> or_else o d = d.
Proof.
  destruct o as [s|]; [|reflexivity]. cbn [truthy_opt or_else]. now intros ->.
Qed.

Lemma strip_heads_prefix_branch (b : string) :
  _strip_heads_prefix ("refs/heads/" ++ b) = b.
Proof. reflexivity. Qed.

Lemma search_line_starts_some {A} (try : string -> option A) (s : string) :
  forall (at_start : bool) (a : A),
    search_line_starts try at_start s = Some a -> exists t, try t = Some a.
Proof.
  induction s as [|c s IH]; intros b a; cbn [search_line_starts].
  - destruct b; [|discriminate].
    destruct (try EmptyString) eqn:E; [|discriminate].
    intros H; inversion H; subst. eauto.
  - destruct b.
    + destruct (try (String c s)) eqn:E.
      * intros H; inversion H; subst. eauto.
      * apply IH.
    + apply IH.
Qed.

Lemma rest_of_line_truthy (s g : string) :
  rest_of_line s = Some g -> truthy g = true.
Proof.
  unfold rest_of_line. destruct (to_end_of_line s); [discriminate|].
  intros H; inversion H; reflexivity.
Qed.

Lemma search_labelled_truthy (label data g : string) :
  search_labelled label data = Some g -> truthy g = true.
Proof.
  unfold search_labelled. intros H.
  apply search_line_starts_some in H as [t H].
  destruct (after_literal label t); [|discriminate].
  now apply rest_of_line_truthy in H.
Qed.

Lemma after_blanks_truthy (s g : string) :
  after_blanks s = Some g -> truthy g = true.
Proof.
  unfold after_blanks. destruct (span is_space s) as [ws tail].
  destruct tail.
  - destruct (last_on_line ws); [|discriminate].
    intros H; inversion H; reflexivity.
  - apply rest_of_line_truthy.
Qed.

Lemma search_remote_branch_truthy (data g : string) :
  search_remote_branch data = Some g -> truthy g = true.
Proof.
  unfold search_remote_branch. intros H.
  apply search_line_starts_some in H as [t H].
  destruct (after_literal "Remote Branch:" t); [|discriminate].
  now apply after_blanks_truthy in H.
Qed.

Lemma plain_git_by_git (g : string) (l : list Call) :
  forallb (plain_git g) l = true -> forallb (by_git g) l = true.
Proof.
  induction l as [|c l IH]; [reflexivity|]. cbn [forallb].
  unfold plain_git at 1. rewrite !andb_true_iff.
  intros [[H _] Hl]. auto.
Qed.

Lemma plain_git_not_svn (g : string) (l : list Call) :
  forallb (plain_git g) l = true ->
  forallb (fun c => negb (is_git_svn c)) l = true.
Proof.
  induction l as [|c l IH]; [reflexivity|]. cbn [forallb].
  unfold plain_git at 1. rewrite !andb_true_iff.
  intros [[_ H] Hl]. auto.
Qed.

(** ** Steps of the search *)

Section Looking.

Context {World : Type}.
Variable run : Call -> World -> Completed * World.
Variable os : @System World.

Lemma on_return_bind {A B} (m : M Session World A)
  (k : A -> M Session World B) (st : State Session World)
  (Q : B -> State Session World -> Prop) :
  on_return m st (fun a st1 => on_return (k a) st1 Q) ->
  on_return (bind m k) st Q.
Proof. unfold on_return, bind. now destruct (m st) as [[a st1]| |]. Qed.

Lemma on_return_ret {A} (a : A) (st : State Session World)
  (Q : A -> State Session World -> Prop) :
  Q a st -> on_return (ret a) st Q.
Proof. auto. Qed.

Lemma on_return_get_self (st : State Session World)
  (Q : Session -> State Session World -> Prop) :
  Q (self st) st -> on_return get_self st Q.
Proof. auto. Qed.

Lemma on_return_modify_self (f : Session -> Session)
  (st : State Session World) (Q : unit -> State Session World -> Prop) :
  Q tt (mkState (f (self st)) (world st) (log st)) ->
  on_return (modify_self f) st Q.
Proof. auto. Qed.

Lemma on_return_execute (cmd : list string) (ignore_errors : bool)
  (st : State Session World) (Q : string -> State Session World -> Prop) :
  (forall r w, run (mkCall cmd None) (world st) = (r, w) ->
               Q (data r)
                 (mkState (self st) w (log st ++ [mkCall cmd None])%list)) ->
  on_return (execute run cmd ignore_errors) st Q.
Proof.
  intros H. unfold on_return, execute, bind, spawn.
  destruct (run (mkCall cmd None) (world st)) as [r w] eqn:E.
  destruct (negb (ok r) && negb ignore_errors); [exact I|]. now apply H.
Qed.

Lemma on_return_ask {A} (f : World -> A) (st : State Session World)
  (Q : A -> State Session World -> Prop) :
  Q (f (world st)) st -> on_return (ask f) st Q.
Proof. auto. Qed.

Lemma on_return_call {A} (f : World -> A * World) (st : State Session World)
  (Q : A -> State Session World -> Prop) :
  (forall a w, f (world st) = (a, w) ->
               Q a (mkState (self st) w (log st))) ->
  on_return (call f) st Q.
Proof.
  intros H. unfold on_return, call. destruct (f (world st)) as [a w].
  now apply H.
Qed.

Lemma on_return_chdir (path : string) (st : State Session World)
  (Q : bool -> State Session World -> Prop) :
  (forall w, Q true (mkState (self st) w (log st))) -> Q false st ->
  on_return (os_chdir os path) st Q.
Proof.
  intros Ht Hf. unfold on_return, os_chdir.
  destruct (chdir os path (world st)); auto.
Qed.

Lemma on_return_die {A} (st : State Session World)
  (Q : A -> State Session World -> Prop) :
  on_return die st Q.
Proof. exact I. Qed.

Lemma on_return_of {A} (m : M Session World A) (st : State Session World)
  (Q : A -> State Session World -> Prop) :
  (forall a st', m st = Done (a, st') -> Q a st') -> on_return m st Q.
Proof.
  intros H. unfold on_return. destruct (m st) as [[a st']| |]; auto.
Qed.

Lemma on_return_weaken {A} (m : M Session World A) (st : State Session World)
  (Q Q' : A -> State Session World -> Prop) :
  on_return m st Q -> (forall a st', Q a st' -> Q' a st') ->
  on_return m st Q'.
Proof.
  unfold on_return. destruct (m st) as [[a st']| |]; auto.
Qed.

Lemma on_return_elim {A} (m : M Session World A) (st st' : State Session World)
  (Q : A -> State Session World -> Prop) (a : A) :
  on_return m st Q -> m st = Done (a, st') -> Q a st'.
Proof. unfold on_return. intros H E. now rewrite E in H. Qed.

(** One step of a method, with the states kept in normal form. *)
Ltac look :=
  lazymatch goal with
  | |- on_return (bind _ _) _ _ => apply on_return_bind
  | |- on_return (ret _) _ _ => apply on_return_ret
  | |- on_return get_self _ _ => apply on_return_get_self
  | |- on_return (modify_self _) _ _ => apply on_return_modify_self
  | |- on_return (execute _ _ _) _ _ =>
      apply on_return_execute; intros ? ? ?
  | |- on_return (ask _) _ _ => apply on_return_ask
  | |- on_return (call _) _ _ => apply on_return_call; intros ? ? ?
  | |- on_return (os_chdir _ _) _ _ => apply on_return_chdir; [intros ?|]
  | |- on_return die _ _ => apply on_return_die
  | |- on_return (if ?b then _ else _) _ _ => destruct b eqn:?
  | |- on_return (match ?x with _ => _ end) _ _ => destruct x eqn:?
  end;
  cbv beta; cbn [self world log].

Lemma frame_refl (p : string -> Call -> bool) (st : State Session World) :
  frame p st st.
Proof.
  split; [now repeat split|]. exists []. now rewrite app_nil_r.
Qed.

Lemma frame_trans (p : string -> Call -> bool)
  (st st1 st2 : State Session World) :
  frame p st st1 -> frame p st1 st2 -> frame p st st2.
Proof.
  intros [(Hg & Ho & Hu & Ht) (n1 & L1 & F1)]
         [(Hg' & Ho' & Hu' & Ht') (n2 & L2 & F2)].
  split.
  - repeat split; congruence.
  - exists (n1 ++ n2)%list. split.
    + now rewrite L2, L1, app_assoc.
    + rewrite forallb_app, F1. now rewrite Hg in F2.
Qed.

Lemma frame_run (p : string -> Call -> bool) (st : State Session World)
  (s : Session) (w : World) (l : list Call) (c : Call) :
  frame p st (mkState s w l) -> p (git (client s)) c = true ->
  frame p st (mkState s w (l ++ [c])%list).
Proof.
  intros H Hc. apply (frame_trans p st (mkState s w l)); [exact H|].
  split; [now repeat split|]. exists [c]. cbn. now rewrite Hc.
Qed.

Lemma frame_rebase (p : string -> Call -> bool)
  (st st1 : State Session World) :
  frame p st st1 -> forall w, frame p st (mkState (self st1) w (log st1)).
Proof.
  intros [H (n & L & F)] w. split; [exact H|]. now exists n.
Qed.

Lemma frame_self (p : string -> Call -> bool) (st : State Session World)
  (s s' : Session) (w : World) (l : list Call) :
  frame p st (mkState s w l) -> same_settings s s' ->
  frame p st (mkState s' w l).
Proof.
  intros H Hs. apply (frame_trans p st (mkState s w l)); [exact H|].
  split; [exact Hs|]. exists []. cbn. now rewrite app_nil_r.
Qed.

Lemma frame_weaken (st st' : State Session World) :
  frame plain_git st st' -> frame by_git st st'.
Proof.
  intros [H (n & L & F)]. split; [exact H|]. exists n.
  split; [exact L|]. now apply plain_git_by_git.
Qed.

Lemma same_settings_on_client (f : GitClient -> GitClient) (s : Session) :
  git (f (client s)) = git (client s) ->
  options (f (client s)) = options (client s) ->
  same_settings s (on_client f s).
Proof. intros Hg Ho. now repeat split. Qed.

Lemma same_settings_bare (b : bool) (s : Session) :
  same_settings s (set_bare b s).
Proof. now repeat split. Qed.

(** The end of a path through a method: the frame of the state reached. *)
Ltac framed :=
  repeat first
    [ assumption
    | apply frame_refl
    | apply frame_weaken; assumption
    | apply frame_rebase
    | eapply frame_run;
      [| cbn [git client on_client set_bare set_type set_upstream_branch
              set_head_ref];
         unfold plain_git, by_git, is_git_svn;
         cbn [command git_editor];
         rewrite String.eqb_refl; reflexivity ]
    | eapply frame_self;
      [| first [ apply same_settings_bare
               | apply same_settings_on_client; reflexivity ] ] ].

(** A method that has its own lemma. *)
Ltac by_lemma L :=
  eapply on_return_weaken; [apply L|]; cbv beta; cbn [self world log].

Lemma get_origin_post (default : option string) (ignore_errors : bool)
  (st : State Session World) :
  on_return (get_origin run default ignore_errors) st
    (fun o st' =>
       frame plain_git st st' /\ self st' = self st
       /\ fst o = or_else (tracking (self st))
                          (or_else default "origin/master")).
Proof.
  unfold get_origin. repeat look. split; [framed|]. now split.
Qed.

Lemma enter_work_tree_post (git_dir : string) (st : State Session World) :
  on_return (enter_work_tree run os git_dir) st
    (fun _ st' => frame plain_git st st').
Proof. unfold enter_work_tree. repeat look; framed. Qed.

Lemma svn_tracking_branch_post (st : State Session World) :
  on_return (svn_tracking_branch run) st
    (fun _ st' =>
       frame by_git st st'
       /\ truthy (upstream_branch (client (self st'))) = true
       /\ type (client (self st')) = type (client (self st))).
Proof.
  unfold svn_tracking_branch. repeat look.
  - split; [framed|]. split; [|reflexivity].
    cbn. destruct (parent_branch (options (client (self st)))) as [b|];
      [|discriminate].
    cbn [truthy_opt] in *. cbn [or_else].
    match goal with H : truthy b = true |- _ => now rewrite H end.
  - split; [framed|]. split; [|reflexivity].
    cbn. eapply search_remote_branch_truthy; eassumption.
  - split; [framed|]. split; reflexivity.
Qed.

Lemma detect_svn_post (git_dir : string) (st : State Session World) :
  on_return (detect_svn run os git_dir) st
    (fun s st' =>
       frame by_git st st'
       /\ (truthy_opt (repository_url (self st)) = true ->
           s = NotSvn /\ st' = st)
       /\ (forall info, s = SvnFound info ->
              agrees info (self st')
              /\ exists path base uuid,
                   info = SVNRepositoryInfo path base uuid true)).
Proof.
  unfold detect_svn. repeat look.
  all: try (split; [framed | split; [intros; try congruence; auto
                                    | intros; discriminate]]).
  by_lemma svn_tracking_branch_post. intros u st1 (Hf & Hu & Ht). look.
  split; [eapply frame_trans; [|exact Hf]; framed|].
  split; [discriminate|]. intros info E. inversion E; subst info.
  destruct Hf as [(_ & _ & Hr & _) _]. cbn in Hr, Ht.
  split; [|now eexists _, _, _].
  cbn [agrees]. repeat split.
  - exact Ht.
  - eapply search_labelled_truthy; eassumption.
  - destruct (truthy (slice_from _ _)) eqn:Eb; [exact Eb | reflexivity].
  - eapply search_labelled_truthy; eassumption.
  - exact Hu.
  - now rewrite Hr.
Qed.

Lemma detect_tracking_branch_post (st : State Session World) :
  on_return (detect_tracking_branch run) st
    (fun _ st' =>
       frame plain_git st st'
       /\ tracked (upstream_branch (client (self st')))
       /\ type (client (self st')) = type (client (self st))).
Proof.
  unfold detect_tracking_branch. repeat look.
  all: split; [framed | split; [|reflexivity]]; cbn.
  all: try (left; reflexivity).
  right.
  match goal with
  | H : _ && _ && _ = true |- _ =>
      apply andb_true_iff in H as [H Hm];
      apply andb_true_iff in H as [Hr Hd]
  end.
  eexists _, _. split; [reflexivity|]. split; [exact Hr|].
  split; [|exact Hm].
  intros E. rewrite E in Hd. discriminate.
Qed.

Lemma detect_url_post (git_dir : string) (st : State Session World) :
  on_return (detect_url run os git_dir) st
    (fun url st' =>
       frame plain_git st st'
       /\ upstream_of (tracking (self st))
            (upstream_branch (client (self st)))
            (upstream_branch (client (self st')))
       /\ type (client (self st')) = type (client (self st))
       /\ (forall u, repository_url (self st) = Some u -> truthy u = true ->
                     url = u)
       /\ (truthy url = true \/ exists w, url = abspath os git_dir w)).
Proof.
  unfold detect_url. do 3 look.
  - look. by_lemma get_origin_post. intros o st1 (Hf & Hs & Ho).
    repeat look. split; [framed|]. split; [|split; [|split]].
    + exists (fst o). split; [left; exact Ho | left; reflexivity].
    + cbn. now rewrite Hs.
    + intros u E T. rewrite E. cbn [or_else]. now rewrite T.
    + left. destruct (repository_url (self st)) as [u|]; [|discriminate].
      cbn [truthy_opt] in Heqb. cbn [or_else]. now rewrite Heqb.
  - assert (Hu : forall u url : string,
               repository_url (self st) = Some u -> truthy u = true ->
               url = u).
    { intros u url E T. rewrite E in Heqb. cbn [truthy_opt] in Heqb.
      congruence. }
    look. by_lemma get_origin_post. intros o st1 (Hf & Hs & Ho).
    do 3 look.
    apply (on_return_weaken _ _
             (fun _ st0 =>
                frame plain_git st st0
                /\ type (client (self st0)) = type (client (self st))
                /\ (upstream_branch (client (self st0))
                    = or_else (tracking (self st))
                        (or_else (Some (upstream_branch (client (self st))))
                                 "origin/master")
                    \/ upstream_branch (client (self st0))
                       = or_else (tracking (self st)) "origin/master"))).
    + look.
      * look. by_lemma get_origin_post. intros o2 st2 (Hf2 & Hs2 & Ho2).
        cbn [self] in Hs2. repeat look.
        split; [framed; eapply frame_trans; [|exact Hf2]; framed|].
        cbn. rewrite Hs2. cbn. rewrite Hs.
        split; [reflexivity|]. right. rewrite Ho2. cbn. now rewrite Hs.
      * look. split; [framed|]. cbn. rewrite Hs. split; [reflexivity|].
        now left.
    + intros a st0 (Hf0 & Ht0 & Hb0). repeat look.
      * split; [framed|]. split; [|split; [|split]].
        -- exists (upstream_branch (client (self st0))).
           split; [destruct Hb0; auto | right; reflexivity].
        -- exact Ht0.
        -- intros u. apply Hu.
        -- right. now exists (world st0).
      * split; [framed|]. split; [|split; [|split]].
        -- exists (upstream_branch (client (self st0))).
           split; [destruct Hb0; auto | left; reflexivity].
        -- exact Ht0.
        -- intros u. apply Hu.
        -- left. now apply negb_false_iff.
Qed.

Lemma detect_native_post (git_dir : string) (st : State Session World) :
  on_return (detect_native run os git_dir) st
    (fun r st' =>
       frame plain_git st st'
       /\ (exists b0,
             tracked b0
             /\ upstream_of (tracking (self st)) b0
                  (upstream_branch (client (self st'))))
       /\ (forall info, r = Some info ->
              agrees info (self st')
              /\ forall u, repository_url (self st) = Some u ->
                           truthy u = true -> info = git_info u)
       /\ (r = None -> exists w, truthy (abspath os git_dir w) = false)).
Proof.
  unfold detect_native. look.
  by_lemma detect_tracking_branch_post. intros u1 st1 (Hf1 & Hb1 & Ht1).
  look. by_lemma detect_url_post.
  intros url st2 (Hf2 & Hb2 & Ht2 & Hu2 & Hp2).
  assert (Hs : same_settings (self st) (self st1)) by apply Hf1.
  destruct Hs as (_ & _ & Hurl & Htr).
  repeat look.
  - split; [eapply frame_trans; [exact Hf1|]; framed|].
    split; [|split].
    + exists (upstream_branch (client (self st1))). split; [exact Hb1|].
      cbn. now rewrite <- Htr.
    + intros info E. inversion E; subst info. split.
      * cbn. repeat split; try reflexivity. now exists url.
      * intros u Eu Tu. rewrite <- Hurl in Eu.
        now rewrite (Hu2 u Eu Tu).
    + discriminate.
  - split; [eapply frame_trans; [exact Hf1|]; framed|].
    split; [|split].
    + exists (upstream_branch (client (self st1))). split; [exact Hb1|].
      now rewrite <- Htr.
    + discriminate.
    + intros _. destruct Hp2 as [Hp2|[w Hp2]]; [congruence|].
      exists w. now rewrite <- Hp2.
Qed.

Lemma find_git_post (st : State Session World) :
  on_return (find_git os) st
    (fun found st1 =>
       world st1 = world st /\ log st1 = log st
       /\ (if found
           then self st1 = self st
                \/ (self st1 = on_client (set_git "git.cmd") (self st)
                    /\ startswith (platform os) "win" = true
                    /\ check_install os "git --help" (world st) = false)
           else st1 = st
                /\ check_install os "git --help" (world st) = false)).
Proof.
  unfold find_git. repeat look.
  all: repeat match goal with
         | H : negb _ = true |- _ => rewrite negb_true_iff in H
         | H : negb _ = false |- _ => rewrite negb_false_iff in H
         | H : _ && _ = true |- _ => rewrite andb_true_iff in H; destruct H
         end.
  - split; [reflexivity|]. split; [reflexivity|]. now right.
  - split; [reflexivity|]. split; [reflexivity|]. now split.
  - split; [reflexivity|]. split; [reflexivity|]. now left.
Qed.

(** What [get_repository_info] does once it has found its git, from the
    state [st1] that [find_git] leaves. *)
Lemma after_find_git (st st1 : State Session World) :
  find_git os st = Done (true, st1) ->
  on_return (get_repository_info run os) st
    (fun d st' =>
       frame by_git st1 st'
       /\ (truthy_opt (repository_url (self st1)) = true ->
           frame plain_git st1 st')
       /\ (d = Returned None ->
           (exists r w,
              run (git_dir_cmd (git (client (self st1)))) (world st1) = (r, w)
              /\ st' = mkState (self st1) w
                         (log st1 ++ [git_dir_cmd (git (client (self st1)))])
              /\ startswith (rstrip_newlines (data r)) "fatal:"
                 || negb (isdir os (rstrip_newlines (data r)) w) = true)
           \/ exists p w, truthy (abspath os p w) = false)
       /\ (forall info, d = Returned (Some info) ->
             agrees info (self st')
             /\ (forall u, repository_url (self st1) = Some u ->
                           truthy u = true -> info = git_info u)
             /\ (forall p b x y, info = RepositoryInfo p b x y ->
                   exists b0,
                     tracked b0
                     /\ upstream_of (tracking (self st1)) b0
                          (upstream_branch (client (self st')))))).
Proof.
  intros Hfind. unfold get_repository_info. apply on_return_bind.
  unfold on_return at 1. rewrite Hfind. cbn [negb].
  do 7 look.
  - (* no repository here *)
    look. split; [framed|]. split; [intros _; framed|]. split.
    + intros _. left. eexists _, _. split; [eassumption|]. now split.
    + discriminate.
  - look. by_lemma enter_work_tree_post. intros entered st3 Hf3.
    assert (Hf2 : frame plain_git st1 st3)
      by (eapply frame_trans; [|exact Hf3]; framed).
    clear Hf3. look.
    + (* os.chdir raised *)
      look. split; [framed|]. split; [intros _; framed|].
      split; discriminate.
    + do 7 look. by_lemma detect_svn_post.
      intros s st5 (Hf5 & Hskip & Hsvn).
      assert (Hf4 : frame plain_git st1
                      (mkState (on_client (set_head_ref (strip (data r0)))
                                  (self st3)) w0
                         (log st3 ++
                          [mkCall [git (client (self st3)); "symbolic-ref";
                                   "-q"; "HEAD"] None])%list))
        by framed.
      assert (Hs4 : same_settings (self st1) (self st3)) by apply Hf2.
      destruct Hs4 as (_ & _ & Hurl4 & Htr4).
      cbn [repository_url on_client] in Hskip.
      look.
      * (* a git-svn checkout *)
        look. destruct (Hsvn info eq_refl) as (Ha & path & base & uuid & Ei).
        split; [eapply frame_trans; [apply frame_weaken, Hf4 | exact Hf5]|].
        split; [|split].
        -- intros Hx. rewrite <- Hurl4 in Hx.
           destruct (Hskip Hx) as [? _]. discriminate.
        -- discriminate.
        -- intros info' E. inversion E; subst info'. split; [exact Ha|].
           split.
           ++ intros u Eu Tu. rewrite <- Hurl4 in Eu.
              assert (Hx : truthy_opt (repository_url (self st3)) = true)
                by (rewrite Eu; exact Tu).
              destruct (Hskip Hx) as [? _]. discriminate.
           ++ intros p b x y Ep. rewrite Ei in Ep. discriminate.
      * (* a plain git clone *)
        look. by_lemma detect_native_post.
        intros info st6 (Hf6 & Hb6 & Hi6 & Hn6).
        assert (Hs5 : same_settings
                        (on_client (set_head_ref (strip (data r0)))
                           (self st3)) (self st5)) by apply Hf5.
        destruct Hs5 as (_ & _ & Hurl5 & Htr5).
        cbn [repository_url tracking on_client] in Hurl5, Htr5.
        look. split; [|split; [|split]].
        -- eapply frame_trans; [|apply frame_weaken, Hf6].
           eapply frame_trans; [apply frame_weaken, Hf4 | exact Hf5].
        -- intros Hx. rewrite <- Hurl4 in Hx.
           destruct (Hskip Hx) as [_ E5]. rewrite E5 in Hf6.
           eapply frame_trans; [exact Hf4 | exact Hf6].
        -- intros E. inversion E; subst info. right.
           destruct (Hn6 eq_refl) as [w1 Hw1]. eexists; exists w1; exact Hw1.
        -- intros info' E. inversion E; subst info.
           destruct (Hi6 info' eq_refl) as [Ha Hu]. split; [exact Ha|].
           split.
           ++ intros u Eu Tu. apply Hu; [|exact Tu]. congruence.
           ++ intros _ _ _ _ _. destruct Hb6 as (b0 & Hb0 & Hup).
              exists b0. split; [exact Hb0|]. now rewrite <- Htr4, <- Htr5.
      * (* os.listdir raised *)
        look.
        split; [eapply frame_trans; [apply frame_weaken, Hf4 | exact Hf5]|].
        split; [|split; discriminate].
        intros Hx. rewrite <- Hurl4 in Hx.
        destruct (Hskip Hx) as [? _]. discriminate.
Qed.

Lemma get_repository_info_cases (st st' : State Session World)
  (d : detected) :
  get_repository_info run os st = Done (d, st') ->
  (check_install os "git --help" (world st) = false
   /\ d = Returned None /\ st' = st)
  \/ exists st1,
       find_git os st = Done (true, st1)
       /\ world st1 = world st /\ log st1 = log st
       /\ (self st1 = self st
           \/ (self st1 = on_client (set_git "git.cmd") (self st)
               /\ startswith (platform os) "win" = true
               /\ check_install os "git --help" (world st) = false)).
Proof.
  intros H. pose proof (find_git_post st) as Hg. unfold on_return in Hg.
  unfold get_repository_info, bind in H.
  destruct (find_git os st) as [[[|] st1]| |] eqn:Ef; try discriminate.
  - right. exists st1. destruct Hg as (Hw & Hl & Hs). auto.
  - left. destruct Hg as (_ & _ & -> & Hc). cbn in H.
    inversion H; subst. auto.
Qed.

Lemma look_step {A B} (m : M Session World A) (k : A -> M Session World B)
  (st st1 : State Session World) (a : A) :
  m st = Done (a, st1) -> bind m k st = k a st1.
Proof. intros H. unfold bind. now rewrite H. Qed.

Lemma execute_ignoring_errors (cmd : list string) (st : State Session World) :
  execute run cmd true st
  = Done (data (fst (run (mkCall cmd None) (world st))),
          mkState (self st) (snd (run (mkCall cmd None) (world st)))
                  (log st ++ [mkCall cmd None])%list).
Proof.
  unfold execute, bind, spawn.
  destruct (run (mkCall cmd None) (world st)) as [r w].
  now destruct (ok r).
Qed.

Lemma call_returns {A} (f : World -> A * World) (st : State Session World) :
  call f st
  = Done (fst (f (world st)),
          mkState (self st) (snd (f (world st))) (log st)).
Proof. unfold call. now destruct (f (world st)). Qed.

(** X14 (get_origin): the upstream branch is the [--tracking] option, else
    the default the caller gives, else [origin/master], and is never
    empty; the one command run asks git for the url of the remote, which is
    the branch up to its first slash; the url has no newline at its end;
    the method always returns and leaves the client object as it is, and
    the [ignore_errors] argument changes nothing. *)
Theorem get_origin_queries_remote (default : option string)
  (ignore_errors : bool) (st : State Session World) :
  let branch :=
    or_else (tracking (self st)) (or_else default "origin/master") in
  let remote := first_field "/" branch in
  let c := origin_url_cmd (git (client (self st))) remote in
  let url := rstrip_newlines (data (fst (run c (world st)))) in
  get_origin run default ignore_errors st
  = Done ((branch, url),
          mkState (self st) (snd (run c (world st))) (log st ++ [c])%list)
  /\ truthy branch = true
  /\ contains_char remote "/" = false
  /\ startswith branch remote = true
  /\ rstrip_newlines url = url.
Proof.
  cbv zeta. split; [|split; [|split; [|split]]].
  - unfold get_origin.
    rewrite (look_step get_self _ st st (self st) eq_refl).
    now rewrite (look_step _ _ _ _ _ (execute_ignoring_errors _ st)).
  - apply or_else_truthy, or_else_truthy. reflexivity.
  - apply first_field_no_sep.
  - apply first_field_prefix.
  - apply rstrip_with_twice.
Qed.

(** X15 (scan_for_server): the method always returns, never an empty url;
    it leaves the client object as it is and runs at most one command,
    [git config --get reviewboard.url]; a server found in the
    configuration files wins and then no command is run; and the SVN
    property is only asked for when the repository type is svn. *)
Theorem scan_for_server_result (info : repository_info)
  (st : State Session World) :
  exists found st',
    scan_for_server run os info st = Done (found, st')
    /\ found <> Some EmptyString
    /\ self st' = self st
    /\ (log st' = log st
        \/ log st' = (log st ++ [server_url_cmd (git (client (self st)))])%list)
    /\ (truthy_opt (fst (base_scan_for_server os info (world st))) = true ->
        found = fst (base_scan_for_server os info (world st))
        /\ log st' = log st)
    /\ (type (client (self st)) <> "svn" ->
        truthy_opt (fst (base_scan_for_server os info (world st))) = false ->
        let r := run (server_url_cmd (git (client (self st))))
                     (snd (base_scan_for_server os info (world st))) in
        world st' = snd r
        /\ found = if truthy (strip (data (fst r)))
                   then Some (strip (data (fst r))) else None).
Proof.
  unfold scan_for_server.
  rewrite (look_step _ _ _ _ _ (call_returns _ st)).
  set (base := base_scan_for_server os info (world st)).
  set (st0 := mkState (self st) (snd base) (log st)).
  destruct (truthy_opt (fst base)) eqn:Es.
  { exists (fst base), st0. split; [reflexivity|].
    split; [intros E; rewrite E in Es; discriminate|].
    split; [reflexivity|]. split; [now left|].
    split; [now split | discriminate]. }
  rewrite (look_step get_self _ st0 st0 (self st0) eq_refl).
  rewrite (look_step _ _ _ _ _ (execute_ignoring_errors _ st0)).
  cbn [self world log st0]. fold (server_url_cmd (git (client (self st)))).
  set (c := server_url_cmd (git (client (self st)))).
  set (r := run c (snd base)).
  set (st1 := mkState (self st) (snd r) (log st ++ [c])%list).
  destruct (truthy (strip (data (fst r)))) eqn:Eu.
  { exists (Some (strip (data (fst r)))), st1. split; [reflexivity|].
    split; [intros E; inversion E as [E']; rewrite E' in Eu; discriminate|].
    split; [reflexivity|]. split; [now right|].
    split; [discriminate | now split]. }
  destruct (type (client (self st)) =? "svn") eqn:Et.
  - rewrite (look_step _ _ _ _ _ (call_returns _ st1)).
    set (prop := svn_scan_for_server_property os info (world st1)).
    destruct (truthy_opt (fst prop)) eqn:Ep;
      eexists _, _; (split; [reflexivity|]); cbn [self log world].
    + split; [intros E; rewrite E in Ep; discriminate|].
      split; [reflexivity|]. split; [now right|]. split; [discriminate|].
      intros Hn. apply String.eqb_eq in Et. contradiction.
    + split; [discriminate|].
      split; [reflexivity|]. split; [now right|]. split; [discriminate|].
      intros Hn. apply String.eqb_eq in Et. contradiction.
  - exists None, st1. split; [reflexivity|]. split; [discriminate|].
    split; [reflexivity|]. split; [now right|].
    split; [discriminate | now split].
Qed.


(** X17 (get_repository_info): the information returned and the client
    object agree. With a [RepositoryInfo] the type is git, the base path is
    empty, parent diffs and the updating of commits are supported, and the
    path comes from a url that is not empty. With a [SVNRepositoryInfo] the
    type is svn, the path, the base path and the uuid are not empty,
    parent diffs are supported, the upstream branch is not empty and no
    repository url was given as an option. *)
Theorem repository_info_agrees (st st' : State Session World)
  (info : repository_info) :
  get_repository_info run os st = Done (Returned (Some info), st') ->
  agrees info (self st').
Proof.
  intros H.
  destruct (get_repository_info_cases _ _ _ H)
    as [(_ & E & _)|(st1 & Hf & _)]; [discriminate|].
  pose proof (on_return_elim _ _ _ _ _ (after_find_git st st1 Hf) H)
    as (_ & _ & _ & Hi).
  now destruct (Hi info eq_refl).
Qed.

(** X18 (get_repository_info): a repository url given as an option wins.
    The information returned, if any, is that of a plain git repository at
    this url, also in a git-svn checkout, and no [git svn] command is
    run. *)
Theorem explicit_repository_url (st st' : State Session World)
  (d : detected) (u : string) :
  repository_url (self st) = Some u -> truthy u = true ->
  get_repository_info run os st = Done (d, st') ->
  (d = Returned None \/ d = EscapedOSError
   \/ (d = Returned (Some (git_info u))
       /\ type (client (self st')) = "git"))
  /\ exists new,
       log st' = (log st ++ new)%list
       /\ forallb (fun c => negb (is_git_svn c)) new = true.
Proof.
  intros Hu Tu H.
  destruct (get_repository_info_cases _ _ _ H)
    as [(_ & -> & ->)|(st1 & Hf & Hw & Hl & Hs)].
  { split; [now left|]. exists []. now rewrite app_nil_r. }
  pose proof (on_return_elim _ _ _ _ _ (after_find_git st st1 Hf) H)
    as (_ & Hp & _ & Hi).
  assert (Hu1 : repository_url (self st1) = Some u)
    by (destruct Hs as [->|(-> & _)]; exact Hu).
  split.
  - destruct d as [[info|]|]; [|now left | now right; left].
    right; right. destruct (Hi info eq_refl) as (Ha & He & _).
    rewrite (He u Hu1 Tu) in *. split; [reflexivity|]. apply Ha.
  - destruct Hp as [_ (new & Hn & Hall)].
    { rewrite Hu1. exact Tu. }
    exists new. split; [now rewrite Hn, Hl|].
    eapply plain_git_not_svn; exact Hall.
Qed.

(** X19 (get_repository_info): whenever the method returns, or an
    [OSError] escapes from it, every command it has run is a command of
    [self.git] with the environment left alone; [self.git] is what it was,
    or [git.cmd] on a platform whose name begins with [win]; the options
    are what they were. *)
Theorem every_command_through_git (st st' : State Session World)
  (d : detected) :
  get_repository_info run os st = Done (d, st') ->
  (git (client (self st')) = git (client (self st))
   \/ (git (client (self st')) = "git.cmd"
       /\ startswith (platform os) "win" = true))
  /\ options (client (self st')) = options (client (self st))
  /\ repository_url (self st') = repository_url (self st)
  /\ tracking (self st') = tracking (self st)
  /\ exists new,
       log st' = (log st ++ new)%list
       /\ forallb (by_git (git (client (self st')))) new = true.
Proof.
  intros H.
  destruct (get_repository_info_cases _ _ _ H)
    as [(_ & -> & ->)|(st1 & Hf & Hw & Hl & Hs)].
  { split; [now left|]. repeat split. exists []. now rewrite app_nil_r. }
  pose proof (on_return_elim _ _ _ _ _ (after_find_git st st1 Hf) H)
    as ([(Hg & Ho & Hr & Ht) (new & Hn & Hall)] & _).
  rewrite Hg, Ho, Hr, Ht, Hn, Hl.
  split; [|split; [|split; [|split; [|now exists new]]]];
    destruct Hs as [Hs|(Hs & Hwin & _)]; rewrite Hs; try reflexivity.
  - now left.
  - right. now split.
Qed.


Lemma returns_bind {A B} (m : M Session World A)
  (k : A -> M Session World B) (st : State Session World)
  (Q : B -> State Session World -> Prop) :
  returns m st (fun a st1 => returns (k a) st1 Q) ->
  returns (bind m k) st Q.
Proof.
  intros (a & st1 & Hm & b & st2 & Hk & HQ). exists b, st2.
  split; [|exact HQ]. unfold bind. now rewrite Hm.
Qed.

Lemma returns_ret {A} (a : A) (st : State Session World)
  (Q : A -> State Session World -> Prop) :
  Q a st -> returns (ret a) st Q.
Proof. intros H. now exists a, st. Qed.

Lemma returns_get_self (st : State Session World)
  (Q : Session -> State Session World -> Prop) :
  Q (self st) st -> returns get_self st Q.
Proof. intros H. now exists (self st), st. Qed.

Lemma returns_modify_self (f : Session -> Session)
  (st : State Session World) (Q : unit -> State Session World -> Prop) :
  Q tt (mkState (f (self st)) (world st) (log st)) ->
  returns (modify_self f) st Q.
Proof. intros H. now eexists tt, _. Qed.

Lemma returns_ask {A} (f : World -> A) (st : State Session World)
  (Q : A -> State Session World -> Prop) :
  Q (f (world st)) st -> returns (ask f) st Q.
Proof. intros H. now eexists _, st. Qed.

Lemma returns_chdir (path : string) (st : State Session World)
  (Q : bool -> State Session World -> Prop) :
  chdir os path (world st) <> None ->
  (forall w, Q true (mkState (self st) w (log st))) ->
  returns (os_chdir os path) st Q.
Proof.
  intros Hc H. unfold returns, os_chdir.
  destruct (chdir os path (world st)) as [w|]; [|contradiction].
  now eexists true, _.
Qed.

(** A command whose failure is ignored and whose output is known. *)
Lemma returns_printed (cmd : list string) (out : string)
  (st : State Session World) (Q : string -> State Session World -> Prop) :
  prints run (mkCall cmd None) out ->
  (forall w, Q out (mkState (self st) w (log st ++ [mkCall cmd None])%list)) ->
  returns (execute run cmd true) st Q.
Proof.
  intros Hp H. unfold returns.
  rewrite execute_ignoring_errors. rewrite Hp. now eexists _, _.
Qed.

(** A command whose failure is ignored, whatever it prints. *)
Lemma returns_ignoring (cmd : list string) (st : State Session World)
  (Q : string -> State Session World -> Prop) :
  (forall out w,
     Q out (mkState (self st) w (log st ++ [mkCall cmd None])%list)) ->
  returns (execute run cmd true) st Q.
Proof.
  intros H. unfold returns. rewrite execute_ignoring_errors.
  now eexists _, _.
Qed.

(** A command that must succeed, and does. *)
Lemma returns_succeeding (cmd : list string) (st : State Session World)
  (Q : string -> State Session World -> Prop) :
  succeeds run (mkCall cmd None) ->
  (forall out w,
     Q out (mkState (self st) w (log st ++ [mkCall cmd None])%list)) ->
  returns (execute run cmd false) st Q.
Proof.
  intros Hs H. unfold returns, execute, bind, spawn.
  pose proof (Hs (world st)) as Hok.
  destruct (run (mkCall cmd None) (world st)) as [r w].
  cbn [fst] in Hok. rewrite Hok. cbn [negb andb]. now eexists _, _.
Qed.

Lemma returns_done {A} (m : M Session World A) (st st' : State Session World)
  (a : A) (Q : A -> State Session World -> Prop) :
  m st = Done (a, st') -> Q a st' -> returns m st Q.
Proof. intros Hm HQ. now exists a, st'. Qed.

Lemma returns_weaken {A} (m : M Session World A) (st : State Session World)
  (Q Q' : A -> State Session World -> Prop) :
  returns m st Q -> (forall a st', Q a st' -> Q' a st') -> returns m st Q'.
Proof. intros (a & st' & Hm & HQ) H. exists a, st'. auto. Qed.

(** One step of a method that is sure to return. *)
Ltac go :=
  lazymatch goal with
  | |- returns (bind _ _) _ _ => apply returns_bind
  | |- returns (ret _) _ _ => apply returns_ret
  | |- returns get_self _ _ => apply returns_get_self
  | |- returns (modify_self _) _ _ => apply returns_modify_self
  | |- returns (ask _) _ _ => apply returns_ask
  end;
  cbv beta; cbn [self world log].

(** Where [git config core.bare] succeeds and the directory can be
    entered, the client gets to the top of the work tree, and nothing but
    its [bare] attribute changes. *)
Lemma enter_work_tree_returns (git_dir : string) (st : State Session World) :
  succeeds run (mkCall [git (client (self st)); "config"; "core.bare"] None) ->
  (forall p w, chdir os p w <> None) ->
  returns (enter_work_tree run os git_dir) st
    (fun entered st' =>
       entered = true
       /\ exists b, self st' = set_bare b (self st)).
Proof.
  intros Hbare Hdir. unfold enter_work_tree. do 2 go.
  go. apply returns_succeeding; [exact Hbare|]. intros out w.
  do 2 go. destruct (negb (strip out =? "true")).
  - go. apply returns_ignoring. intros top w1. do 4 go.
    apply returns_chdir; [apply Hdir|]. intros w2.
    split; [reflexivity|]. now eexists.
  - go. split; [reflexivity|]. now eexists.
Qed.

(** With no repository url given and no [svn] directory in the git
    directory, the search for git-svn does nothing. *)
Lemma detect_svn_plain (git_dir : string) (st : State Session World) :
  truthy_opt (repository_url (self st)) = false ->
  isdir os (path_join os git_dir "svn") (world st) = false ->
  detect_svn run os git_dir st = Done (NotSvn, st).
Proof.
  intros Hu Hd. unfold detect_svn, bind, get_self, ask, ret.
  now rewrite Hu, Hd.
Qed.

Lemma split_no_sep (sep : ascii) (a : string) :
  contains_char a sep = false -> split sep a = [a].
Proof.
  induction a as [|c a IH]; [reflexivity|].
  cbn [contains_char split]. intros H. apply orb_false_iff in H as [Hc Ha].
  rewrite Hc, (IH Ha). reflexivity.
Qed.

Lemma first_field_app (sep : ascii) (a b : string) :
  contains_char a sep = false ->
  first_field sep (a ++ String sep b) = a.
Proof.
  intros H. unfold first_field. now rewrite split_app, (split_no_sep _ _ H).
Qed.

(** X21 (get_repository_info): the upstream branch comes from the
    configuration of the current branch. Take a plain clone, bare or
    not, with no [svn] directory, searched with neither a repository url
    nor the [--tracking] option. Let [git symbolic-ref -q HEAD] print
    [refs/heads/B], let [git config --get branch.B.merge] print
    [refs/heads/M] and [git config --get branch.B.remote] print a remote R
    that is not [.], and let [git config --get remote.R.url] print a url.
    Then the method returns the [RepositoryInfo] of that url without the
    slashes at its end, and the client has the head ref [refs/heads/B],
    the upstream branch [R/M] and the type git. *)
Theorem upstream_branch_from_config (st : State Session World)
  (git_dir_out head_out merge_out remote_out url_out B M R : string) :
  let g := git (client (self st)) in
  let git_dir := rstrip_newlines git_dir_out in
  let url := rstrip_slashes (rstrip_newlines url_out) in
  check_install os "git --help" (world st) = true ->
  truthy_opt (repository_url (self st)) = false ->
  truthy_opt (tracking (self st)) = false ->
  prints run (git_dir_cmd g) git_dir_out ->
  startswith git_dir "fatal:" = false ->
  (forall w, isdir os git_dir w = true) ->
  (forall w, isdir os (path_join os git_dir "svn") w = false) ->
  succeeds run (mkCall [g; "config"; "core.bare"] None) ->
  (forall p w, chdir os p w <> None) ->
  prints run (mkCall [g; "symbolic-ref"; "-q"; "HEAD"] None) head_out ->
  strip head_out = "refs/heads/" ++ B ->
  prints run (branch_merge_cmd g B) merge_out ->
  strip merge_out = "refs/heads/" ++ M ->
  truthy M = true ->
  prints run (branch_remote_cmd g B) remote_out ->
  strip remote_out = R ->
  truthy R = true -> R <> "." -> contains_char R "/" = false ->
  prints run (origin_url_cmd g R) url_out ->
  startswith (rstrip_newlines url_out) "fatal:" = false ->
  truthy url = true ->
  exists st',
    get_repository_info run os st = Done (Returned (Some (git_info url)), st')
    /\ head_ref (client (self st')) = "refs/heads/" ++ B
    /\ upstream_branch (client (self st')) = R ++ "/" ++ M
    /\ type (client (self st')) = "git".
Proof.
  intros g git_dir url Hgit Hurl Htr Hgd Hnf Hisdir Hnosvn Hbare Hchdir
         Hhead HB Hmerge HM TM Hremote HR TR Hdot Hslash Horigin Hf Tu.
  assert (Turl : truthy (rstrip_newlines url_out) = true).
  { unfold url in Tu. destruct (rstrip_newlines url_out); [discriminate|].
    reflexivity. }
  cut (returns (get_repository_info run os) st
         (fun d st' =>
            d = Returned (Some (git_info url))
            /\ head_ref (client (self st')) = "refs/heads/" ++ B
            /\ upstream_branch (client (self st')) = R ++ "/" ++ M
            /\ type (client (self st')) = "git")).
  { intros (d & st' & E & -> & H). now exists st'. }
  unfold get_repository_info. go.
  unfold find_git. do 2 go. rewrite Hgit. cbn [negb]. go. cbn [negb].
  do 3 go. eapply returns_printed; [exact Hgd|]. intros w1.
  do 2 go. fold git_dir. rewrite Hnf, Hisdir. cbn [negb orb].
  go. eapply returns_weaken; [apply enter_work_tree_returns|].
  { exact Hbare. }
  { exact Hchdir. }
  cbv beta. intros entered [s3 w3 l3] (-> & b & Hs3).
  cbn [self] in Hs3. subst s3. cbn [negb].
  do 3 go. eapply returns_printed; [exact Hhead|]. intros w4.
  do 3 go. eapply returns_done.
  { apply detect_svn_plain;
      cbn [self world repository_url on_client set_bare]; auto. }
  cbv beta iota.
  (* the plain clone *)
  go. unfold detect_native. go.
  unfold detect_tracking_branch. do 4 go.
  cbn [client on_client head_ref set_upstream_branch set_head_ref set_bare].
  rewrite HB. rewrite !strip_heads_prefix_branch.
  change (truthy ("refs/heads/" ++ B)) with true. cbv iota.
  go. eapply returns_printed; [exact Hmerge|]. intros w5.
  go. eapply returns_printed; [exact Hremote|]. intros w6.
  rewrite HR, HM, TR, strip_heads_prefix_branch, TM.
  assert (Hd : (R =? ".") = false) by now apply String.eqb_neq.
  rewrite Hd. cbn [negb andb]. go.
  (* the url *)
  go. unfold detect_url. do 2 go.
  cbn [repository_url on_client set_bare]. rewrite Hurl.
  go. unfold get_origin at 1. do 2 go.
  cbn [tracking client on_client upstream_branch set_upstream_branch
       set_head_ref set_bare].
  rewrite (or_else_absent _ _ Htr).
  assert (Eb : or_else (Some (R ++ "/" ++ M)) "origin/master" = R ++ "/" ++ M).
  { cbn [or_else]. now rewrite (truthy_app _ _ TR). }
  rewrite Eb.
  rewrite (first_field_app "/" R M Hslash
           : first_field "/" (R ++ "/" ++ M) = R).
  go. eapply returns_printed; [exact Horigin|]. intros w7.
  go. go. cbn [fst snd]. go. rewrite Turl, Hf. cbn [negb orb].
  do 2 go. cbn [snd]. unfold url in Tu. rewrite Tu. cbn [negb]. cbv iota.
  go. rewrite Tu. cbv iota. do 4 go.
  split; [reflexivity|]. now repeat split.
Qed.

End Looking.


(** The clone of a github repository: the client object is of type git. *)
Lemma repository_info_agrees_witness :
  agrees (git_info "git@github.com:Khan/rbtools.git")
    (self DetectExamples.clone_found).
Proof.
  refine (repository_info_agrees (Script.run DetectExamples.clone)
            (DetectExamples.posix [".git"])
            (DetectExamples.begin (DetectExamples.fresh None None))
            DetectExamples.clone_found _ _).
  vm_compute; reflexivity.
Defined.

(** A git-svn checkout searched with a repository url given: the result is
    the plain git repository at this url. *)
Lemma explicit_repository_url_witness :
  (Returned (Some (git_info DetectExamples.mirror_url)) = Returned None
   \/ Returned (Some (git_info DetectExamples.mirror_url)) = EscapedOSError
   \/ (Returned (Some (git_info DetectExamples.mirror_url))
       = Returned (Some (git_info DetectExamples.mirror_url))
       /\ type (client (self DetectExamples.mirror_found)) = "git"))
  /\ exists new,
       log DetectExamples.mirror_found = ([] ++ new)%list
       /\ forallb (fun c => negb (is_git_svn c)) new = true.
Proof.
  refine (explicit_repository_url
            (Script.run DetectExamples.svn_checkout)
            (DetectExamples.posix [".git"; ".git/svn"])
            (DetectExamples.begin
               (DetectExamples.fresh (Some DetectExamples.mirror_url) None))
            DetectExamples.mirror_found
            (Returned (Some (git_info DetectExamples.mirror_url)))
            DetectExamples.mirror_url eq_refl eq_refl _).
  vm_compute; reflexivity.
Defined.

(** The clone of a github repository: every command is one of [git]. *)
Lemma every_command_through_git_witness :
  (git (client (self DetectExamples.clone_found)) = "git"
   \/ (git (client (self DetectExamples.clone_found)) = "git.cmd"
       /\ startswith "linux2" "win" = true))
  /\ options (client (self DetectExamples.clone_found)) = Examples.quiet
  /\ repository_url (self DetectExamples.clone_found) = None
  /\ tracking (self DetectExamples.clone_found) = None
  /\ exists new,
       log DetectExamples.clone_found = ([] ++ new)%list
       /\ forallb (by_git (git (client (self DetectExamples.clone_found))))
            new = true.
Proof.
  refine (every_command_through_git (Script.run DetectExamples.clone)
            (DetectExamples.posix [".git"])
            (DetectExamples.begin (DetectExamples.fresh None None))
            DetectExamples.clone_found
            (Returned (Some (git_info "git@github.com:Khan/rbtools.git")))
            _).
  vm_compute; reflexivity.
Defined.


(** The clone [fork]: the branch [feature] follows [develop] of the remote
    [upstream]. *)
Lemma upstream_branch_from_config_witness :
  exists st',
    get_repository_info (Script.run DetectExamples.fork)
      (DetectExamples.posix [".git"])
      (DetectExamples.begin (DetectExamples.fresh None None))
    = Done (Returned (Some (git_info "https://example.com/team/project.git")),
            st')
    /\ head_ref (client (self st')) = "refs/heads/feature"
    /\ upstream_branch (client (self st')) = "upstream/develop"
    /\ type (client (self st')) = "git".
Proof.
  refine (upstream_branch_from_config (Script.run DetectExamples.fork)
            (DetectExamples.posix [".git"])
            (DetectExamples.begin (DetectExamples.fresh None None))
            (".git" ++ nl) ("refs/heads/feature" ++ nl)
            ("refs/heads/develop" ++ nl) ("upstream" ++ nl)
            ("https://example.com/team/project.git/" ++ nl)
            "feature" "develop" "upstream"
            eq_refl eq_refl eq_refl (fun _ => eq_refl) eq_refl
            (fun _ => eq_refl) (fun _ => eq_refl) (fun _ => eq_refl) _
            (fun _ => eq_refl) eq_refl (fun _ => eq_refl) eq_refl eq_refl
            (fun _ => eq_refl) eq_refl eq_refl _ eq_refl
            (fun _ => eq_refl) eq_refl eq_refl).
  - intros p w. discriminate.
  - discriminate.
Defined.

End DetectFacts.
